(** * The day-planning generator of task_kanri (src/index.tsx)

    A shallow embedding of the schedule-generation helpers (ceil15,
    formatTime, parseTime, hasOverlap, checkConflict, findAvailableSlot,
    findDinnerSlot) and of the handler of POST /api/schedule/generate,
    followed by the properties of the engine.

    Conventions of the embedding.
    - A [Date] is its time value: an integer count of milliseconds.  The
      local-time methods of Date (getMinutes, setHours, toTimeString, ...)
      are read in a zone with a constant offset, taken to be UTC, the zone
      of the Workers runtime; they are written with the day and time
      arithmetic of ECMAScript (Day, MakeTime, MakeDate).  The Dates made
      from the clock, from constants and from the clock strings of a day
      plan are valid ones, with time values in the range in which Date
      arithmetic is exact.  The end of the block of a backlog task is made
      from the stored duration of the task, which is any number: it may be
      an Invalid Date, and is modelled as such ([newDate]).
    - A JavaScript number that holds a count of minutes or an offset is an
      integer of [Z].
    - [while] loops take a fuel argument and return [None] when it runs
      out; a [for] loop over a constant arithmetic progression runs over
      the list of its loop-variable values.
    - An array that is pushed to is a list that is appended to.
    - [String.prototype.localeCompare] is the collation of the host, which
      the model does not fix: it is a parameter, [localeCompare], of the
      final sort and of the handler. *)

From Stdlib Require Import ZArith List String Ascii Bool Lia Permutation.
From Stdlib Require Import DecimalString Sorted.
Import ListNotations.

Open Scope string_scope.
Open Scope list_scope.
Open Scope Z_scope.

(** ** Date *)

Definition Date := Z.

Definition msPerSecond : Z := 1000.
Definition msPerMinute : Z := 60000.
Definition msPerHour : Z := 3600000.
Definition msPerDay : Z := 86400000.

Definition Day (t : Date) : Z := t / msPerDay.
Definition getHours (t : Date) : Z := (t / msPerHour) mod 24.
Definition getMinutes (t : Date) : Z := (t / msPerMinute) mod 60.
Definition getSeconds (t : Date) : Z := (t / msPerSecond) mod 60.
Definition getMilliseconds (t : Date) : Z := t mod msPerSecond.

Definition MakeTime (hour min sec ms : Z) : Z :=
  hour * msPerHour + min * msPerMinute + sec * msPerSecond + ms.

Definition MakeDate (day time : Z) : Date := day * msPerDay + time.

Definition setHours (t : Date) (hour min sec ms : Z) : Date :=
  MakeDate (Day t) (MakeTime hour min sec ms).

Definition setMinutes (t : Date) (min : Z) : Date :=
  MakeDate (Day t) (MakeTime (getHours t) min (getSeconds t) (getMilliseconds t)).

Definition setSeconds (t : Date) (sec : Z) : Date :=
  MakeDate (Day t) (MakeTime (getHours t) (getMinutes t) sec (getMilliseconds t)).

Definition setMilliseconds (t : Date) (ms : Z) : Date :=
  MakeDate (Day t) (MakeTime (getHours t) (getMinutes t) (getSeconds t) ms).

(** ** Time utilities *)

(** [ceil15]: the remainder is JavaScript's [%], which truncates. *)
Definition ceil15 (date : Date) : Date :=
  let minutes := getMinutes date in
  let remainder := Z.rem minutes 15 in
  if remainder =? 0 then date
  else
    let newDate := date in
    let newDate := setMinutes newDate (minutes + (15 - remainder)) in
    let newDate := setSeconds newDate 0 in
    let newDate := setMilliseconds newDate 0 in
    newDate.

Definition digitChar (d : Z) : ascii := ascii_of_N (Z.to_N (48 + d)).

Definition twoDigits (n : Z) : string :=
  String (digitChar (n / 10)) (String (digitChar (n mod 10)) EmptyString).

(** [Date.prototype.toTimeString] in the UTC zone. *)
Definition toTimeString (date : Date) : string :=
  String.append (twoDigits (getHours date))
    (String.append ":"
       (String.append (twoDigits (getMinutes date))
          (String.append ":"
             (String.append (twoDigits (getSeconds date))
                " GMT+0000 (Coordinated Universal Time)")))).

Definition formatTime (date : Date) : string :=
  substring 0 5 (toTimeString date).

(** The time value of a Date is at most 8.64e15 milliseconds in absolute
    value: [new Date(value)] with a value out of this range is an Invalid
    Date, [None] here.  Every comparison with an Invalid Date is false, and
    its [toTimeString()] is the text "Invalid Date". *)
Definition maxTimeValue : Z := 8640000000000000.

Definition newDate (value : Z) : option Date :=
  if (- maxTimeValue <=? value) && (value <=? maxTimeValue) then Some value
  else None.

(** [formatTime] of an Invalid Date. *)
Definition formatInvalidDate : string := substring 0 5 "Invalid Date".

(** [String.prototype.split] with a one-character separator. *)
Fixpoint split (sep : ascii) (s : string) : list string :=
  match s with
  | EmptyString => [EmptyString]
  | String c rest =>
      if Ascii.eqb c sep then EmptyString :: split sep rest
      else
        match split sep rest with
        | piece :: pieces => String c piece :: pieces
        | [] => [String c EmptyString]
        end
  end.

Definition digitValue (c : ascii) : option Z :=
  let n := Z.of_N (N_of_ascii c) in
  if (48 <=? n) && (n <=? 57) then Some (n - 48) else None.

Fixpoint NumberFrom (acc : Z) (s : string) : option Z :=
  match s with
  | EmptyString => Some acc
  | String c rest =>
      match digitValue c with
      | Some d => NumberFrom (10 * acc + d) rest
      | None => None
      end
  end.

(** [Number] on a string of decimal digits (the empty string reads as 0);
    [None] is NaN. *)
Definition Number (s : string) : option Z := NumberFrom 0 s.

(** [const [hours, minutes] = timeStr.split(':').map(Number)] *)
Definition readClock (timeStr : string) : option (Z * Z) :=
  match map Number (split ":" timeStr) with
  | Some hours :: Some minutes :: _ => Some (hours, minutes)
  | _ => None
  end.

(** A clock string: a string whose hour and minute fields both read as
    numbers, kept with the two numbers.  The "HH:mm" strings of the
    TimeSlot type are of this kind. *)
Record Clock : Type := {
  clockText : string;
  clockFields : Z * Z;
  clockReads : readClock clockText = Some clockFields
}.

(** [clock "HH:mm"]: a literal clock string, with its fields computed. *)
Notation "'clock' s" :=
  (ltac:(let fields := eval vm_compute in (readClock s) in
         match fields with
         | Some ?f => exact (@Build_Clock s f eq_refl)
         end))
  (at level 10, s at level 9, only parsing).

Definition parseTime (timeStr : Clock) (baseDate : Date) : Date :=
  let '(hours, minutes) := clockFields timeStr in
  let date := baseDate in
  setHours date hours minutes 0 0.

Definition hasOverlap (start1 end1 start2 end2 : Date) : bool :=
  (start1 <? end2) && (start2 <? end1).

(** ** Blocks and the conflict detector *)

Record ScheduleBlock : Type := {
  start : Date;
  end_ : Date;
  title : string;
  type_ : string;
  minutes : Z
}.

Definition checkConflict (block : ScheduleBlock) (blocks : list ScheduleBlock) : bool :=
  existsb (fun b => hasOverlap (start block) (end_ block) (start b) (end_ b)) blocks.

(** ** Slot finder *)

(** The values of [offset] in
    [for (let offset = 15; offset <= limit; offset += 15)], first to last;
    [limit] iterations are more than the loop can make. *)
Fixpoint offsetsFrom (fuel : nat) (offset limit : Z) : list Z :=
  match fuel with
  | O => []
  | S fuel' =>
      if offset <=? limit then offset :: offsetsFrom fuel' (offset + 15) limit
      else []
  end.

Definition offsetsUpTo (limit : Z) : list Z :=
  offsetsFrom (Z.to_nat limit) 15 limit.

Definition trySlot (duration : Z) (blocks : list ScheduleBlock)
    (minTime maxTime : option Date) (start0 : Date) : bool :=
  if match minTime with Some m => start0 <? m | None => false end then false
  else
    let end0 := start0 + duration * 60000 in
    if match maxTime with Some m => m <? end0 | None => false end then false
    else
      let testBlock :=
        {| start := start0; end_ := end0; title := "test"; type_ := "test";
           minutes := duration |} in
      negb (checkConflict testBlock blocks).

Definition findAvailableSlot (preferredStart : Date) (duration : Z)
    (blocks : list ScheduleBlock) (minTime maxTime : option Date) : option Date :=
  if trySlot duration blocks minTime maxTime preferredStart then Some preferredStart
  else
    match
      find (trySlot duration blocks minTime maxTime)
           (map (fun offset => preferredStart + offset * 60000) (offsetsUpTo 90))
    with
    | Some newStart => Some newStart
    | None =>
        match
          find (trySlot duration blocks minTime maxTime)
               (map (fun offset => preferredStart - offset * 60000) (offsetsUpTo 180))
        with
        | Some newStart => Some newStart
        | None => None
        end
    end.

(** ** Dinner slot selector *)

Definition dinnerCandidates : list Clock :=
  [clock "21:00"; clock "20:30"; clock "21:30"; clock "20:00"; clock "22:00";
   clock "23:00"].

Fixpoint dinnerLoop (baseDate maxTime : Date) (blocks : list ScheduleBlock)
    (candidates : list Clock) : option Date :=
  match candidates with
  | [] => None
  | timeStr :: rest =>
      let start0 := parseTime timeStr baseDate in
      let end0 := start0 + 60 * 60000 in
      if maxTime <? end0 then dinnerLoop baseDate maxTime blocks rest
      else
        let testBlock :=
          {| start := start0; end_ := end0; title := "dinner"; type_ := "dinner";
             minutes := 60 |} in
        if negb (checkConflict testBlock blocks) then Some start0
        else dinnerLoop baseDate maxTime blocks rest
  end.

Definition findDinnerSlot (baseDate : Date) (blocks : list ScheduleBlock) : option Date :=
  let maxTime := parseTime (clock "24:00") baseDate in
  dinnerLoop baseDate maxTime blocks dinnerCandidates.

(** ** Data of the handler *)

Record Task : Type := {
  task_id : string;
  task_title : string;
  task_category : string;
  task_minutes : Z;
  task_status : string;
  task_created_at : string;
  task_due_date : option string;
  task_priority : option string
}.

Record TimeSlot : Type := {
  slot_start : string;
  slot_end : string;
  slot_title : string;
  slot_type : string;
  slot_color : string
}.

(** An entry of [body.fixedEvents]. *)
Record FixedEvent : Type := {
  ev_start : Clock;
  ev_end : Clock;
  ev_title : string
}.

(** The three arrays the handler builds: [blocks] is the working set of the
    conflict checks, [result] the slots of the response. *)
Record Plan : Type := {
  blocks : list ScheduleBlock;
  result : list TimeSlot;
  warnings : list string
}.

Record Metadata : Type := {
  meta_planStart : string;
  meta_pressedTime : string;
  meta_lunchPlannedTime : string;
  meta_pressedAt : Z * Z;
  meta_lunchPlanned : Z * Z
}.

(** The JSON body of the response (its [generatedAt] field, a second reading
    of the clock, is left out). *)
Record GenerationResult : Type := {
  schedule : list TimeSlot;
  res_warnings : list string;
  metadata : Metadata
}.

(** A number inside a template string. *)
Definition numberText (n : Z) : string := NilZero.string_of_int (Z.to_int n).

(** ** Stages of the handler *)

Definition fixedBlock (baseDate : Date) (event : FixedEvent) : ScheduleBlock :=
  {| start := parseTime (ev_start event) baseDate;
     end_ := parseTime (ev_end event) baseDate;
     title := ev_title event;
     type_ := "fixed";
     (* both ends are whole minutes: Math.round has nothing to round *)
     minutes := (parseTime (ev_end event) baseDate - parseTime (ev_start event) baseDate) / 60000 |}.

Definition fixedSlot (event : FixedEvent) : TimeSlot :=
  {| slot_start := clockText (ev_start event);
     slot_end := clockText (ev_end event);
     slot_title := ev_title event;
     slot_type := "fixed";
     slot_color := "#ef4444" |}.

Definition replyInterval : Z := 3 * 60.

(** The reply block of one pass of the reply loop: at the loop time, or where
    [findAvailableSlot] moves it when that place is taken. *)
Definition replyBlockFor (planStart endOfDay currentReplyTime : Date)
    (blocks0 : list ScheduleBlock) : ScheduleBlock :=
  let replyEnd := currentReplyTime + 15 * 60000 in
  let replyBlock :=
    {| start := currentReplyTime; end_ := replyEnd; title := "返信枠";
       type_ := "reply"; minutes := 15 |} in
  if checkConflict replyBlock blocks0 then
    match
      findAvailableSlot currentReplyTime 15 blocks0 (Some planStart) (Some endOfDay)
    with
    | Some availableStart =>
        {| start := availableStart;
           end_ := availableStart + 15 * 60000;
           title := title replyBlock; type_ := type_ replyBlock;
           minutes := minutes replyBlock |}
    | None => replyBlock
    end
  else replyBlock.

(** One pass of the body of [while (currentReplyTime < endOfDay)]. *)
Definition replyPass (planStart endOfDay currentReplyTime : Date) (st : Plan) : Plan :=
  let replyBlock := replyBlockFor planStart endOfDay currentReplyTime (blocks st) in
  if negb (checkConflict replyBlock (blocks st)) then
    {| blocks := blocks st ++ [replyBlock];
       result := result st ++
         [{| slot_start := formatTime (start replyBlock);
             slot_end := formatTime (end_ replyBlock);
             slot_title := "返信枠"; slot_type := "reply";
             slot_color := "#3b82f6" |}];
       warnings := warnings st |}
  else st.

Fixpoint replyLoop (fuel : nat) (planStart endOfDay currentReplyTime : Date)
    (st : Plan) : option Plan :=
  match fuel with
  | O => None
  | S fuel' =>
      if currentReplyTime <? endOfDay then
        let st := replyPass planStart endOfDay currentReplyTime st in
        replyLoop fuel' planStart endOfDay
          (currentReplyTime + replyInterval * 60000) st
      else Some st
  end.

Definition lunchWarning : string := "⚠️ ランチ枠を確保できませんでした".

Definition placeLunch (t0 planStart baseDate : Date) (st : Plan) : Plan :=
  let lunchPreferred := t0 + 6 * 60 * 60000 in
  let lunchStart := ceil15 lunchPreferred in
  let dinnerTimeStart := parseTime (clock "20:00") baseDate in
  match
    findAvailableSlot lunchStart 60 (blocks st) (Some planStart) (Some dinnerTimeStart)
  with
  | Some availableLunchStart =>
      let lunchBlock :=
        {| start := availableLunchStart;
           end_ := availableLunchStart + 60 * 60000;
           title := "ランチ"; type_ := "lunch"; minutes := 60 |} in
      {| blocks := blocks st ++ [lunchBlock];
         result := result st ++
           [{| slot_start := formatTime (start lunchBlock);
               slot_end := formatTime (end_ lunchBlock);
               slot_title := "ランチ 🍽️"; slot_type := "lunch";
               slot_color := "#10b981" |}];
         warnings := warnings st |}
  | None =>
      {| blocks := blocks st; result := result st;
         warnings := warnings st ++ [lunchWarning] |}
  end.

Definition dinnerWarning : string :=
  "⚠️ 夜ご飯枠を確保できませんでした（会食などで代替されている可能性）".

Definition placeDinner (baseDate : Date) (st : Plan) : Plan :=
  match findDinnerSlot baseDate (blocks st) with
  | Some dinnerStart =>
      let dinnerBlock :=
        {| start := dinnerStart; end_ := dinnerStart + 60 * 60000;
           title := "夜ご飯"; type_ := "dinner"; minutes := 60 |} in
      {| blocks := blocks st ++ [dinnerBlock];
         result := result st ++
           [{| slot_start := formatTime (start dinnerBlock);
               slot_end := formatTime (end_ dinnerBlock);
               slot_title := "夜ご飯 🍽️"; slot_type := "dinner";
               slot_color := "#f59e0b" |}];
         warnings := warnings st |}
  | None =>
      {| blocks := blocks st; result := result st;
         warnings := warnings st ++ [dinnerWarning] |}
  end.

Definition familySlot (baseDate : Date) : TimeSlot :=
  let familyStart := parseTime (clock "20:00") baseDate in
  let familyEnd := parseTime (clock "24:00") baseDate in
  {| slot_start := formatTime familyStart;
     slot_end := formatTime familyEnd;
     slot_title := "家族時間"; slot_type := "family"; slot_color := "#8b5cf6" |}.

Definition addFamily (baseDate : Date) (st : Plan) : Plan :=
  {| blocks := blocks st;
     result := result st ++ [familySlot baseDate];
     warnings := warnings st |}.

Definition categoryColors (category : string) : option string :=
  if String.eqb category "future" then Some "#ef4444"
  else if String.eqb category "now" then Some "#3b82f6"
  else if String.eqb category "maintain" then Some "#10b981"
  else if String.eqb category "chore" then Some "#9ca3af"
  else None.

(** The title and the colour of the slot of a task. *)
Definition taskLabel (task : Task) : string :=
  String.append (task_title task)
    (String.append " (" (String.append (numberText (task_minutes task)) "分)")).

Definition taskColor (task : Task) : string :=
  match categoryColors (task_category task) with
  | Some color => color
  | None => "#9ca3af"
  end.

Definition taskSlot (task : Task) (taskBlock : ScheduleBlock) : TimeSlot :=
  {| slot_start := formatTime (start taskBlock);
     slot_end := formatTime (end_ taskBlock);
     slot_title := taskLabel task;
     slot_type := task_category task;
     slot_color := taskColor task |}.

(** The slot of a task whose block starts at [start0] and has an Invalid Date
    for its end. *)
Definition endlessSlot (task : Task) (start0 : Date) : TimeSlot :=
  {| slot_start := formatTime start0;
     slot_end := formatInvalidDate;
     slot_title := taskLabel task;
     slot_type := task_category task;
     slot_color := taskColor task |}.

Definition taskWarning (task : Task) : string :=
  String.append "⚠️ タスク「"
    (String.append (task_title task)
       (String.append "」("
          (String.append (numberText (task_minutes task))
             "分)を配置できませんでした"))).

(** The state of the backlog sweep while its cursor is a Date: the arrays
    and the cursor. *)
Record Sweep : Type := {
  plan : Plan;
  currentTime : Date
}.

(** The state of the sweep once a task has been placed with an Invalid Date
    for the end of its block: the cursor is that Invalid Date, and the
    working set is [blocks stuck_plan] followed by the block of [stuck_task]
    that starts at [stuck_start] and has the Invalid Date for its end. *)
Record Stuck : Type := {
  stuck_plan : Plan;
  stuck_start : Date;
  stuck_task : Task
}.

(** [while (currentTime < dayEnd && !placed)] for one task, from a cursor
    that is a Date.  The loop ends with the arrays, the cursor and [placed],
    or it ends stuck. *)
Fixpoint whileLoop (fuel : nat) (task : Task) (dayEnd : Date) (st : Sweep)
    (placed : bool) : option (Sweep * bool + Stuck) :=
  match fuel with
  | O => None
  | S fuel' =>
      if (currentTime st <? dayEnd) && negb placed then
        match newDate (currentTime st + task_minutes task * 60000) with
        | Some taskEnd =>
            if dayEnd <? taskEnd then Some (inl (st, placed))
            else
              let taskBlock :=
                {| start := currentTime st; end_ := taskEnd; title := task_title task;
                   type_ := task_category task; minutes := task_minutes task |} in
              if negb (checkConflict taskBlock (blocks (plan st))) then
                whileLoop fuel' task dayEnd
                  {| plan :=
                       {| blocks := blocks (plan st) ++ [taskBlock];
                          result := result (plan st) ++ [taskSlot task taskBlock];
                          warnings := warnings (plan st) |};
                     currentTime := taskEnd |}
                  true
              else
                whileLoop fuel' task dayEnd
                  {| plan := plan st; currentTime := currentTime st + 15 * 60000 |}
                  placed
        | None =>
            (* [taskEnd] is an Invalid Date.  [taskEnd > dayEnd] is false: no
               break.  In [checkConflict] every [end1 > start2] of
               [hasOverlap] is false: no conflict.  The block is pushed, the
               end of its slot is [formatTime] of the Invalid Date, [placed]
               is true and the cursor is the Invalid Date: the loop ends. *)
            Some (inr {| stuck_plan :=
                           {| blocks := blocks (plan st);
                              result :=
                                result (plan st) ++ [endlessSlot task (currentTime st)];
                              warnings := warnings (plan st) |};
                         stuck_start := currentTime st;
                         stuck_task := task |})
        end
      else Some (inl (st, placed))
  end.

(** The body of [for (const task of tasksToPlace)] from a cursor that is a
    Date; the flag is [placed]. *)
Definition placeTask (fuel : nat) (dayEnd : Date) (st : Sweep) (task : Task)
    : option (Sweep * bool + Stuck) :=
  match whileLoop fuel task dayEnd st false with
  | None => None
  | Some (inl (st', placed)) =>
      if negb placed then
        Some (inl ({| plan :=
                        {| blocks := blocks (plan st'); result := result (plan st');
                           warnings := warnings (plan st') ++ [taskWarning task] |};
                      currentTime := currentTime st' |}, placed))
      else Some (inl (st', placed))
  | Some (inr stuck) => Some (inr stuck)
  end.

(** The body of the [for] loop once the cursor is the Invalid Date:
    [currentTime < dayEnd] is false, the [while] loop is not entered, [placed]
    stays false and the warning of the task is pushed. *)
Definition skipTask (stuck : Stuck) (task : Task) : Stuck :=
  {| stuck_plan :=
       {| blocks := blocks (stuck_plan stuck); result := result (stuck_plan stuck);
          warnings := warnings (stuck_plan stuck) ++ [taskWarning task] |};
     stuck_start := stuck_start stuck;
     stuck_task := stuck_task stuck |}.

Fixpoint placeTasks (fuel : nat) (dayEnd : Date) (st : Sweep)
    (tasksToPlace : list Task) : option (Sweep + Stuck) :=
  match tasksToPlace with
  | [] => Some (inl st)
  | task :: rest =>
      match placeTask fuel dayEnd st task with
      | None => None
      | Some (inl (st', _)) => placeTasks fuel dayEnd st' rest
      | Some (inr stuck) => Some (inr (fold_left skipTask rest stuck))
      end
  end.

(** The arrays at the end of the sweep; of a sweep that got stuck, [blocks]
    is the working set without its last block, the one that has the Invalid
    Date for its end. *)
Definition finalPlan (final : Sweep + Stuck) : Plan :=
  match final with
  | inl st => plan st
  | inr stuck => stuck_plan stuck
  end.

Definition deepTasks (tasks : list Task) : list Task :=
  filter (fun t => 45 <=? task_minutes t) tasks.

Definition lightTasks (tasks : list Task) : list Task :=
  filter (fun t => task_minutes t <? 45) tasks.

Definition tasksToPlace (tasks : list Task) : list Task :=
  deepTasks tasks ++ lightTasks tasks.

(** [result.sort((a, b) => a.start.localeCompare(b.start))].  The comparator
    [localeCompare] is the collation of the host, a parameter here.  The sort
    of the engine is stable and a collation is a consistent comparator, so
    the sorted array is the one that insertion in the order of the array
    gives. *)
Fixpoint insertSlot (localeCompare : string -> string -> Z) (x : TimeSlot)
    (sorted : list TimeSlot) : list TimeSlot :=
  match sorted with
  | [] => [x]
  | y :: rest =>
      if localeCompare (slot_start x) (slot_start y) <? 0 then x :: y :: rest
      else y :: insertSlot localeCompare x rest
  end.

Definition sortSlots (localeCompare : string -> string -> Z)
    (slots : list TimeSlot) : list TimeSlot :=
  fold_left (fun sorted x => insertSlot localeCompare x sorted) slots [].

(** ** The handler of POST /api/schedule/generate *)

Definition baseDateOf (now : Date) : Date := setHours now 0 0 0 0.

Definition planStartOf (now : Date) : Date :=
  let t0 := now in
  let planStartTime := t0 + 15 * 60000 in
  ceil15 planStartTime.

(** Steps 2 to 6: fixed events, reply windows, lunch, dinner, family time. *)
Definition placeFixedToFamily (fuel : nat) (now : Date)
    (fixedEvents : list FixedEvent) : option Plan :=
  let t0 := now in
  let baseDate := baseDateOf now in
  let planStart := planStartOf now in
  let st :=
    {| blocks := map (fixedBlock baseDate) fixedEvents;
       result := map fixedSlot fixedEvents;
       warnings := [] |} in
  let endOfDay := parseTime (clock "20:00") baseDate in
  match replyLoop fuel planStart endOfDay planStart st with
  | None => None
  | Some st =>
      let st := placeLunch t0 planStart baseDate st in
      let st := placeDinner baseDate st in
      Some (addFamily baseDate st)
  end.

(** Steps 2 to 8: the state in which the handler reaches its final sort.
    [tasks] is the answer of the query of step 7 (the pending tasks due today
    or undated, by priority and then by creation time). *)
Definition run (fuel : nat) (now : Date) (fixedEvents : list FixedEvent)
    (tasks : list Task) : option (Sweep + Stuck) :=
  match placeFixedToFamily fuel now fixedEvents with
  | None => None
  | Some st =>
      let dayEnd := parseTime (clock "20:00") (baseDateOf now) in
      placeTasks fuel dayEnd
        {| plan := st; currentTime := planStartOf now |}
        (tasksToPlace tasks)
  end.

Definition metadataOf (now : Date) : Metadata :=
  let t0 := now in
  let pressedHour := getHours t0 in
  let pressedMinute := getMinutes t0 in
  let lunchTime := t0 + 6 * 60 * 60000 in
  let lunchHour := getHours lunchTime in
  let lunchMinute := getMinutes lunchTime in
  {| meta_planStart := formatTime (planStartOf now);
     meta_pressedTime :=
       String.append (numberText pressedHour)
         (String.append "時" (String.append (numberText pressedMinute) "分"));
     meta_lunchPlannedTime :=
       String.append (numberText lunchHour)
         (String.append "時" (String.append (numberText lunchMinute) "分頃"));
     meta_pressedAt := (pressedHour, pressedMinute);
     meta_lunchPlanned := (lunchHour, lunchMinute) |}.

Definition generate (localeCompare : string -> string -> Z) (fuel : nat)
    (now : Date) (fixedEvents : list FixedEvent) (tasks : list Task)
    : option GenerationResult :=
  match run fuel now fixedEvents tasks with
  | None => None
  | Some final =>
      Some {| schedule := sortSlots localeCompare (result (finalPlan final));
              res_warnings := warnings (finalPlan final);
              metadata := metadataOf now |}
  end.

(** ** Notions used by the properties *)

(** Pairwise absence of overlap in a working set, with the overlap test of
    the code. *)
Fixpoint conflictFree (blocks : list ScheduleBlock) : bool :=
  match blocks with
  | [] => true
  | b :: rest => negb (checkConflict b rest) && conflictFree rest
  end.

(** The candidates of the slot finder in the order of the specification: the
    preferred start, six later starts, twelve earlier starts. *)
Definition slotCandidates (preferredStart : Date) : list Date :=
  [preferredStart;
   preferredStart + 15 * 60000; preferredStart + 30 * 60000;
   preferredStart + 45 * 60000; preferredStart + 60 * 60000;
   preferredStart + 75 * 60000; preferredStart + 90 * 60000;
   preferredStart - 15 * 60000; preferredStart - 30 * 60000;
   preferredStart - 45 * 60000; preferredStart - 60 * 60000;
   preferredStart - 75 * 60000; preferredStart - 90 * 60000;
   preferredStart - 105 * 60000; preferredStart - 120 * 60000;
   preferredStart - 135 * 60000; preferredStart - 150 * 60000;
   preferredStart - 165 * 60000; preferredStart - 180 * 60000].

(** The block a slot-finder candidate is tested as. *)
Definition testBlockAt (start0 duration : Z) : ScheduleBlock :=
  {| start := start0; end_ := start0 + duration * 60000; title := "test";
     type_ := "test"; minutes := duration |}.

(** The dinner candidates of the specification on the day of [baseDate]:
    21:00, 20:30, 21:30, 20:00, 22:00, 23:00. *)
Definition dinnerTimes (baseDate : Date) : list Date :=
  let midnight := Day baseDate * msPerDay in
  [midnight + 21 * msPerHour;
   midnight + 20 * msPerHour + 30 * msPerMinute;
   midnight + 21 * msPerHour + 30 * msPerMinute;
   midnight + 20 * msPerHour;
   midnight + 22 * msPerHour;
   midnight + 23 * msPerHour].

Definition dinnerBlockAt (start0 : Date) : ScheduleBlock :=
  {| start := start0; end_ := start0 + 60 * 60000; title := "dinner";
     type_ := "dinner"; minutes := 60 |}.

(** The block the sweep tests for [task] at the cursor value [start0], when
    the end of the block is a Date. *)
Definition taskBlockAt (task : Task) (start0 : Date) : ScheduleBlock :=
  {| start := start0; end_ := start0 + task_minutes task * 60000;
     title := task_title task; type_ := task_category task;
     minutes := task_minutes task |}.

(** [Scanned task dayEnd W c0 k]: from the cursor value [c0] the sweep tested
    [k] candidate starts, 15 minutes apart, each inside the day, with a Date
    for the end of its block, and each in conflict with the working set
    [W]. *)
Definition Scanned (task : Task) (dayEnd : Date) (W : list ScheduleBlock)
    (c0 : Date) (k : nat) : Prop :=
  forall j : nat, (j < k)%nat ->
    let cj := c0 + Z.of_nat j * (15 * 60000) in
    cj < dayEnd /\ end_ (taskBlockAt task cj) <= dayEnd /\
    newDate (end_ (taskBlockAt task cj)) = Some (end_ (taskBlockAt task cj)) /\
    checkConflict (taskBlockAt task cj) W = true.

(** What the sweep did with one task while its cursor was a Date: the cursor
    before and after, and the block it committed, if any. *)
Record Step : Type := {
  step_task : Task;
  step_before : Date;
  step_block : option ScheduleBlock;
  step_after : Date
}.

(** The end of a sweep that got stuck: the task that was placed with an
    Invalid Date for the end of its block, the start of that block, and the
    tasks that came after it. *)
Record Overrun : Type := {
  over_task : Task;
  over_start : Date;
  over_rest : list Task
}.

(** What the sweep did: its steps while the cursor was a Date and, if it got
    stuck, how. *)
Record Trace : Type := {
  trace_steps : list Step;
  trace_overrun : option Overrun
}.

Fixpoint sweepTrace (fuel : nat) (dayEnd : Date) (st : Sweep)
    (tasks : list Task) : option Trace :=
  match tasks with
  | [] => Some {| trace_steps := []; trace_overrun := None |}
  | task :: rest =>
      match placeTask fuel dayEnd st task with
      | None => None
      | Some (inl (st', placed)) =>
          match sweepTrace fuel dayEnd st' rest with
          | None => None
          | Some trace =>
              Some {| trace_steps :=
                        {| step_task := task;
                           step_before := currentTime st;
                           step_block :=
                             if placed then last (map Some (blocks (plan st'))) None
                             else None;
                           step_after := currentTime st' |} :: trace_steps trace;
                      trace_overrun := trace_overrun trace |}
          end
      | Some (inr stuck) =>
          Some {| trace_steps := [];
                  trace_overrun :=
                    Some {| over_task := task; over_start := stuck_start stuck;
                            over_rest := rest |} |}
      end
  end.

(** The trace of the backlog sweep of one run of the handler. *)
Definition runTrace (fuel : nat) (now : Date) (fixedEvents : list FixedEvent)
    (tasks : list Task) : option Trace :=
  match placeFixedToFamily fuel now fixedEvents with
  | None => None
  | Some st =>
      sweepTrace fuel (parseTime (clock "20:00") (baseDateOf now))
        {| plan := st; currentTime := planStartOf now |}
        (tasksToPlace tasks)
  end.

(** The tasks of a trace, in the order of the sweep. *)
Definition traceTasks (trace : Trace) : list Task :=
  map step_task (trace_steps trace) ++
  match trace_overrun trace with
  | Some over => over_task over :: over_rest over
  | None => []
  end.

(** The position in [tasksToPlace tasks] of the task at position [i] of
    [tasks]. *)
Definition sweepIndex (tasks : list Task) (i : nat) : nat :=
  match nth_error tasks i with
  | Some t =>
      if 45 <=? task_minutes t then List.length (deepTasks (firstn i tasks))
      else (List.length (deepTasks tasks) + List.length (lightTasks (firstn i tasks)))%nat
  | None => List.length tasks
  end.

(** The start of the block that a trace has for the task at position [k] of
    the sweep: the block of a step, or the block the sweep got stuck with. *)
Definition traceStart (trace : Trace) (k : nat) : option Date :=
  match nth_error (trace_steps trace) k with
  | Some step => option_map start (step_block step)
  | None =>
      match trace_overrun trace with
      | Some over =>
          if Nat.eqb k (List.length (trace_steps trace)) then Some (over_start over)
          else None
      | None => None
      end
  end.

(** The start of the block one run places for the task at position [i] of
    the backlog, whether the end of the block is a Date or not. *)
Definition placedStartOf (fuel : nat) (now : Date) (fixedEvents : list FixedEvent)
    (tasks : list Task) (i : nat) : option Date :=
  match runTrace fuel now fixedEvents tasks with
  | Some trace => traceStart trace (sweepIndex tasks i)
  | None => None
  end.

(** The cursor after the steps of a trace that started at [c]. *)
Fixpoint lastCursor (c : Date) (steps : list Step) : Date :=
  match steps with
  | [] => c
  | s :: rest => lastCursor (step_after s) rest
  end.

(** The shape of one step: the cursor moved over some number of quarter
    hours; then either the task was given up and the cursor stayed there, or
    the task's block was committed there and the cursor went to its end. *)
Definition StepShape (dayEnd : Date) (s : Step) : Prop :=
  exists k : nat,
    let c := step_before s + Z.of_nat k * (15 * 60000) in
    match step_block s with
    | None => step_after s = c
    | Some b =>
        b = taskBlockAt (step_task s) c /\ step_after s = end_ b /\
        end_ b <= dayEnd
    end.

(** Each step starts where the step before it left the cursor. *)
Fixpoint Chained (c : Date) (steps : list Step) : Prop :=
  match steps with
  | [] => True
  | s :: rest => step_before s = c /\ Chained (step_after s) rest
  end.

(** The blocks, the slots and the warnings of a trace. *)
Definition placedBlocks (steps : list Step) : list ScheduleBlock :=
  flat_map (fun s => match step_block s with Some b => [b] | None => [] end) steps.

Definition placedSlots (steps : list Step) : list TimeSlot :=
  flat_map
    (fun s =>
       match step_block s with
       | Some b => [taskSlot (step_task s) b]
       | None => []
       end)
    steps.

Definition unplacedTasks (steps : list Step) : list Task :=
  map step_task
    (filter (fun s => match step_block s with Some _ => false | None => true end)
       steps).

Definition traceSlots (trace : Trace) : list TimeSlot :=
  placedSlots (trace_steps trace) ++
  match trace_overrun trace with
  | Some over => [endlessSlot (over_task over) (over_start over)]
  | None => []
  end.

Definition traceWarnings (trace : Trace) : list string :=
  map taskWarning (unplacedTasks (trace_steps trace)) ++
  match trace_overrun trace with
  | Some over => map taskWarning (over_rest over)
  | None => []
  end.

(** A comparator for the examples: the order of the characters. *)
Definition characterOrder (a b : string) : Z :=
  match String.compare a b with
  | Lt => -1
  | Eq => 0
  | Gt => 1
  end.

(** A backlog entry for the examples. *)
Definition exampleTask (name : string) (mins : Z) (priority : string) : Task :=
  {| task_id := name; task_title := name; task_category := "now";
     task_minutes := mins; task_status := "todo";
     task_created_at := "2024-01-01T00:00:00.000Z"; task_due_date := None;
     task_priority := Some priority |}.

(** [Committed P W W']: the working set [W'] is [W] with blocks pushed one at
    a time, each one satisfying [P] and free of conflict with the working
    set it was pushed to. *)
Inductive Committed (P : ScheduleBlock -> Prop) (W : list ScheduleBlock)
    : list ScheduleBlock -> Prop :=
| Committed_none : Committed P W W
| Committed_push (W' : list ScheduleBlock) (b : ScheduleBlock) :
    Committed P W W' -> checkConflict b W' = false -> P b ->
    Committed P W (W' ++ [b]).

(** The blocks the handler pushes after the fixed events: reply windows,
    lunch, dinner, and the blocks of backlog tasks. *)
Definition PlacedKind (tasks : list Task) (b : ScheduleBlock) : Prop :=
  type_ b = "reply" \/ type_ b = "lunch" \/ type_ b = "dinner" \/
  exists t c, In t tasks /\ b = taskBlockAt t c.

(** The family-time slot as the response carries it. *)
Definition familySlotOut : TimeSlot :=
  {| slot_start := "20:00"; slot_end := "00:00"; slot_title := "家族時間";
     slot_type := "family"; slot_color := "#8b5cf6" |}.

(** The slot of a placement that may have failed, and the warning of the
    failure. *)
Definition slotOf (placed : option TimeSlot) : list TimeSlot :=
  match placed with
  | Some slot => [slot]
  | None => []
  end.

Definition warningOf (placed : option TimeSlot) (warning : string) : list string :=
  match placed with
  | Some _ => []
  | None => [warning]
  end.

(** The slot of a reply window that starts at [start0]. *)
Definition replySlotAt (start0 : Date) : TimeSlot :=
  {| slot_start := formatTime start0;
     slot_end := formatTime (start0 + 15 * 60000);
     slot_title := "返信枠"; slot_type := "reply"; slot_color := "#3b82f6" |}.

(** The reply block the reply loop forms at the time [start0]. *)
Definition replyBlockAt (start0 : Date) : ScheduleBlock :=
  {| start := start0; end_ := start0 + 15 * 60000; title := "返信枠";
     type_ := "reply"; minutes := 15 |}.

(** The slots and the warnings of a list of backlog tasks, each with the
    slot it was given, if any. *)
Definition outcomeSlots (outcomes : list (Task * option TimeSlot)) : list TimeSlot :=
  flat_map (fun o => slotOf (snd o)) outcomes.

Definition outcomeWarnings (outcomes : list (Task * option TimeSlot))
    : list string :=
  flat_map (fun o => warningOf (snd o) (taskWarning (fst o))) outcomes.



(** ** Notions used by the further properties of the scheduler *)

(** A reply window as the reply loop pushes it. *)
Definition ReplyShape (planStart endOfDay : Date) (b : ScheduleBlock) : Prop :=
  type_ b = "reply" /\ minutes b = 15 /\ end_ b = start b + 15 * 60000 /\
  planStart <= start b < endOfDay.


(** The order of the final sort. *)
Definition startNotAfter (localeCompare : string -> string -> Z)
    (a b : TimeSlot) : Prop :=
  localeCompare (slot_start a) (slot_start b) <= 0.

(** The dinner block as the handler commits it at [start0]. *)
Definition dinnerBlockAt' (start0 : Date) : ScheduleBlock :=
  {| start := start0; end_ := start0 + 60 * 60000; title := "夜ご飯";
     type_ := "dinner"; minutes := 60 |}.

(** * Other handlers of src/index.tsx *)

(** ** HTML escaping in the OAuth callback *)

(** [s.replace(/c/g, by)] for a one-character pattern. *)
Fixpoint replaceAll (c : ascii) (by_ : string) (s : string) : string :=
  match s with
  | EmptyString => EmptyString
  | String a rest =>
      if Ascii.eqb a c then String.append by_ (replaceAll c by_ rest)
      else String a (replaceAll c by_ rest)
  end.

(** The double quote character. *)
Definition quoteChar : ascii := ascii_of_nat 34.

(** [String(oauthError).replace(/&/g, '&amp;').replace(/</g, '&lt;')
    .replace(/>/g, '&gt;')] and then the same for the double quote and
    '&quot;': the text the callback puts into its error pages. *)
Definition escapeHtml (text : string) : string :=
  replaceAll quoteChar "&quot;"
    (replaceAll ">" "&gt;" (replaceAll "<" "&lt;" (replaceAll "&" "&amp;" text))).

(** What one pass over the text would write for one character. *)
Definition escapeChar (c : ascii) : string :=
  if Ascii.eqb c "&" then "&amp;"
  else if Ascii.eqb c "<" then "&lt;"
  else if Ascii.eqb c ">" then "&gt;"
  else if Ascii.eqb c quoteChar then "&quot;"
  else String c EmptyString.

Fixpoint escapeEach (text : string) : string :=
  match text with
  | EmptyString => EmptyString
  | String c rest => String.append (escapeChar c) (escapeEach rest)
  end.

(** ** The tasks table *)

(** The table [tasks] is the list of its rows; [id] is its primary key. *)
Definition TasksTable := list Task.

Definition withStatus (t : Task) (newStatus : string) : Task :=
  {| task_id := task_id t; task_title := task_title t;
     task_category := task_category t; task_minutes := task_minutes t;
     task_status := newStatus; task_created_at := task_created_at t;
     task_due_date := task_due_date t; task_priority := task_priority t |}.

(** [SELECT ... FROM tasks WHERE id = ?] *)
Definition selectById (id : string) (db : TasksTable) : list Task :=
  filter (fun t => String.eqb (task_id t) id) db.

(** [UPDATE tasks SET status = ? WHERE id = ?] *)
Definition updateStatusById (newStatus id : string) (db : TasksTable) : TasksTable :=
  map (fun t => if String.eqb (task_id t) id then withStatus t newStatus else t) db.

(** The reply of a toggle: 404 with an error, or 200 with the new status. *)
Inductive ToggleReply : Type :=
| ToggleNotFound
| ToggleStatus (newStatus : string).

(** POST /api/tasks/:id/toggle *)
Definition toggleTask (id : string) (db : TasksTable) : ToggleReply * TasksTable :=
  let results := selectById id db in
  match results with
  | [] => (ToggleNotFound, db)
  | row :: _ =>
      let currentStatus := task_status row in
      let newStatus := if String.eqb currentStatus "done" then "todo" else "done" in
      (ToggleStatus newStatus, updateStatusById newStatus id db)
  end.

(** DELETE /api/tasks/:id, a soft delete; the reply is always
    [{ success: true }]. *)
Definition deleteTask (id : string) (db : TasksTable) : TasksTable :=
  updateStatusById "deleted" id db.

(** GET /api/tasks/:id: the row, or 404. *)
Definition getTask (id : string) (db : TasksTable) : option Task :=
  match selectById id db with
  | [] => None
  | row :: _ => Some row
  end.

(** ** Task statistics *)

Record StatsRow : Type := {
  row_category : string;
  row_status : string;
  row_due_date : option string
}.

Record CategoryCounts : Type := {
  count_future : nat;
  count_now : nat;
  count_maintain : nat;
  count_chore : nat
}.

Record StatsReply : Type := {
  stats_total : nat;
  stats_todo : nat;
  stats_done : nat;
  stats_overdue : nat;
  stats_completionRate : Z;
  stats_byCategory : CategoryCounts
}.

(** [t.due_date && t.due_date < today]: a due date that is set, not empty and
    before today in the order of the characters. *)
Definition dueBefore (today : string) (t : StatsRow) : bool :=
  match row_due_date t with
  | Some d => negb (String.eqb d "") && String.ltb d today
  | None => false
  end.

Section Stats.
(** [Math.round((done / total) * 100)], a floating-point expression. *)
Variable roundPercent : nat -> nat -> Z.

(** GET /api/tasks/stats on the rows whose status is not 'deleted'. *)
Definition taskStats (today : string) (tasks : list StatsRow) : StatsReply :=
  let total := List.length tasks in
  let done := List.length (filter (fun t => String.eqb (row_status t) "done") tasks) in
  let todo := List.length (filter (fun t => String.eqb (row_status t) "todo") tasks) in
  let overdue :=
    List.length
      (filter (fun t => String.eqb (row_status t) "todo" && dueBefore today t) tasks) in
  let completionRate := if (0 <? total)%nat then roundPercent done total else 0 in
  let byCategory :=
    {| count_future :=
         List.length (filter (fun t => String.eqb (row_category t) "future") tasks);
       count_now :=
         List.length (filter (fun t => String.eqb (row_category t) "now") tasks);
       count_maintain :=
         List.length (filter (fun t => String.eqb (row_category t) "maintain") tasks);
       count_chore :=
         List.length (filter (fun t => String.eqb (row_category t) "chore") tasks) |} in
  {| stats_total := total; stats_todo := todo; stats_done := done;
     stats_overdue := overdue; stats_completionRate := completionRate;
     stats_byCategory := byCategory |}.
End Stats.

(** ** Conversion of calendar events to tasks *)

(** An entry of [body.events]: [summary], [start.dateTime] and [start.date],
    each one possibly missing. *)
Record CalendarEvent : Type := {
  ce_summary : option string;
  ce_dateTime : option string;
  ce_date : option string
}.

(** Truthiness of a string that may be missing. *)
Definition truthy (s : option string) : bool :=
  match s with
  | Some text => negb (String.eqb text "")
  | None => false
  end.

(** [a || b] on strings that may be missing. *)
Definition orElse (a b : option string) : option string :=
  if truthy a then a else b.

Definition orDefault (a : option string) (default : string) : string :=
  match orElse a (Some default) with
  | Some text => text
  | None => default
  end.

(** The answers of POST /api/calendar/convert-all: the counts, or the
    status 500 that follows an exception. *)
Inductive ConvertReply : Type :=
  | Converted (created skipped : nat)
  | ConvertFailed.

Section ConvertAll.
(** [new Date(startRaw).toISOString().split('T')[0]]; [None] when the Date is
    an Invalid Date: [toISOString] then throws a RangeError. *)
Variable isoDay : string -> option string.
(** The results of the calls of [uuidv4()] and of [new Date().toISOString()],
    by the number of rows inserted before.  The identifiers are fresh: no
    INSERT is refused for its primary key. *)
Variable uuidAt : nat -> string.
Variable clockAt : nat -> string.

Definition eventSummary (event : CalendarEvent) : string :=
  orDefault (ce_summary event) "Untitled Event".

(** [dueDate]: a day, null ([Some None]), or nothing when [toISOString]
    throws. *)
Definition eventDueDate (event : CalendarEvent) : option (option string) :=
  let startRaw := orElse (ce_dateTime event) (ce_date event) in
  match startRaw with
  | Some raw =>
      if truthy startRaw then
        match isoDay raw with
        | Some day => Some (Some day)
        | None => None
        end
      else Some None
  | None => Some None
  end.

(** The duplicate check: [SELECT id FROM tasks WHERE title = ? AND due_date = ?
    AND status != ? LIMIT 1], or with [due_date IS NULL] when there is no due
    date; the answer is not empty. *)
Definition alreadyThere (summary : string) (dueDate : option string)
    (db : TasksTable) : bool :=
  existsb
    (fun t =>
       String.eqb (task_title t) summary
       && (if truthy dueDate
           then match task_due_date t, dueDate with
                | Some d, Some d' => String.eqb d d'
                | _, _ => false
                end
           else match task_due_date t with
                | None => true
                | Some _ => false
                end)
       && negb (String.eqb (task_status t) "deleted"))
    db.

Definition convertedTask (n : nat) (summary : string) (dueDate : option string)
    : Task :=
  {| task_id := uuidAt n; task_title := summary; task_category := "now";
     task_minutes := 60; task_status := "todo"; task_created_at := clockAt n;
     task_due_date := dueDate; task_priority := Some "medium" |}.

(** The loop of POST /api/calendar/convert-all.  The exception of an event
    whose start is no date ends the loop and the handler: the rows inserted
    before it stay. *)
Fixpoint convertLoop (events : list CalendarEvent) (db : TasksTable)
    (created skipped : nat) : TasksTable * ConvertReply :=
  match events with
  | [] => (db, Converted created skipped)
  | event :: rest =>
      let summary := eventSummary event in
      match eventDueDate event with
      | None => (db, ConvertFailed)
      | Some dueDate =>
          if alreadyThere summary dueDate db then
            convertLoop rest db created (skipped + 1)
          else
            convertLoop rest (db ++ [convertedTask created summary dueDate])
              (created + 1) skipped
      end
  end.

(** The event is one that the duplicate check finds in the table. *)
Definition foundIn (db : TasksTable) (event : CalendarEvent) : Prop :=
  exists dueDate,
    eventDueDate event = Some dueDate /\
    alreadyThere (eventSummary event) dueDate db = true.

(** POST /api/calendar/convert-all: the table after it, and the reply. *)
Definition convertAll (events : list CalendarEvent) (db : TasksTable)
    : TasksTable * ConvertReply :=
  match events with
  | [] => (db, Converted 0 0)
  | _ => convertLoop events db 0 0
  end.
End ConvertAll.

(** A row as the conversion inserts it. *)
Definition ConvertedRow (t : Task) : Prop :=
  task_status t = "todo" /\ task_category t = "now" /\ task_minutes t = 60 /\
  task_priority t = Some "medium".

(** ** The stored OAuth token *)

Record OAuthToken : Type := {
  tok_access_token : string;
  tok_refresh_token : option string;
  tok_expiry_at : Z;
  tok_scope : option string;
  tok_token_type : option string
}.

(** The table [oauth_tokens] holds at most the row of id 1. *)
Record OAuthRow : Type := {
  row_token : OAuthToken;
  row_updated_at : string
}.

Definition OAuthTable := option OAuthRow.

(** The part of the environment the OAuth functions read. *)
Record OAuthEnv : Type := {
  GOOGLE_OAUTH_CLIENT_ID : option string;
  GOOGLE_OAUTH_CLIENT_SECRET : option string;
  GOOGLE_CALENDAR_ID : option string;
  GOOGLE_CALENDAR_API_KEY : option string
}.

(** The JSON answer of the token endpoint. *)
Record TokenData : Type := {
  td_access_token : option string;
  td_refresh_token : option string;
  td_expires_in : option Z;
  td_scope : option string;
  td_token_type : option string
}.

Definition getStoredOAuthToken (db : OAuthTable) : option OAuthToken :=
  option_map row_token db.

(** [x || null] *)
Definition orNull (x : option string) : option string :=
  if truthy x then x else None.

(** [saveOAuthToken]: insert the row of id 1, or overwrite it; [nowIso] is
    [new Date().toISOString()]. *)
Definition saveOAuthToken (nowIso : string) (token : OAuthToken) (db : OAuthTable)
    : OAuthTable :=
  Some {| row_token :=
            {| tok_access_token := tok_access_token token;
               tok_refresh_token := orNull (tok_refresh_token token);
               tok_expiry_at := tok_expiry_at token;
               tok_scope := orNull (tok_scope token);
               tok_token_type := Some (orDefault (tok_token_type token) "Bearer") |};
          row_updated_at := nowIso |}.

Definition isOAuthConfigured (env : OAuthEnv) : bool :=
  truthy (GOOGLE_OAUTH_CLIENT_ID env) && truthy (GOOGLE_OAUTH_CLIENT_SECRET env)
  && truthy (GOOGLE_CALENDAR_ID env).

(** A number that may be missing is truthy when it is there and not 0. *)
Definition truthyNumber (n : option Z) : bool :=
  match n with
  | Some k => negb (k =? 0)
  | None => false
  end.

(** [refreshGoogleAccessToken]: [nowMs] is [Date.now()], [response] the
    answer of the token endpoint to the one request the function makes,
    [None] when it is not ok.  The result is the access token or null, and
    the table. *)
Definition refreshGoogleAccessToken (env : OAuthEnv) (nowMs : Z) (nowIso : string)
    (response : option TokenData) (db : OAuthTable) : option string * OAuthTable :=
  match getStoredOAuthToken db with
  | None => (None, db)
  | Some token =>
      if negb (truthy (tok_refresh_token token))
         || negb (truthy (GOOGLE_OAUTH_CLIENT_ID env))
         || negb (truthy (GOOGLE_OAUTH_CLIENT_SECRET env))
      then (None, db)
      else
        match response with
        | None => (None, db)
        | Some data =>
            match td_access_token data, td_expires_in data with
            | Some access, Some expires_in =>
                if negb (truthy (Some access)) || negb (truthyNumber (Some expires_in))
                then (None, db)
                else
                  let refreshed :=
                    {| tok_access_token := access;
                       tok_refresh_token := tok_refresh_token token;
                       tok_expiry_at := nowMs + expires_in * 1000;
                       tok_scope := orElse (td_scope data) (tok_scope token);
                       tok_token_type :=
                         Some (orDefault (td_token_type data) "Bearer") |} in
                  (Some (tok_access_token refreshed),
                   saveOAuthToken nowIso refreshed db)
            | _, _ => (None, db)
            end
        end
  end.

(** [getGoogleAccessToken]: [nowMs] is its own reading of [Date.now()],
    [refreshMs] the later one of the refresh. *)
Definition getGoogleAccessToken (env : OAuthEnv) (nowMs refreshMs : Z)
    (nowIso : string) (response : option TokenData) (db : OAuthTable)
    : option string * OAuthTable :=
  match getStoredOAuthToken db with
  | None => (None, db)
  | Some token =>
      let earlyRefreshMargin := 60 * 1000 in
      if nowMs <? tok_expiry_at token - earlyRefreshMargin
      then (Some (tok_access_token token), db)
      else refreshGoogleAccessToken env refreshMs nowIso response db
  end.

(** ** The filter of the task listing *)

(** The query parameters of GET /api/tasks; [tq_q] is the search text after
    [trim]. *)
Record TaskQuery : Type := {
  tq_q : string;
  tq_status : option string;
  tq_category : option string;
  tq_priority : option string;
  tq_due : option string
}.

(** [[...].includes(x)] *)
Definition includes (xs : list string) (x : string) : bool :=
  existsb (fun y => String.eqb y x) xs.

(** [whereClauses] and [values] as the handler builds them; [today] is the
    day of [new Date().toISOString()]. *)
Definition taskFilter (today : string) (query : TaskQuery)
    : list string * list string :=
  let q := tq_q query in
  let status := orDefault (tq_status query) "all" in
  let category := orDefault (tq_category query) "all" in
  let priority := orDefault (tq_priority query) "all" in
  let due := orDefault (tq_due query) "all" in
  let whereClauses := ["status != ?"] in
  let values := ["deleted"] in
  let '(whereClauses, values) :=
    if negb (String.eqb q "")
    then (whereClauses ++ ["title LIKE ?"],
          values ++ [String.append "%" (String.append q "%")])
    else (whereClauses, values) in
  let '(whereClauses, values) :=
    if String.eqb status "todo" || String.eqb status "done"
    then (whereClauses ++ ["status = ?"], values ++ [status])
    else (whereClauses, values) in
  let '(whereClauses, values) :=
    if includes ["future"; "now"; "maintain"; "chore"] category
    then (whereClauses ++ ["category = ?"], values ++ [category])
    else (whereClauses, values) in
  let '(whereClauses, values) :=
    if includes ["high"; "medium"; "low"] priority
    then (whereClauses ++ ["priority = ?"], values ++ [priority])
    else (whereClauses, values) in
  if String.eqb due "overdue"
  then (whereClauses ++ ["due_date IS NOT NULL AND due_date < ?"], values ++ [today])
  else if String.eqb due "today"
  then (whereClauses ++ ["due_date = ?"], values ++ [today])
  else if String.eqb due "three_days"
  then (whereClauses
          ++ ["due_date IS NOT NULL AND due_date BETWEEN ? AND date(?, '+3 day')"],
        values ++ [today; today])
  else if String.eqb due "week"
  then (whereClauses
          ++ ["due_date IS NOT NULL AND due_date BETWEEN ? AND date(?, '+7 day')"],
        values ++ [today; today])
  else if String.eqb due "none"
  then (whereClauses ++ ["due_date IS NULL"], values)
  else (whereClauses, values).

(** [whereClauses.join(' AND ')] *)
Fixpoint joinAnd (clauses : list string) : string :=
  match clauses with
  | [] => EmptyString
  | [c] => c
  | c :: rest => String.append c (String.append " AND " (joinAnd rest))
  end.

(** The number of [?] placeholders of a piece of SQL. *)
Fixpoint placeholders (sql : string) : nat :=
  match sql with
  | EmptyString => O
  | String c rest =>
      if Ascii.eqb c "?" then S (placeholders rest) else placeholders rest
  end.

(** The conditions the listing can use. *)
Definition knownClauses : list string :=
  ["status != ?"; "title LIKE ?"; "status = ?"; "category = ?"; "priority = ?";
   "due_date IS NOT NULL AND due_date < ?"; "due_date = ?";
   "due_date IS NOT NULL AND due_date BETWEEN ? AND date(?, '+3 day')";
   "due_date IS NOT NULL AND due_date BETWEEN ? AND date(?, '+7 day')";
   "due_date IS NULL"].

(** The words a bound value of the listing can be, besides the search
    pattern and the day of today. *)
Definition filterWords : list string :=
  ["deleted"; "todo"; "done"; "future"; "now"; "maintain"; "chore";
   "high"; "medium"; "low"].


(** ** The OAuth callback and the disconnection *)

(** The answers of GET /api/calendar/oauth/callback: the four pages of
    status 400, with the text they show where they show one, and the
    redirection to [/?oauth=success]. *)
Inductive CallbackReply : Type :=
  | OAuthFailed (safeError : string)
  | MissingCodeOrConfig
  | ExchangeFailed (safeErrorData : string)
  | InvalidTokenResponse
  | OAuthSuccess.

(** The callback: [code] and [oauthError] are the query parameters,
    [response] the answer of the token endpoint, its text when it is not ok
    and its JSON when it is. *)
Definition oauthCallback (env : OAuthEnv) (code oauthError : option string)
    (nowMs : Z) (nowIso : string) (response : string + TokenData)
    (db : OAuthTable) : CallbackReply * OAuthTable :=
  match (if truthy oauthError then oauthError else None) with
  | Some error => (OAuthFailed (escapeHtml error), db)
  | None =>
      if negb (truthy code)
         || negb (truthy (GOOGLE_OAUTH_CLIENT_ID env))
         || negb (truthy (GOOGLE_OAUTH_CLIENT_SECRET env))
      then (MissingCodeOrConfig, db)
      else
        match response with
        | inl errorData => (ExchangeFailed (escapeHtml errorData), db)
        | inr data =>
            let existing := getStoredOAuthToken db in
            let refreshToken :=
              orElse (td_refresh_token data)
                (match existing with
                 | Some token => tok_refresh_token token
                 | None => None
                 end) in
            match td_access_token data, td_expires_in data with
            | Some access, Some expires_in =>
                if negb (truthy (Some access)) || negb (truthy refreshToken)
                   || negb (truthyNumber (Some expires_in))
                then (InvalidTokenResponse, db)
                else
                  (OAuthSuccess,
                   saveOAuthToken nowIso
                     {| tok_access_token := access;
                        tok_refresh_token := refreshToken;
                        tok_expiry_at := nowMs + expires_in * 1000;
                        tok_scope := td_scope data;
                        tok_token_type :=
                          Some (orDefault (td_token_type data) "Bearer") |}
                     db)
            | _, _ => (InvalidTokenResponse, db)
            end
        end
  end.

(** POST /api/calendar/oauth/disconnect: [DELETE FROM oauth_tokens WHERE id = 1]. *)
Definition disconnect (db : OAuthTable) : OAuthTable := None.

(** The calls that read or write the table [oauth_tokens], and a history of
    them from the empty table on. *)
Inductive OAuthCall : Type :=
  | CallCallback (env : OAuthEnv) (code oauthError : option string)
      (nowMs : Z) (nowIso : string) (response : string + TokenData)
  | CallAccessToken (env : OAuthEnv) (nowMs refreshMs : Z) (nowIso : string)
      (response : option TokenData)
  | CallDisconnect.

Definition oauthStep (db : OAuthTable) (call : OAuthCall) : OAuthTable :=
  match call with
  | CallCallback env code oauthError nowMs nowIso response =>
      snd (oauthCallback env code oauthError nowMs nowIso response db)
  | CallAccessToken env nowMs refreshMs nowIso response =>
      snd (getGoogleAccessToken env nowMs refreshMs nowIso response db)
  | CallDisconnect => disconnect db
  end.

Definition oauthHistory (calls : list OAuthCall) : OAuthTable :=
  fold_left oauthStep calls None.

(** A table whose token, if it has one, can be refreshed and names its type. *)
Definition refreshable (db : OAuthTable) : Prop :=
  forall token, getStoredOAuthToken db = Some token ->
    truthy (tok_refresh_token token) = true /\
    truthy (tok_token_type token) = true.


(** * Properties *)

(** ** Date arithmetic *)

Lemma date_fields (t : Date) :
  MakeDate (Day t)
    (MakeTime (getHours t) (getMinutes t) (getSeconds t) (getMilliseconds t)) = t.
Proof.
  unfold MakeDate, MakeTime, Day, getHours, getMinutes, getSeconds,
    getMilliseconds, msPerDay, msPerHour, msPerMinute, msPerSecond.
  Z.div_mod_to_equations. lia.
Qed.

Lemma setMinutes_eq (t m : Z) :
  setMinutes t m = t + (m - getMinutes t) * msPerMinute.
Proof.
  unfold setMinutes. rewrite <- (date_fields t) at 5.
  unfold MakeDate, MakeTime. lia.
Qed.

Lemma setSeconds_eq (t s : Z) :
  setSeconds t s = t + (s - getSeconds t) * msPerSecond.
Proof.
  unfold setSeconds. rewrite <- (date_fields t) at 5.
  unfold MakeDate, MakeTime. lia.
Qed.

Lemma setMilliseconds_eq (t ms : Z) :
  setMilliseconds t ms = t + (ms - getMilliseconds t).
Proof.
  unfold setMilliseconds. rewrite <- (date_fields t) at 5.
  unfold MakeDate, MakeTime. lia.
Qed.

Lemma getHours_range (t : Z) : 0 <= getHours t < 24.
Proof. unfold getHours. apply Z.mod_pos_bound. lia. Qed.

Lemma getMinutes_range (t : Z) : 0 <= getMinutes t < 60.
Proof. unfold getMinutes. apply Z.mod_pos_bound. lia. Qed.

(** A clock time set on a day reads back as that clock time. *)
Lemma setHours_fields (t h m : Z) :
  0 <= h < 24 -> 0 <= m < 60 ->
  getHours (setHours t h m 0 0) = h /\ getMinutes (setHours t h m 0 0) = m /\
  Day (setHours t h m 0 0) = Day t.
Proof.
  intros Hh Hm.
  unfold getHours, getMinutes, setHours, MakeDate, MakeTime, Day, msPerDay,
    msPerHour, msPerMinute, msPerSecond.
  repeat split; Z.div_mod_to_equations; lia.
Qed.

(** ** ceil15 *)

(** Off a quarter-hour minute, [ceil15] is the next multiple of 15 minutes;
    on one, it is the identity, whatever the seconds are. *)
Lemma ceil15_closed (t : Date) :
  ceil15 t =
  if getMinutes t mod 15 =? 0 then t else (t / 900000 + 1) * 900000.
Proof.
  unfold ceil15. cbv zeta.
  rewrite Z.rem_mod_nonneg by (pose proof (getMinutes_range t); lia).
  destruct (getMinutes t mod 15 =? 0) eqn:E; [reflexivity|].
  apply Z.eqb_neq in E.
  rewrite setMilliseconds_eq, setSeconds_eq, setMinutes_eq.
  set (u := t + (getMinutes t + (15 - getMinutes t mod 15) - getMinutes t) * msPerMinute).
  assert (Hu : u = (t / 60000 / 15 + 1) * 900000 + t mod 60000).
  { subst u. unfold getMinutes, msPerMinute in *. Z.div_mod_to_equations. lia. }
  assert (Hs : getSeconds u * msPerSecond
               + getMilliseconds (u + (0 - getSeconds u) * msPerSecond)
               = t mod 60000).
  { rewrite Hu. unfold getSeconds, getMilliseconds, msPerSecond.
    Z.div_mod_to_equations. lia. }
  rewrite Hu in *.
  transitivity ((t / 60000 / 15 + 1) * 900000); [lia|].
  f_equal. f_equal. Z.div_mod_to_equations. lia.
Qed.

Lemma ceil15_bounds (t : Date) : t <= ceil15 t < t + 15 * 60000.
Proof.
  rewrite ceil15_closed.
  destruct (getMinutes t mod 15 =? 0) eqn:E; [lia|].
  apply Z.eqb_neq in E. unfold getMinutes, msPerMinute in E.
  Z.div_mod_to_equations. lia.
Qed.

Lemma ceil15_quarter_minute (t : Date) : getMinutes (ceil15 t) mod 15 = 0.
Proof.
  rewrite ceil15_closed.
  destruct (getMinutes t mod 15 =? 0) eqn:E.
  - now apply Z.eqb_eq in E.
  - unfold getMinutes, msPerMinute.
    replace ((t / 900000 + 1) * 900000) with ((t / 900000 + 1) * 15 * 60000) by lia.
    rewrite Z.div_mul by lia.
    generalize (t / 900000 + 1). intro q. Z.div_mod_to_equations. lia.
Qed.

Lemma ceil15_idempotent (t : Date) : ceil15 (ceil15 t) = ceil15 t.
Proof.
  rewrite (ceil15_closed (ceil15 t)), ceil15_quarter_minute. reflexivity.
Qed.

(** On a timestamp with no seconds and no milliseconds [ceil15] is the least
    quarter-hour boundary at or after it. *)
Lemma ceil15_least_on_whole_minutes (t : Date) :
  t mod 60000 = 0 ->
  ceil15 t mod 900000 = 0 /\
  forall b, b mod 900000 = 0 -> t <= b -> ceil15 t <= b.
Proof.
  intro Hmin. rewrite ceil15_closed.
  destruct (getMinutes t mod 15 =? 0) eqn:E.
  - apply Z.eqb_eq in E. split; [|intros; lia].
    unfold getMinutes, msPerMinute in E. Z.div_mod_to_equations. lia.
  - split.
    + Z.div_mod_to_equations. lia.
    + intros b Hb Hle. apply Z.eqb_neq in E.
      unfold getMinutes, msPerMinute in E. Z.div_mod_to_equations. lia.
Qed.

(** C6. [ceil15] does not always return the least quarter-hour boundary at or
    after its argument: at 09:00:30 it returns 09:00:30 itself, which is on no
    15-minute boundary; the boundary it should have returned, the only one
    less than 15 minutes after 09:00:30, is 09:15:00. *)
Theorem ceil15_off_boundary :
  ceil15 32430000 = 32430000 /\
  (ceil15 32430000 mod (15 * 60000) =? 0) = false /\
  (33300000 mod (15 * 60000) =? 0) = true /\
  32430000 <= 33300000 < 32430000 + 15 * 60000.
Proof.
  split; [reflexivity|]. split; [reflexivity|]. split; [reflexivity|]. lia.
Qed.

(** ** Clock strings *)

Lemma formatTime_eq (t : Date) :
  formatTime t =
  String.append (twoDigits (getHours t)) (String.append ":" (twoDigits (getMinutes t))).
Proof. reflexivity. Qed.

Lemma readClock_table :
  forallb
    (fun h =>
       forallb
         (fun m =>
            match
              readClock
                (String.append (twoDigits (Z.of_nat h))
                   (String.append ":" (twoDigits (Z.of_nat m))))
            with
            | Some (h', m') => (h' =? Z.of_nat h) && (m' =? Z.of_nat m)
            | None => false
            end)
         (seq 0 60))
    (seq 0 24) = true.
Proof. vm_compute. reflexivity. Qed.

Lemma readClock_twoDigits (h m : Z) :
  0 <= h < 24 -> 0 <= m < 60 ->
  readClock (String.append (twoDigits h) (String.append ":" (twoDigits m)))
  = Some (h, m).
Proof.
  intros Hh Hm.
  pose proof readClock_table as T.
  rewrite forallb_forall in T.
  specialize (T (Z.to_nat h)).
  rewrite forallb_forall in T.
  assert (Hin : In (Z.to_nat h) (seq 0 24)) by (apply in_seq; lia).
  specialize (T Hin (Z.to_nat m)).
  assert (Hin' : In (Z.to_nat m) (seq 0 60)) by (apply in_seq; lia).
  specialize (T Hin').
  rewrite !Z2Nat.id in T by lia.
  destruct (readClock _) as [[h' m']|]; [|discriminate].
  apply andb_true_iff in T. destruct T as [T1 T2].
  apply Z.eqb_eq in T1, T2. now subst.
Qed.

Lemma readClock_formatTime (t : Date) :
  readClock (formatTime t) = Some (getHours t, getMinutes t).
Proof.
  rewrite formatTime_eq.
  apply readClock_twoDigits; [apply getHours_range|apply getMinutes_range].
Qed.

(** C9. A timestamp with no seconds and no milliseconds, formatted with
    [formatTime] and parsed back with [parseTime] on a base date of the same
    day, is recovered: the formatted string reads as the hour and minute of
    the timestamp, and every clock string with that text parses to it. *)
Theorem parseTime_formatTime (t baseDate : Date) :
  Day baseDate = Day t -> getSeconds t = 0 -> getMilliseconds t = 0 ->
  readClock (formatTime t) = Some (getHours t, getMinutes t) /\
  forall c : Clock, clockText c = formatTime t -> parseTime c baseDate = t.
Proof.
  intros Hday Hs Hms. split; [apply readClock_formatTime|].
  intros c Hc. unfold parseTime.
  pose proof (clockReads c) as R. rewrite Hc, readClock_formatTime in R.
  injection R as R. rewrite <- R. unfold setHours. rewrite Hday.
  rewrite <- (date_fields t) at 4. now rewrite Hs, Hms.
Qed.

Lemma parseTime_formatTime_witness :
  Day 30000000 = Day 34200000 /\
  parseTime (clock "09:30") 30000000 = 34200000.
Proof.
  split; [reflexivity|].
  apply (proj2 (parseTime_formatTime 34200000 30000000 eq_refl eq_refl eq_refl)).
  reflexivity.
Defined.

(** ** The slot finder *)

Lemma trySlot_true_iff (duration : Z) (blocks : list ScheduleBlock)
    (minTime maxTime : option Date) (s : Date) :
  trySlot duration blocks minTime maxTime s = true <->
  (forall lo, minTime = Some lo -> lo <= s) /\
  (forall hi, maxTime = Some hi -> s + duration * 60000 <= hi) /\
  checkConflict (testBlockAt s duration) blocks = false.
Proof.
  unfold trySlot, testBlockAt.
  destruct minTime as [lo|], maxTime as [hi|]; cbv zeta.
  - destruct (s <? lo) eqn:E1; [apply Z.ltb_lt in E1|apply Z.ltb_ge in E1].
    + split; [discriminate|]. intros (H & _). specialize (H lo eq_refl). lia.
    + destruct (hi <? s + duration * 60000) eqn:E2;
        [apply Z.ltb_lt in E2|apply Z.ltb_ge in E2].
      * split; [discriminate|]. intros (_ & H & _). specialize (H hi eq_refl). lia.
      * rewrite negb_true_iff. split.
        -- intro H. repeat split; trivial; intros ? [= <-]; lia.
        -- now intros (_ & _ & H).
  - destruct (s <? lo) eqn:E1; [apply Z.ltb_lt in E1|apply Z.ltb_ge in E1].
    + split; [discriminate|]. intros (H & _). specialize (H lo eq_refl). lia.
    + rewrite negb_true_iff. split.
      * intro H. repeat split; trivial; try discriminate. intros ? [= <-]; lia.
      * now intros (_ & _ & H).
  - destruct (hi <? s + duration * 60000) eqn:E2;
      [apply Z.ltb_lt in E2|apply Z.ltb_ge in E2].
    + split; [discriminate|]. intros (_ & H & _). specialize (H hi eq_refl). lia.
    + rewrite negb_true_iff. split.
      * intro H. repeat split; trivial; try discriminate. intros ? [= <-]; lia.
      * now intros (_ & _ & H).
  - rewrite negb_true_iff. split.
    + intro H. repeat split; trivial; discriminate.
    + now intros (_ & _ & H).
Qed.

Lemma offsetsUpTo_90 : offsetsUpTo 90 = [15; 30; 45; 60; 75; 90].
Proof. reflexivity. Qed.

Lemma offsetsUpTo_180 :
  offsetsUpTo 180 = [15; 30; 45; 60; 75; 90; 105; 120; 135; 150; 165; 180].
Proof. reflexivity. Qed.

Lemma findAvailableSlot_find (p d : Z) (blocks : list ScheduleBlock)
    (minTime maxTime : option Date) :
  findAvailableSlot p d blocks minTime maxTime
  = find (trySlot d blocks minTime maxTime) (slotCandidates p).
Proof.
  unfold findAvailableSlot, slotCandidates.
  rewrite offsetsUpTo_90, offsetsUpTo_180.
  cbn [map find].
  repeat match goal with
         | |- context [if ?c then _ else _] => destruct c; [reflexivity|]
         end.
  reflexivity.
Qed.

(** C4. [findAvailableSlot] returns the first candidate, in the order
    preferred start, +15 ... +90 minutes, -15 ... -180 minutes, that passes
    [trySlot], and [None] when none does; a candidate passes exactly when it
    is within the supplied bounds and its block is conflict-free; so with both
    bounds supplied and a positive duration a returned start lies in
    [lowerBound, upperBound). *)
Theorem findAvailableSlot_first_candidate (p d : Z) (blocks : list ScheduleBlock)
    (minTime maxTime : option Date) :
  findAvailableSlot p d blocks minTime maxTime
  = find (trySlot d blocks minTime maxTime) (slotCandidates p) /\
  (forall s,
     trySlot d blocks minTime maxTime s = true <->
     (forall lo, minTime = Some lo -> lo <= s) /\
     (forall hi, maxTime = Some hi -> s + d * 60000 <= hi) /\
     checkConflict (testBlockAt s d) blocks = false) /\
  (forall lo hi s,
     minTime = Some lo -> maxTime = Some hi -> 0 < d ->
     findAvailableSlot p d blocks minTime maxTime = Some s ->
     lo <= s < hi).
Proof.
  split; [apply findAvailableSlot_find|].
  split; [intro s; apply trySlot_true_iff|].
  intros lo hi s Hlo Hhi Hd Hs.
  rewrite findAvailableSlot_find in Hs.
  apply find_some in Hs. destruct Hs as [_ Hs].
  apply trySlot_true_iff in Hs. destruct Hs as (H1 & H2 & _).
  specialize (H1 lo Hlo). specialize (H2 hi Hhi). lia.
Qed.

Lemma findAvailableSlot_first_candidate_witness :
  findAvailableSlot 36000000 60
    [{| start := 35000000; end_ := 38000000; title := "visit";
        type_ := "fixed"; minutes := 50 |}]
    (Some 33300000) (Some 72000000) = Some 38700000 /\
  33300000 <= 38700000 < 72000000.
Proof.
  split; [reflexivity|].
  refine (proj2 (proj2 (findAvailableSlot_first_candidate 36000000 60
    [{| start := 35000000; end_ := 38000000; title := "visit";
        type_ := "fixed"; minutes := 50 |}]
    (Some 33300000) (Some 72000000))) 33300000 72000000 38700000 _ _ _ _);
    [reflexivity|reflexivity|lia|reflexivity].
Defined.

(** ** The dinner slot selector *)

Lemma parseTime_fields (c : Clock) (baseDate : Date) :
  parseTime c baseDate
  = Day baseDate * msPerDay
    + fst (clockFields c) * msPerHour + snd (clockFields c) * msPerMinute.
Proof.
  unfold parseTime, setHours, MakeDate, MakeTime.
  destruct (clockFields c) as [h m]. cbn [fst snd]. unfold msPerSecond. lia.
Qed.

Lemma dinnerLoop_find (baseDate maxTime : Date) (blocks : list ScheduleBlock)
    (candidates : list Clock) :
  dinnerLoop baseDate maxTime blocks candidates
  = find (fun s => negb (maxTime <? s + 60 * 60000)
                   && negb (checkConflict (dinnerBlockAt s) blocks))
         (map (fun c => parseTime c baseDate) candidates).
Proof.
  induction candidates as [|c rest IH]; [reflexivity|].
  cbn [dinnerLoop map find]. fold (dinnerBlockAt (parseTime c baseDate)).
  rewrite IH.
  destruct (maxTime <? parseTime c baseDate + 60 * 60000); [reflexivity|].
  cbn [negb andb].
  now destruct (checkConflict (dinnerBlockAt (parseTime c baseDate)) blocks).
Qed.

Lemma dinnerCandidates_times (baseDate : Date) :
  map (fun c => parseTime c baseDate) dinnerCandidates = dinnerTimes baseDate.
Proof.
  unfold dinnerCandidates, dinnerTimes. cbn [map].
  rewrite !parseTime_fields. cbn [clockFields fst snd].
  repeat match goal with
         | |- _ :: _ = _ :: _ => apply f_equal2; [lia|]
         end.
  reflexivity.
Qed.

Lemma findDinnerSlot_find (baseDate : Date) (blocks : list ScheduleBlock) :
  findDinnerSlot baseDate blocks
  = find (fun s => negb (Day baseDate * msPerDay + 24 * msPerHour <? s + 60 * 60000)
                   && negb (checkConflict (dinnerBlockAt s) blocks))
         (dinnerTimes baseDate).
Proof.
  unfold findDinnerSlot. rewrite dinnerLoop_find, dinnerCandidates_times.
  rewrite parseTime_fields. cbn [clockFields fst snd].
  now replace (Day baseDate * msPerDay + 24 * msPerHour + 0 * msPerMinute)
    with (Day baseDate * msPerDay + 24 * msPerHour) by lia.
Qed.

Lemma dinnerTimes_in_day (baseDate : Date) :
  Forall (fun s => s + 60 * 60000 <= Day baseDate * msPerDay + 24 * msPerHour)
    (dinnerTimes baseDate).
Proof.
  unfold dinnerTimes, msPerHour, msPerMinute. repeat constructor; lia.
Qed.

Lemma findDinnerSlot_free (baseDate : Date) (blocks : list ScheduleBlock) :
  findDinnerSlot baseDate blocks
  = find (fun s => negb (checkConflict (dinnerBlockAt s) blocks))
         (dinnerTimes baseDate).
Proof.
  rewrite findDinnerSlot_find.
  induction (dinnerTimes_in_day baseDate) as [|s l Hs _ IH]; [reflexivity|].
  cbn [find]. rewrite IH.
  replace (Day baseDate * msPerDay + 24 * msPerHour <? s + 60 * 60000)
    with false by (symmetry; apply Z.ltb_ge; lia).
  reflexivity.
Qed.

(** C5. [findDinnerSlot] returns the first of 21:00, 20:30, 21:30, 20:00,
    22:00, 23:00 (on the day of the base date) whose 60-minute block does not
    end after 24:00 and does not conflict with the placed blocks, and [None]
    when there is none; no candidate block ends after 24:00; a returned start
    is one of the six. *)
Theorem findDinnerSlot_first_candidate (baseDate : Date)
    (blocks : list ScheduleBlock) :
  let maxTime := Day baseDate * msPerDay + 24 * msPerHour in
  findDinnerSlot baseDate blocks
  = find (fun s => negb (maxTime <? s + 60 * 60000)
                   && negb (checkConflict (dinnerBlockAt s) blocks))
         (dinnerTimes baseDate) /\
  findDinnerSlot baseDate blocks
  = find (fun s => negb (checkConflict (dinnerBlockAt s) blocks))
         (dinnerTimes baseDate) /\
  Forall (fun s => s + 60 * 60000 <= maxTime) (dinnerTimes baseDate) /\
  (forall s, findDinnerSlot baseDate blocks = Some s -> In s (dinnerTimes baseDate)).
Proof.
  cbv zeta.
  split; [apply findDinnerSlot_find|].
  split; [apply findDinnerSlot_free|].
  split; [apply dinnerTimes_in_day|].
  intros s Hs. rewrite findDinnerSlot_free in Hs. now apply find_some in Hs.
Qed.

Lemma findDinnerSlot_first_candidate_witness :
  findDinnerSlot 32400000
    [{| start := 75600000; end_ := 79200000; title := "banquet";
        type_ := "fixed"; minutes := 60 |}] = Some 72000000 /\
  In 72000000 (dinnerTimes 32400000).
Proof.
  split; [reflexivity|].
  apply (proj2 (proj2 (proj2 (findDinnerSlot_first_candidate 32400000
    [{| start := 75600000; end_ := 79200000; title := "banquet";
        type_ := "fixed"; minutes := 60 |}])))).
  reflexivity.
Defined.

(** ** The backlog sweep: one task *)

Lemma newDate_Some (value : Z) (date : Date) :
  newDate value = Some date ->
  date = value /\ - maxTimeValue <= value <= maxTimeValue.
Proof.
  unfold newDate.
  destruct ((- maxTimeValue <=? value) && (value <=? maxTimeValue)) eqn:E;
    [|discriminate].
  intros [= <-]. apply andb_true_iff in E. destruct E as [E1 E2].
  apply Z.leb_le in E1. apply Z.leb_le in E2. auto.
Qed.

Lemma newDate_in_range (value : Z) :
  - maxTimeValue <= value <= maxTimeValue -> newDate value = Some value.
Proof.
  intros [H1 H2]. unfold newDate.
  apply Z.leb_le in H1. apply Z.leb_le in H2. now rewrite H1, H2.
Qed.

Lemma newDate_None (value : Z) :
  newDate value = None -> value < - maxTimeValue \/ maxTimeValue < value.
Proof.
  unfold newDate.
  destruct (- maxTimeValue <=? value) eqn:E1; cbn [andb].
  - destruct (value <=? maxTimeValue) eqn:E2; [discriminate|].
    apply Z.leb_gt in E2. auto.
  - apply Z.leb_gt in E1. auto.
Qed.

Lemma whileLoop_placed (fuel : nat) (task : Task) (dayEnd : Date) (st : Sweep)
    (out : Sweep * bool + Stuck) :
  whileLoop fuel task dayEnd st true = Some out -> out = inl (st, true).
Proof.
  destruct fuel as [|fuel]; cbn [whileLoop]; [discriminate|].
  rewrite andb_false_r. now intros [= <-].
Qed.

Lemma whileLoop_spec (fuel : nat) (task : Task) (dayEnd : Date) :
  forall (st : Sweep) (out : Sweep * bool + Stuck),
  whileLoop fuel task dayEnd st false = Some out ->
  exists k : nat,
    let c := currentTime st + Z.of_nat k * (15 * 60000) in
    let b := taskBlockAt task c in
    Scanned task dayEnd (blocks (plan st)) (currentTime st) k /\
    ((out = inl ({| plan := plan st; currentTime := c |}, false) /\
      (dayEnd <= c \/ dayEnd < end_ b))
     \/
     (c < dayEnd /\ end_ b <= dayEnd /\ newDate (end_ b) = Some (end_ b) /\
      checkConflict b (blocks (plan st)) = false /\
      out = inl ({| plan :=
                      {| blocks := blocks (plan st) ++ [b];
                         result := result (plan st) ++ [taskSlot task b];
                         warnings := warnings (plan st) |};
                    currentTime := end_ b |}, true))
     \/
     (c < dayEnd /\ newDate (end_ b) = None /\
      out = inr {| stuck_plan :=
                     {| blocks := blocks (plan st);
                        result := result (plan st) ++ [endlessSlot task c];
                        warnings := warnings (plan st) |};
                   stuck_start := c;
                   stuck_task := task |})).
Proof.
  induction fuel as [|fuel IH]; intros st out H; [discriminate|].
  cbn [whileLoop] in H. rewrite andb_true_r in H.
  destruct (currentTime st <? dayEnd) eqn:Hc;
    [apply Z.ltb_lt in Hc|apply Z.ltb_ge in Hc].
  - destruct (newDate (currentTime st + task_minutes task * 60000))
      as [taskEnd|] eqn:N.
    + pose proof (newDate_Some _ _ N) as [-> _].
      fold (taskBlockAt task (currentTime st)) in H.
      change (currentTime st + task_minutes task * 60000)
        with (end_ (taskBlockAt task (currentTime st))) in *.
      destruct (dayEnd <? end_ (taskBlockAt task (currentTime st))) eqn:He;
        [apply Z.ltb_lt in He|apply Z.ltb_ge in He].
      * injection H as <-. exists 0%nat. cbv zeta.
        rewrite Z.mul_0_l, Z.add_0_r. split.
        -- intros j Hj. lia.
        -- left. destruct st as [p c]. cbn in *. auto.
      * destruct (checkConflict (taskBlockAt task (currentTime st)) (blocks (plan st)))
          eqn:Hk; cbn [negb] in H.
        -- apply IH in H. destruct H as (k & Hscan & Hout).
           cbn [plan currentTime] in *.
           exists (S k). cbv zeta.
           replace (currentTime st + Z.of_nat (S k) * (15 * 60000))
             with (currentTime st + 15 * 60000 + Z.of_nat k * (15 * 60000)) by lia.
           split; [|exact Hout].
           intros j Hj. destruct j as [|j].
           ++ cbv zeta. rewrite Z.mul_0_l, Z.add_0_r. auto.
           ++ specialize (Hscan j ltac:(lia)). cbv zeta in *.
              replace (currentTime st + Z.of_nat (S j) * (15 * 60000))
                with (currentTime st + 15 * 60000 + Z.of_nat j * (15 * 60000)) by lia.
              exact Hscan.
        -- apply whileLoop_placed in H. subst out.
           exists 0%nat. cbv zeta. rewrite Z.mul_0_l, Z.add_0_r. split.
           ++ intros j Hj. lia.
           ++ right. left. repeat split; auto.
    + injection H as <-. exists 0%nat. cbv zeta.
      rewrite Z.mul_0_l, Z.add_0_r. split.
      * intros j Hj. lia.
      * right. right. repeat split; auto.
  - injection H as <-. exists 0%nat. cbv zeta.
    rewrite Z.mul_0_l, Z.add_0_r. split.
    + intros j Hj. lia.
    + left. destruct st as [p c]. cbn in *. auto.
Qed.

Lemma placeTask_spec (fuel : nat) (task : Task) (dayEnd : Date)
    (st : Sweep) (out : Sweep * bool + Stuck) :
  placeTask fuel dayEnd st task = Some out ->
  exists k : nat,
    let c := currentTime st + Z.of_nat k * (15 * 60000) in
    let b := taskBlockAt task c in
    Scanned task dayEnd (blocks (plan st)) (currentTime st) k /\
    ((out = inl ({| plan :=
                      {| blocks := blocks (plan st); result := result (plan st);
                         warnings := warnings (plan st) ++ [taskWarning task] |};
                    currentTime := c |}, false) /\
      (dayEnd <= c \/ dayEnd < end_ b))
     \/
     (c < dayEnd /\ end_ b <= dayEnd /\ newDate (end_ b) = Some (end_ b) /\
      checkConflict b (blocks (plan st)) = false /\
      out = inl ({| plan :=
                      {| blocks := blocks (plan st) ++ [b];
                         result := result (plan st) ++ [taskSlot task b];
                         warnings := warnings (plan st) |};
                    currentTime := end_ b |}, true))
     \/
     (c < dayEnd /\ newDate (end_ b) = None /\
      out = inr {| stuck_plan :=
                     {| blocks := blocks (plan st);
                        result := result (plan st) ++ [endlessSlot task c];
                        warnings := warnings (plan st) |};
                   stuck_start := c;
                   stuck_task := task |})).
Proof.
  unfold placeTask. intro H.
  destruct (whileLoop fuel task dayEnd st false) as [out1|] eqn:W;
    [|discriminate].
  apply whileLoop_spec in W. destruct W as (k & Hscan & Hout).
  exists k. cbv zeta in *. split; [exact Hscan|].
  destruct Hout as [(-> & Hexit)|[(Hc & He & Hn & Hk & ->)|(Hc & Hn & ->)]];
    cbn [negb] in H; injection H as <-.
  - left. cbn [plan currentTime]. auto.
  - right. left. auto.
  - right. right. auto.
Qed.

(** C3. A backlog item the sweep cannot place leaves the working set and the
    slots as they were and adds the warning of the item; the cursor is not
    put back: it stays where the scan stopped, a whole number of quarter
    hours later, one for each candidate start that was inside the day and in
    conflict; it has its old value exactly when the first candidate was
    already outside the day.  (An item that comes when the cursor is the
    Invalid Date is given up at once, in the same way: the working set, the
    slots and the stuck cursor stay, and the warning of the item is
    added.) *)
Theorem unplaced_task_leaves_cursor_where_scan_stopped (fuel : nat)
    (dayEnd : Date) (st st' : Sweep) (task : Task) :
  placeTask fuel dayEnd st task = Some (inl (st', false)) ->
  blocks (plan st') = blocks (plan st) /\
  result (plan st') = result (plan st) /\
  warnings (plan st') = warnings (plan st) ++ [taskWarning task] /\
  (exists k : nat,
     currentTime st' = currentTime st + Z.of_nat k * (15 * 60000) /\
     Scanned task dayEnd (blocks (plan st)) (currentTime st) k /\
     (dayEnd <= currentTime st' \/
      dayEnd < currentTime st' + task_minutes task * 60000)) /\
  (currentTime st' = currentTime st <->
   (dayEnd <= currentTime st \/
    dayEnd < currentTime st + task_minutes task * 60000)) /\
  (forall stuck : Stuck,
     blocks (stuck_plan (skipTask stuck task)) = blocks (stuck_plan stuck) /\
     result (stuck_plan (skipTask stuck task)) = result (stuck_plan stuck) /\
     warnings (stuck_plan (skipTask stuck task))
     = warnings (stuck_plan stuck) ++ [taskWarning task] /\
     stuck_start (skipTask stuck task) = stuck_start stuck /\
     stuck_task (skipTask stuck task) = stuck_task stuck).
Proof.
  intro H. apply placeTask_spec in H. destruct H as (k & Hscan & Hout).
  cbv zeta in Hout.
  destruct Hout as [(Hst & Hexit)|[(_ & _ & _ & _ & Hp)|(_ & _ & Hp)]];
    [|discriminate|discriminate].
  injection Hst as ->.
  cbn [plan currentTime blocks result warnings taskBlockAt end_] in *.
  split; [reflexivity|]. split; [reflexivity|]. split; [reflexivity|].
  split; [exists k; auto|]. split; [split|].
  - intro Hsame. assert (k = 0%nat) as -> by lia.
    rewrite Z.mul_0_l, Z.add_0_r in Hexit. exact Hexit.
  - intro Hfirst. destruct k as [|k]; [lia|].
    specialize (Hscan 0%nat ltac:(lia)). cbv zeta in Hscan.
    cbn [taskBlockAt end_] in Hscan. lia.
  - intro stuck. unfold skipTask.
    cbn [stuck_plan blocks result warnings stuck_start stuck_task]. auto.
Qed.

Lemma unplaced_task_leaves_cursor_where_scan_stopped_witness :
  exists st',
    placeTask 10 72000000
      {| plan := {| blocks := []; result := []; warnings := [] |};
         currentTime := 68400000 |}
      (exampleTask "report" 90 "high") = Some (inl (st', false)) /\
    currentTime st' = 68400000 /\
    warnings (plan st') = [taskWarning (exampleTask "report" 90 "high")].
Proof.
  eexists. split; [reflexivity|].
  pose proof (unplaced_task_leaves_cursor_where_scan_stopped 10 72000000
    {| plan := {| blocks := []; result := []; warnings := [] |};
       currentTime := 68400000 |} _ (exampleTask "report" 90 "high") eq_refl)
    as (_ & _ & Hw & _ & Hc & _).
  split; [|exact Hw].
  apply Hc. right. vm_compute. reflexivity.
Defined.

(** C3, as stated, fails: with the working set of a run started at 09:00 and
    no fixed events, a 200-minute task cannot be placed, and the scan leaves
    the cursor at 16:45 instead of 09:15. *)
Lemma unplaced_task_moves_cursor :
  exists p st',
    placeFixedToFamily 100 32400000 [] = Some p /\
    planStartOf 32400000 = 33300000 /\
    placeTask 100 (parseTime (clock "20:00") (baseDateOf 32400000))
      {| plan := p; currentTime := planStartOf 32400000 |}
      (exampleTask "survey" 200 "high") = Some (inl (st', false)) /\
    currentTime st' = 60300000 /\
    currentTime st' <> planStartOf 32400000.
Proof.
  eexists. eexists.
  split; [vm_compute; reflexivity|].
  split; [reflexivity|].
  split; [vm_compute; reflexivity|].
  split; [reflexivity|discriminate].
Qed.

Lemma skipTasks_plan (rest : list Task) :
  forall stuck : Stuck,
  blocks (stuck_plan (fold_left skipTask rest stuck)) = blocks (stuck_plan stuck) /\
  result (stuck_plan (fold_left skipTask rest stuck)) = result (stuck_plan stuck) /\
  warnings (stuck_plan (fold_left skipTask rest stuck))
  = warnings (stuck_plan stuck) ++ map taskWarning rest /\
  stuck_start (fold_left skipTask rest stuck) = stuck_start stuck /\
  stuck_task (fold_left skipTask rest stuck) = stuck_task stuck.
Proof.
  induction rest as [|task rest IH]; intro stuck; cbn [fold_left map].
  - rewrite app_nil_r. auto.
  - destruct (IH (skipTask stuck task)) as (Hb & Hr & Hw & Hs & Ht).
    rewrite Hb, Hr, Hw, Hs, Ht. unfold skipTask.
    cbn [stuck_plan blocks result warnings stuck_start stuck_task].
    rewrite <- app_assoc. auto.
Qed.

(** ** The backlog sweep: the steps *)

Lemma last_pushed (W : list ScheduleBlock) (b : ScheduleBlock) :
  last (map Some (W ++ [b])) None = Some b.
Proof. rewrite map_app. cbn [map]. apply last_last. Qed.

Lemma sweepTrace_spec (fuel : nat) (dayEnd : Date) :
  forall (tasks : list Task) (st : Sweep) (trace : Trace),
  sweepTrace fuel dayEnd st tasks = Some trace ->
  traceTasks trace = tasks /\
  Chained (currentTime st) (trace_steps trace) /\
  Forall (StepShape dayEnd) (trace_steps trace) /\
  forall over, trace_overrun trace = Some over ->
    (exists k : nat,
       over_start over
       = lastCursor (currentTime st) (trace_steps trace)
         + Z.of_nat k * (15 * 60000)) /\
    over_start over < dayEnd /\
    newDate (over_start over + task_minutes (over_task over) * 60000) = None.
Proof.
  induction tasks as [|task rest IH]; intros st trace H; cbn [sweepTrace] in H.
  - injection H as <-. unfold traceTasks. cbn [trace_steps trace_overrun map app].
    split; [reflexivity|]. split; [constructor|]. split; [constructor|].
    discriminate.
  - destruct (placeTask fuel dayEnd st task) as [[[st1 placed]|stuck]|] eqn:P;
      [| |discriminate].
    + destruct (sweepTrace fuel dayEnd st1 rest) as [trace1|] eqn:T;
        [|discriminate].
      injection H as <-.
      apply IH in T. destruct T as (Hmap & Hchain & Hshape & Hover).
      apply placeTask_spec in P. destruct P as (k & _ & Hout). cbv zeta in Hout.
      unfold traceTasks in *.
      cbn [trace_steps trace_overrun map step_task Chained step_before
           step_after lastCursor app].
      split; [now rewrite Hmap|]. split; [|split].
      * split; [reflexivity|].
        destruct Hout as [(Ho & _)|[(_ & _ & _ & _ & Ho)|(_ & _ & Ho)]];
          [| |discriminate]; injection Ho as -> _; exact Hchain.
      * constructor; [|exact Hshape].
        exists k. cbv zeta. cbn [step_before step_block step_task step_after].
        destruct Hout as [(Ho & _)|[(_ & He & _ & _ & Ho)|(_ & _ & Ho)]];
          [| |discriminate]; injection Ho as -> ->;
          cbn [plan currentTime blocks].
        -- reflexivity.
        -- rewrite last_pushed. auto.
      * exact Hover.
    + injection H as <-.
      apply placeTask_spec in P. destruct P as (k & _ & Hout). cbv zeta in Hout.
      destruct Hout as [(Ho & _)|[(_ & _ & _ & _ & Ho)|(Hc & Hn & Ho)]];
        [discriminate|discriminate|]. injection Ho as ->.
      unfold traceTasks.
      cbn [trace_steps trace_overrun map app Chained lastCursor stuck_start].
      split; [reflexivity|]. split; [constructor|]. split; [constructor|].
      intros over [= <-]. cbn [over_start over_task].
      split; [now exists k|]. split; [exact Hc|exact Hn].
Qed.

(** The trace is the trace of the sweep: the arrays and the cursor that
    [placeTasks] leaves are those of the steps. *)
Lemma placeTasks_trace (fuel : nat) (dayEnd : Date) :
  forall (tasks : list Task) (st : Sweep) (final : Sweep + Stuck),
  placeTasks fuel dayEnd st tasks = Some final ->
  exists trace,
    sweepTrace fuel dayEnd st tasks = Some trace /\
    blocks (finalPlan final) = blocks (plan st) ++ placedBlocks (trace_steps trace) /\
    result (finalPlan final) = result (plan st) ++ traceSlots trace /\
    warnings (finalPlan final) = warnings (plan st) ++ traceWarnings trace /\
    match final with
    | inl st' =>
        trace_overrun trace = None /\
        currentTime st' = lastCursor (currentTime st) (trace_steps trace)
    | inr stuck =>
        exists over,
          trace_overrun trace = Some over /\
          stuck_start stuck = over_start over /\
          stuck_task stuck = over_task over
    end.
Proof.
  induction tasks as [|task rest IH]; intros st final H;
    cbn [placeTasks sweepTrace] in *.
  - injection H as <-. eexists. split; [reflexivity|].
    unfold traceSlots, traceWarnings.
    cbn [finalPlan trace_steps trace_overrun placedBlocks placedSlots
         unplacedTasks flat_map filter map app lastCursor].
    rewrite !app_nil_r. auto.
  - destruct (placeTask fuel dayEnd st task) as [[[st1 placed]|stuck]|] eqn:P;
      [| |discriminate];
      apply placeTask_spec in P; destruct P as (k & _ & Hout); cbv zeta in Hout.
    + apply IH in H. destruct H as (trace & -> & Hb & Hr & Hw & Hend).
      eexists. split; [reflexivity|].
      unfold traceSlots, traceWarnings, placedBlocks, placedSlots, unplacedTasks
        in *.
      cbn [trace_steps trace_overrun flat_map filter step_block step_task
           step_after lastCursor].
      destruct Hout as [(Ho & _)|[(_ & _ & _ & _ & Ho)|(_ & _ & Ho)]];
        [| |discriminate]; injection Ho as -> ->;
        cbn [plan blocks result warnings currentTime map app] in *.
      * rewrite Hb, Hr, Hw, <- !app_assoc. auto.
      * rewrite last_pushed. cbn [app].
        rewrite Hb, Hr, Hw, <- !app_assoc. auto.
    + injection H as <-. eexists. split; [reflexivity|].
      destruct (skipTasks_plan rest stuck) as (Hb & Hr & Hw & Hs & Ht).
      unfold traceSlots, traceWarnings.
      cbn [finalPlan trace_steps trace_overrun placedBlocks placedSlots
           unplacedTasks flat_map filter map app over_task over_start over_rest].
      rewrite Hb, Hr, Hw, Hs, Ht.
      destruct Hout as [(Ho & _)|[(_ & _ & _ & _ & Ho)|(_ & _ & Ho)]];
        [discriminate|discriminate|]. injection Ho as ->.
      cbn [stuck_plan stuck_start stuck_task blocks result warnings].
      rewrite app_nil_r. repeat split; trivial. eauto.
Qed.

Lemma step_forward (dayEnd : Date) (s : Step) :
  StepShape dayEnd s -> 0 < task_minutes (step_task s) ->
  step_before s <= step_after s /\
  forall b, step_block s = Some b ->
    step_before s <= start b /\ start b < end_ b /\ end_ b = step_after s /\
    end_ b <= dayEnd.
Proof.
  intros (k & Hk) Hpos. cbv zeta in Hk.
  destruct (step_block s) as [b|].
  - destruct Hk as (-> & Hafter & He). cbn [taskBlockAt start end_] in *.
    split; [lia|]. intros b [= <-]. cbn [taskBlockAt start end_]. lia.
  - split; [lia|]. discriminate.
Qed.

Lemma chained_forward (dayEnd : Date) :
  forall (steps : list Step) (c : Date),
  Chained c steps -> Forall (StepShape dayEnd) steps ->
  Forall (fun s => 0 < task_minutes (step_task s)) steps ->
  Forall (fun s => c <= step_before s /\ step_before s <= step_after s) steps.
Proof.
  induction steps as [|s rest IH]; intros c Hc Hs Hp; [constructor|].
  cbn [Chained] in Hc. destruct Hc as [Hb Hc].
  inversion Hs as [|? ? Hs1 Hs2]; subst.
  inversion Hp as [|? ? Hp1 Hp2]; subst.
  destruct (step_forward dayEnd s Hs1 Hp1) as [Hfw _].
  constructor; [lia|].
  specialize (IH _ Hc Hs2 Hp2).
  eapply Forall_impl; [|exact IH]. cbv beta. intros s' [H1 H2]. lia.
Qed.

Lemma chained_ordered (dayEnd : Date) :
  forall (steps : list Step) (c : Date),
  Chained c steps -> Forall (StepShape dayEnd) steps ->
  Forall (fun s => 0 < task_minutes (step_task s)) steps ->
  forall (i j : nat) (si sj : Step) (bi bj : ScheduleBlock),
  (i < j)%nat ->
  nth_error steps i = Some si -> nth_error steps j = Some sj ->
  step_block si = Some bi -> step_block sj = Some bj ->
  end_ bi <= start bj.
Proof.
  induction steps as [|s rest IH]; intros c Hc Hs Hp i j si sj bi bj Hij Hi Hj Hbi Hbj.
  - destruct i; discriminate.
  - cbn [Chained] in Hc. destruct Hc as [Hb Hc].
    inversion Hs as [|? ? Hs1 Hs2]; subst.
    inversion Hp as [|? ? Hp1 Hp2]; subst.
    destruct j as [|j]; [lia|]. cbn [nth_error] in Hj.
    destruct i as [|i].
    + cbn [nth_error] in Hi. injection Hi as <-.
      destruct (step_forward dayEnd s Hs1 Hp1) as [_ Hblock].
      destruct (Hblock bi Hbi) as (_ & _ & Hend & _).
      pose proof (chained_forward dayEnd rest _ Hc Hs2 Hp2) as Hfw.
      rewrite Forall_forall in Hfw, Hs2, Hp2.
      pose proof (nth_error_In _ _ Hj) as Hin.
      destruct (step_forward dayEnd sj (Hs2 _ Hin) (Hp2 _ Hin)) as [_ Hblockj].
      destruct (Hblockj bj Hbj) as (Hsj & _).
      specialize (Hfw _ Hin). lia.
    + cbn [nth_error] in Hi.
      eapply (IH _ Hc Hs2 Hp2 i j); eauto. lia.
Qed.

Lemma lastCursor_ge (dayEnd : Date) :
  forall (steps : list Step) (c : Date),
  Chained c steps -> Forall (StepShape dayEnd) steps ->
  Forall (fun s => 0 < task_minutes (step_task s)) steps ->
  c <= lastCursor c steps /\
  forall s b, In s steps -> step_block s = Some b ->
    end_ b <= lastCursor c steps.
Proof.
  induction steps as [|s rest IH]; intros c Hc Hs Hp; cbn [lastCursor].
  - split; [lia|]. intros s b [].
  - cbn [Chained] in Hc. destruct Hc as [Hb Hc].
    inversion Hs as [|? ? Hs1 Hs2]; subst.
    inversion Hp as [|? ? Hp1 Hp2]; subst.
    destruct (step_forward dayEnd s Hs1 Hp1) as [Hfw Hblock].
    destruct (IH _ Hc Hs2 Hp2) as [Hge Hin].
    split; [lia|].
    intros s' b [<-|Hs'] Hb'.
    + destruct (Hblock b Hb') as (_ & _ & He & _). lia.
    + eapply Hin; eauto.
Qed.

Lemma tasksToPlace_positive (tasks : list Task) :
  Forall (fun t => 0 < task_minutes t) tasks ->
  Forall (fun t => 0 < task_minutes t) (tasksToPlace tasks).
Proof.
  intro H. unfold tasksToPlace, deepTasks, lightTasks.
  apply Forall_app. split; apply Forall_forall; intros t Ht;
    apply filter_In in Ht; rewrite Forall_forall in H; now apply H.
Qed.

Lemma runTrace_steps (fuel : nat) (now : Date)
    (fixedEvents : list FixedEvent) (tasks : list Task) (trace : Trace) :
  Forall (fun t => 0 < task_minutes t) tasks ->
  runTrace fuel now fixedEvents tasks = Some trace ->
  let planStart := planStartOf now in
  let dayEnd := parseTime (clock "20:00") (baseDateOf now) in
  traceTasks trace = tasksToPlace tasks /\
  Chained planStart (trace_steps trace) /\
  Forall (StepShape dayEnd) (trace_steps trace) /\
  Forall (fun s => 0 < task_minutes (step_task s)) (trace_steps trace) /\
  forall over, trace_overrun trace = Some over ->
    lastCursor planStart (trace_steps trace) <= over_start over /\
    over_start over < dayEnd /\
    0 < task_minutes (over_task over) /\
    newDate (over_start over + task_minutes (over_task over) * 60000) = None.
Proof.
  intros Hpos H. cbv zeta. unfold runTrace in H.
  destruct (placeFixedToFamily fuel now fixedEvents) as [p|]; [|discriminate].
  apply sweepTrace_spec in H. cbn [currentTime] in H.
  destruct H as (Hmap & Hchain & Hshape & Hover).
  apply tasksToPlace_positive in Hpos. rewrite <- Hmap in Hpos.
  unfold traceTasks in Hpos. apply Forall_app in Hpos.
  destruct Hpos as [Hsteps Hrest]. rewrite Forall_map in Hsteps.
  repeat split; trivial;
    destruct (Hover _ H) as ((k & Hk) & Hlt & Hn); trivial; [lia|].
  rewrite H in Hrest. now inversion Hrest.
Qed.

(** With durations that are positive and short enough for the end of every
    block to be a Date, the sweep does not get stuck and its cursor never
    goes back: the steps are chained from planStart, every committed block
    starts at or after planStart and ends at or before 20:00, and of two
    committed blocks the one processed first ends no later than the other
    starts. *)
Lemma sweep_in_range_never_goes_back (fuel : nat) (now : Date)
    (fixedEvents : list FixedEvent) (tasks : list Task) (trace : Trace) :
  - maxTimeValue <= planStartOf now ->
  Forall (fun t =>
            0 < task_minutes t /\
            parseTime (clock "20:00") (baseDateOf now) + task_minutes t * 60000
            <= maxTimeValue) tasks ->
  runTrace fuel now fixedEvents tasks = Some trace ->
  let planStart := planStartOf now in
  let dayEnd := parseTime (clock "20:00") (baseDateOf now) in
  let steps := trace_steps trace in
  trace_overrun trace = None /\
  map step_task steps = tasksToPlace tasks /\
  Chained planStart steps /\
  Forall (StepShape dayEnd) steps /\
  Forall (fun s => planStart <= step_before s /\ step_before s <= step_after s) steps /\
  (forall s b, In s steps -> step_block s = Some b ->
     planStart <= start b /\ end_ b <= dayEnd) /\
  (forall i j si sj bi bj,
     (i < j)%nat ->
     nth_error steps i = Some si -> nth_error steps j = Some sj ->
     step_block si = Some bi -> step_block sj = Some bj ->
     start bi <= start bj /\ end_ bi <= start bj).
Proof.
  intros Hnow Hfit H. cbv zeta.
  assert (Hpos : Forall (fun t => 0 < task_minutes t) tasks).
  { eapply Forall_impl; [|exact Hfit]. cbv beta. tauto. }
  destruct (runTrace_steps _ _ _ _ _ Hpos H)
    as (Hmap & Hchain & Hshape & Hp & Hover).
  pose proof (chained_forward _ _ _ Hchain Hshape Hp) as Hfw.
  assert (Hnone : trace_overrun trace = None).
  { destruct (trace_overrun trace) as [over|] eqn:O; [|reflexivity].
    exfalso. destruct (Hover over eq_refl) as (Hge & Hlt & Hm & Hn).
    destruct (lastCursor_ge _ _ _ Hchain Hshape Hp) as [Hc _].
    assert (Hin : In (over_task over) (tasksToPlace tasks)).
    { rewrite <- Hmap. unfold traceTasks. rewrite O, in_app_iff.
      right. now left. }
    assert (Hin' : In (over_task over) tasks).
    { unfold tasksToPlace, deepTasks, lightTasks in Hin.
      rewrite in_app_iff in Hin. destruct Hin as [Hin|Hin];
        now apply filter_In in Hin. }
    rewrite Forall_forall in Hfit. destruct (Hfit _ Hin') as [_ Hmax].
    apply newDate_None in Hn. lia. }
  split; [exact Hnone|].
  split; [unfold traceTasks in Hmap; now rewrite Hnone, app_nil_r in Hmap|].
  split; [exact Hchain|]. split; [exact Hshape|].
  split; [exact Hfw|]. split.
  - intros s b Hin Hb.
    rewrite Forall_forall in Hfw, Hshape, Hp.
    destruct (step_forward _ s (Hshape _ Hin) (Hp _ Hin)) as [_ Hblock].
    destruct (Hblock b Hb) as (? & _ & _ & ?). specialize (Hfw _ Hin). lia.
  - intros i j si sj bi bj Hij Hi Hj Hbi Hbj.
    pose proof (chained_ordered _ _ _ Hchain Hshape Hp i j si sj bi bj
                  Hij Hi Hj Hbi Hbj) as Hord.
    rewrite Forall_forall in Hshape, Hp.
    pose proof (nth_error_In _ _ Hi) as Hin.
    destruct (step_forward _ si (Hshape _ Hin) (Hp _ Hin)) as [_ Hblock].
    destruct (Hblock bi Hbi) as (_ & ? & _). lia.
Qed.

Lemma overlong_task_gets_stuck (fuel : nat) (dayEnd : Date) (st : Sweep)
    (task : Task) :
  (0 < fuel)%nat -> currentTime st < dayEnd ->
  maxTimeValue < currentTime st + task_minutes task * 60000 ->
  placeTask fuel dayEnd st task
  = Some (inr {| stuck_plan :=
                   {| blocks := blocks (plan st);
                      result :=
                        result (plan st) ++ [endlessSlot task (currentTime st)];
                      warnings := warnings (plan st) |};
                 stuck_start := currentTime st;
                 stuck_task := task |}).
Proof.
  intros Hf Hc Hbig. destruct fuel as [|fuel]; [lia|].
  unfold placeTask. cbn [whileLoop].
  replace (currentTime st <? dayEnd) with true by (symmetry; now apply Z.ltb_lt).
  cbn [andb negb]. unfold newDate.
  replace (currentTime st + task_minutes task * 60000 <=? maxTimeValue)
    with false by (symmetry; apply Z.leb_gt; lia).
  now rewrite andb_false_r.
Qed.

(** C10. The sweep places a backlog task whose duration is so long that the
    end of its block is no Date, instead of giving it up: in a run started at
    09:00 with a task of 144000000000 minutes and a task of 30 minutes, the
    first one is placed at 09:15, over the reply window that is there, its
    block has an Invalid Date for its end and its slot ends with the text
    "Inval"; the cursor is that Invalid Date, so the second task, which is
    placed without a warning when it is alone, is given up with a warning.
    The block does not end at or before 20:00 and the cursor has no place in
    the order of times. *)
Theorem overlong_task_is_placed_without_end :
  exists stuck,
    run 100 32400000 []
      [exampleTask "thesis" 144000000000 "high"; exampleTask "mail" 30 "high"]
    = Some (inr stuck) /\
    0 < task_minutes (stuck_task stuck) /\
    stuck_task stuck = exampleTask "thesis" 144000000000 "high" /\
    stuck_start stuck = 33300000 /\
    newDate (stuck_start stuck + task_minutes (stuck_task stuck) * 60000) = None /\
    In (replyBlockAt 33300000) (blocks (stuck_plan stuck)) /\
    In {| slot_start := "09:15"; slot_end := "Inval";
          slot_title := "thesis (144000000000分)"; slot_type := "now";
          slot_color := "#3b82f6" |} (result (stuck_plan stuck)) /\
    warnings (stuck_plan stuck) = [taskWarning (exampleTask "mail" 30 "high")] /\
    exists st,
      run 100 32400000 [] [exampleTask "mail" 30 "high"] = Some (inl st) /\
      warnings (plan st) = [].
Proof.
  eexists. split; [vm_compute; reflexivity|].
  cbn [stuck_task stuck_start stuck_plan blocks result warnings].
  split; [reflexivity|]. split; [reflexivity|]. split; [reflexivity|].
  split; [reflexivity|].
  split; [vm_compute; auto 10|].
  split; [vm_compute; auto 20|].
  split; [reflexivity|].
  eexists. split; [vm_compute; reflexivity|reflexivity].
Qed.

(** ** The order of the backlog *)

Section FilterPositions.
Variable A : Type.
Variable f : A -> bool.

Lemma firstn_split_at (l : list A) (i j : nat) (t : A) :
  (i < j)%nat -> nth_error l i = Some t ->
  exists rest, firstn j l = firstn i l ++ t :: rest.
Proof.
  intros Hij Hi.
  destruct (nth_error_split l i Hi) as (l1 & l2 & -> & Hlen).
  rewrite !firstn_app, Hlen.
  rewrite (firstn_all2 (n := j) l1) by lia.
  replace (firstn i l1) with l1 by (symmetry; apply firstn_all2; lia).
  replace (i - i)%nat with 0%nat by lia.
  destruct (j - i)%nat as [|d] eqn:D; [lia|].
  cbn [firstn]. rewrite app_nil_r. eauto.
Qed.

Lemma filter_position (l : list A) (i : nat) (t : A) :
  nth_error l i = Some t -> f t = true ->
  nth_error (filter f l) (List.length (filter f (firstn i l))) = Some t.
Proof.
  intros Hi Ht.
  destruct (nth_error_split l i Hi) as (l1 & l2 & -> & Hlen).
  rewrite firstn_app, Hlen.
  replace (firstn i l1) with l1 by (symmetry; apply firstn_all2; lia).
  replace (i - i)%nat with 0%nat by lia.
  cbn [firstn]. rewrite app_nil_r, filter_app. cbn [filter]. rewrite Ht.
  rewrite nth_error_app2 by lia.
  replace (_ - _)%nat with 0%nat by lia. reflexivity.
Qed.

Lemma filter_position_lt (l : list A) (i j : nat) (t : A) :
  (i < j)%nat -> nth_error l i = Some t -> f t = true ->
  (List.length (filter f (firstn i l)) < List.length (filter f (firstn j l)))%nat.
Proof.
  intros Hij Hi Ht.
  destruct (firstn_split_at l i j t Hij Hi) as (rest & ->).
  rewrite filter_app, length_app. cbn [filter]. rewrite Ht. cbn [List.length]. lia.
Qed.

Lemma filter_position_bound (l : list A) (i : nat) (t : A) :
  nth_error l i = Some t -> f t = true ->
  (List.length (filter f (firstn i l)) < List.length (filter f l))%nat.
Proof.
  intros Hi Ht. apply nth_error_Some. now rewrite (filter_position l i t).
Qed.
End FilterPositions.

Lemma sweepIndex_correct (tasks : list Task) (i : nat) (t : Task) :
  nth_error tasks i = Some t ->
  nth_error (tasksToPlace tasks) (sweepIndex tasks i) = Some t.
Proof.
  intro Hi. unfold sweepIndex, tasksToPlace. rewrite Hi.
  destruct (45 <=? task_minutes t) eqn:E.
  - unfold deepTasks. rewrite nth_error_app1.
    + now apply filter_position.
    + now apply filter_position_bound with (t := t).
  - unfold lightTasks. rewrite nth_error_app2 by lia.
    replace (_ + _ - _)%nat
      with (List.length (filter (fun t => task_minutes t <? 45) (firstn i tasks)))
      by lia.
    apply filter_position; trivial.
    apply Z.leb_gt in E. now apply Z.ltb_lt.
Qed.

Lemma sweepIndex_same_group (tasks : list Task) (i j : nat) (ti tj : Task) :
  (i < j)%nat -> nth_error tasks i = Some ti -> nth_error tasks j = Some tj ->
  (45 <=? task_minutes ti) = (45 <=? task_minutes tj) ->
  (sweepIndex tasks i < sweepIndex tasks j)%nat.
Proof.
  intros Hij Hi Hj Hg. unfold sweepIndex. rewrite Hi, Hj, <- Hg.
  destruct (45 <=? task_minutes ti) eqn:E.
  - unfold deepTasks. now apply filter_position_lt with (t := ti).
  - unfold lightTasks. apply Nat.add_lt_mono_l.
    apply filter_position_lt with (t := ti); trivial.
    apply Z.leb_gt in E. now apply Z.ltb_lt.
Qed.

Lemma sweepIndex_deep_first (tasks : list Task) (i j : nat) (ti tj : Task) :
  nth_error tasks i = Some ti -> nth_error tasks j = Some tj ->
  (45 <=? task_minutes ti) = true -> (45 <=? task_minutes tj) = false ->
  (sweepIndex tasks i < sweepIndex tasks j)%nat.
Proof.
  intros Hi Hj Ei Ej. unfold sweepIndex. rewrite Hi, Hj, Ei, Ej.
  unfold deepTasks.
  pose proof (filter_position_bound _ (fun t => 45 <=? task_minutes t) tasks i ti Hi Ei).
  lia.
Qed.

(** C7. With positive durations, placement keeps the input order inside each
    duration group: of two placed tasks that are both deep (45 minutes or
    more) or both light, the one earlier in the backlog starts no later than
    the other; and a placed deep task starts no later than any placed light
    task, wherever the two stand in the backlog. *)
Theorem placement_keeps_order_within_group (fuel : nat) (now : Date)
    (fixedEvents : list FixedEvent) (tasks : list Task) (i j : nat)
    (ti tj : Task) (si sj : Date) :
  Forall (fun t => 0 < task_minutes t) tasks ->
  nth_error tasks i = Some ti -> nth_error tasks j = Some tj ->
  placedStartOf fuel now fixedEvents tasks i = Some si ->
  placedStartOf fuel now fixedEvents tasks j = Some sj ->
  ((i < j)%nat /\ (45 <=? task_minutes ti) = (45 <=? task_minutes tj)) \/
  ((45 <=? task_minutes ti) = true /\ (45 <=? task_minutes tj) = false) ->
  si <= sj.
Proof.
  intros Hpos Hi Hj Hsi Hsj Hcase.
  assert (Hidx : (sweepIndex tasks i < sweepIndex tasks j)%nat).
  { destruct Hcase as [[Hij Hg]|[Ei Ej]].
    - now apply sweepIndex_same_group with (ti := ti) (tj := tj).
    - now apply sweepIndex_deep_first with (ti := ti) (tj := tj). }
  unfold placedStartOf in Hsi, Hsj.
  destruct (runTrace fuel now fixedEvents tasks) as [trace|] eqn:T; [|discriminate].
  destruct (runTrace_steps _ _ _ _ _ Hpos T) as (_ & Hchain & Hshape & Hp & Hover).
  unfold traceStart in Hsi, Hsj.
  destruct (nth_error (trace_steps trace) (sweepIndex tasks i)) as [stepi|] eqn:Si.
  - destruct (step_block stepi) as [bi|] eqn:Bi; [|discriminate].
    injection Hsi as <-.
    pose proof (nth_error_In _ _ Si) as Hini.
    assert (Hbi : start bi < end_ bi).
    { rewrite Forall_forall in Hshape, Hp.
      destruct (step_forward _ stepi (Hshape _ Hini) (Hp _ Hini)) as [_ Hblock].
      now destruct (Hblock bi Bi) as (_ & ? & _). }
    destruct (nth_error (trace_steps trace) (sweepIndex tasks j)) as [stepj|] eqn:Sj.
    + destruct (step_block stepj) as [bj|] eqn:Bj; [|discriminate].
      injection Hsj as <-.
      pose proof (chained_ordered _ _ _ Hchain Hshape Hp _ _ _ _ _ _ Hidx Si Sj Bi Bj).
      lia.
    + destruct (trace_overrun trace) as [over|] eqn:O; [|discriminate].
      destruct (Nat.eqb _ _); [|discriminate]. injection Hsj as <-.
      destruct (Hover over eq_refl) as (Hge & _).
      destruct (lastCursor_ge _ _ _ Hchain Hshape Hp) as [_ Hlast].
      specialize (Hlast _ _ Hini Bi). lia.
  - apply nth_error_None in Si.
    destruct (nth_error (trace_steps trace) (sweepIndex tasks j)) as [stepj|] eqn:Sj.
    + assert (nth_error (trace_steps trace) (sweepIndex tasks j) <> None)
        by congruence.
      apply nth_error_Some in H. lia.
    + destruct (trace_overrun trace) as [over|]; [|discriminate].
      destruct (Nat.eqb (sweepIndex tasks i) _) eqn:Ei; [|discriminate].
      destruct (Nat.eqb (sweepIndex tasks j) _) eqn:Ej; [|discriminate].
      apply Nat.eqb_eq in Ei. apply Nat.eqb_eq in Ej. lia.
Qed.

Lemma placement_keeps_order_within_group_witness :
  exists si sj,
    placedStartOf 100 32400000 []
      [exampleTask "mail" 30 "high"; exampleTask "notes" 20 "low"] 0 = Some si /\
    placedStartOf 100 32400000 []
      [exampleTask "mail" 30 "high"; exampleTask "notes" 20 "low"] 1 = Some sj /\
    si <= sj.
Proof.
  eexists. eexists.
  split; [vm_compute; reflexivity|]. split; [vm_compute; reflexivity|].
  match goal with
  | |- ?si <= ?sj =>
      assert (Hi : placedStartOf 100 32400000 []
                     [exampleTask "mail" 30 "high"; exampleTask "notes" 20 "low"] 0
                   = Some si) by (vm_compute; reflexivity);
      assert (Hj : placedStartOf 100 32400000 []
                     [exampleTask "mail" 30 "high"; exampleTask "notes" 20 "low"] 1
                   = Some sj) by (vm_compute; reflexivity)
  end.
  refine (placement_keeps_order_within_group 100 32400000 []
            [exampleTask "mail" 30 "high"; exampleTask "notes" 20 "low"] 0 1
            (exampleTask "mail" 30 "high") (exampleTask "notes" 20 "low") _ _
            _ eq_refl eq_refl Hi Hj _).
  - repeat constructor.
  - left. split; [lia|reflexivity].
Defined.

(** C7, as stated, fails: of two tasks of equal priority, a light one that
    stands first in the backlog is placed after a deep one that stands second
    (10:30 against 09:30 in a run started at 09:00 with no fixed events). *)
Lemma equal_priority_input_order_reversed :
  exists ti tj si sj,
    nth_error [exampleTask "mail" 30 "high"; exampleTask "draft" 60 "high"] 0
    = Some ti /\
    nth_error [exampleTask "mail" 30 "high"; exampleTask "draft" 60 "high"] 1
    = Some tj /\
    task_priority ti = task_priority tj /\
    placedStartOf 100 32400000 []
      [exampleTask "mail" 30 "high"; exampleTask "draft" 60 "high"] 0 = Some si /\
    placedStartOf 100 32400000 []
      [exampleTask "mail" 30 "high"; exampleTask "draft" 60 "high"] 1 = Some sj /\
    si = 37800000 /\ sj = 34200000 /\
    ~ si <= sj.
Proof.
  do 4 eexists.
  split; [reflexivity|]. split; [reflexivity|]. split; [reflexivity|].
  split; [vm_compute; reflexivity|]. split; [vm_compute; reflexivity|].
  split; [reflexivity|]. split; [reflexivity|].
  lia.
Qed.

(** ** The working set *)

Section CommittedFacts.
Variables P Q : ScheduleBlock -> Prop.

Lemma Committed_impl (W W' : list ScheduleBlock) :
  (forall b, P b -> Q b) -> Committed P W W' -> Committed Q W W'.
Proof.
  intros HPQ H. induction H as [|W' b H IH Hb HP]; constructor; auto.
Qed.

Lemma Committed_trans (W1 W2 W3 : list ScheduleBlock) :
  Committed P W1 W2 -> Committed P W2 W3 -> Committed P W1 W3.
Proof.
  intros H12 H23. induction H23 as [|W' b H IH Hb HP]; [exact H12|].
  now constructor.
Qed.

Lemma Committed_later (W W' : list ScheduleBlock) :
  Committed P W W' ->
  exists later,
    W' = W ++ later /\ Forall P later /\
    forall pre b post,
      later = pre ++ b :: post -> checkConflict b (W ++ pre) = false.
Proof.
  intro H. induction H as [|W' b H IH Hb HP].
  - exists []. rewrite app_nil_r. repeat split; [constructor|].
    intros pre b post E. destruct pre; discriminate.
  - destruct IH as (later & -> & HF & Hfree).
    exists (later ++ [b]). rewrite app_assoc. repeat split.
    + apply Forall_app. split; [exact HF|]. now constructor.
    + intros pre b0 post E.
      destruct (exists_last (l := b0 :: post) ltac:(discriminate))
        as (post' & x & Epost).
      rewrite Epost, app_assoc in E. apply app_inj_tail in E.
      destruct E as [E <-].
      destruct post' as [|y post'].
      * cbn in Epost. injection Epost as -> _.
        rewrite app_nil_r in E. now subst.
      * cbn in Epost. injection Epost as <- _. eapply Hfree. exact E.
Qed.
End CommittedFacts.

Lemma hasOverlap_sym (s1 e1 s2 e2 : Date) :
  hasOverlap s1 e1 s2 e2 = hasOverlap s2 e2 s1 e1.
Proof. unfold hasOverlap. apply andb_comm. Qed.

Lemma checkConflict_push (a b : ScheduleBlock) (W : list ScheduleBlock) :
  checkConflict a (W ++ [b])
  = checkConflict a W || hasOverlap (start a) (end_ a) (start b) (end_ b).
Proof.
  unfold checkConflict. rewrite existsb_app. cbn [existsb].
  now rewrite orb_false_r.
Qed.

Lemma checkConflict_cons (a b : ScheduleBlock) (W : list ScheduleBlock) :
  checkConflict b (a :: W)
  = hasOverlap (start b) (end_ b) (start a) (end_ a) || checkConflict b W.
Proof. reflexivity. Qed.

Lemma conflictFree_push (W : list ScheduleBlock) (b : ScheduleBlock) :
  conflictFree (W ++ [b]) = conflictFree W && negb (checkConflict b W).
Proof.
  induction W as [|a W IH]; cbn [app conflictFree].
  - reflexivity.
  - rewrite IH, checkConflict_push, checkConflict_cons.
    rewrite (hasOverlap_sym (start b)).
    destruct (checkConflict a W), (conflictFree W), (checkConflict b W),
      (hasOverlap (start a) (end_ a) (start b) (end_ b)); reflexivity.
Qed.

Lemma conflictFree_prefix (W1 W2 : list ScheduleBlock) :
  conflictFree (W1 ++ W2) = true -> conflictFree W1 = true.
Proof.
  induction W1 as [|a W1 IH]; cbn [app conflictFree]; [reflexivity|].
  rewrite !andb_true_iff, !negb_true_iff. intros [Ha H]. split; [|auto].
  unfold checkConflict in *. rewrite existsb_app in Ha.
  now apply orb_false_iff in Ha.
Qed.

Lemma Committed_conflictFree (P : ScheduleBlock -> Prop)
    (W W' : list ScheduleBlock) :
  Committed P W W' -> conflictFree W = true -> conflictFree W' = true.
Proof.
  intros H HW. induction H as [|W' b H IH Hb HP]; [exact HW|].
  rewrite conflictFree_push, IH, Hb. reflexivity.
Qed.

Lemma replyBlockFor_type (planStart endOfDay t : Date) (W : list ScheduleBlock) :
  type_ (replyBlockFor planStart endOfDay t W) = "reply".
Proof.
  unfold replyBlockFor. cbv zeta.
  destruct (checkConflict _ W); [|reflexivity].
  now destruct (findAvailableSlot t 15 W (Some planStart) (Some endOfDay)).
Qed.

Lemma replyPass_committed (planStart endOfDay t : Date) (st : Plan) :
  Committed (fun b => type_ b = "reply") (blocks st)
    (blocks (replyPass planStart endOfDay t st)).
Proof.
  unfold replyPass. cbv zeta.
  destruct (checkConflict (replyBlockFor planStart endOfDay t (blocks st)) (blocks st))
    eqn:E; cbn [negb blocks].
  - constructor.
  - constructor; [constructor|exact E|apply replyBlockFor_type].
Qed.

Lemma replyLoop_committed (fuel : nat) (planStart endOfDay : Date) :
  forall (t : Date) (st st' : Plan),
  replyLoop fuel planStart endOfDay t st = Some st' ->
  Committed (fun b => type_ b = "reply") (blocks st) (blocks st').
Proof.
  induction fuel as [|fuel IH]; intros t st st' H; [discriminate|].
  cbn [replyLoop] in H. destruct (t <? endOfDay).
  - apply IH in H. eapply Committed_trans; [apply replyPass_committed|exact H].
  - injection H as <-. constructor.
Qed.

Lemma placeLunch_committed (t0 planStart baseDate : Date) (st : Plan) :
  Committed (fun b => type_ b = "lunch") (blocks st)
    (blocks (placeLunch t0 planStart baseDate st)).
Proof.
  unfold placeLunch. cbv zeta.
  destruct (findAvailableSlot _ 60 (blocks st) _ _) as [s|] eqn:F; cbn [blocks].
  - rewrite findAvailableSlot_find in F. apply find_some in F.
    destruct F as [_ F]. apply trySlot_true_iff in F. destruct F as (_ & _ & F).
    constructor; [constructor|exact F|reflexivity].
  - constructor.
Qed.

Lemma placeDinner_committed (baseDate : Date) (st : Plan) :
  Committed (fun b => type_ b = "dinner") (blocks st)
    (blocks (placeDinner baseDate st)).
Proof.
  unfold placeDinner.
  destruct (findDinnerSlot baseDate (blocks st)) as [s|] eqn:F; cbn [blocks].
  - rewrite findDinnerSlot_free in F. apply find_some in F.
    destruct F as [_ F]. apply negb_true_iff in F.
    constructor; [constructor|exact F|reflexivity].
  - constructor.
Qed.

Lemma placeTasks_committed (fuel : nat) (dayEnd : Date) :
  forall (tasks : list Task) (st : Sweep) (final : Sweep + Stuck),
  placeTasks fuel dayEnd st tasks = Some final ->
  Committed (fun b => exists t c, In t tasks /\ b = taskBlockAt t c)
    (blocks (plan st)) (blocks (finalPlan final)).
Proof.
  induction tasks as [|task rest IH]; intros st final H; cbn [placeTasks] in H.
  - injection H as <-. constructor.
  - destruct (placeTask fuel dayEnd st task) as [[[st1 placed]|stuck]|] eqn:P;
      [| |discriminate];
      apply placeTask_spec in P; destruct P as (k & _ & Hout); cbv zeta in Hout.
    + apply IH in H.
      apply Committed_trans with (W2 := blocks (plan st1)).
      * destruct Hout as [(Ho & _)|[(_ & _ & _ & Hfree & Ho)|(_ & _ & Ho)]];
          [| |discriminate]; injection Ho as -> _; cbn [plan blocks].
        -- constructor.
        -- constructor; [constructor|exact Hfree|].
           exists task. eexists. split; [now left|reflexivity].
      * eapply Committed_impl; [|exact H]. cbv beta.
        intros b (t & c & Hin & ->). exists t, c. split; [now right|reflexivity].
    + injection H as <-. cbn [finalPlan].
      destruct (skipTasks_plan rest stuck) as (-> & _).
      destruct Hout as [(Ho & _)|[(_ & _ & _ & _ & Ho)|(_ & _ & Ho)]];
        [discriminate|discriminate|]. injection Ho as ->.
      cbn [stuck_plan blocks]. constructor.
Qed.

Lemma placeTasks_stuck (fuel : nat) (dayEnd : Date) :
  forall (tasks : list Task) (st : Sweep) (stuck : Stuck),
  placeTasks fuel dayEnd st tasks = Some (inr stuck) ->
  In (stuck_task stuck) tasks /\ stuck_start stuck < dayEnd /\
  newDate (stuck_start stuck + task_minutes (stuck_task stuck) * 60000) = None.
Proof.
  induction tasks as [|task rest IH]; intros st stuck H; cbn [placeTasks] in H.
  - discriminate.
  - destruct (placeTask fuel dayEnd st task) as [[[st1 placed]|stuck1]|] eqn:P;
      [| |discriminate].
    + apply IH in H. destruct H as (Hin & H). split; [now right|exact H].
    + injection H as <-.
      destruct (skipTasks_plan rest stuck1) as (_ & _ & _ & -> & ->).
      apply placeTask_spec in P. destruct P as (k & _ & Hout). cbv zeta in Hout.
      destruct Hout as [(Ho & _)|[(_ & _ & _ & _ & Ho)|(Hc & Hn & Ho)]];
        [discriminate|discriminate|]. injection Ho as ->.
      cbn [stuck_start stuck_task]. split; [now left|]. split; [exact Hc|exact Hn].
Qed.

Lemma tasksToPlace_In (tasks : list Task) (t : Task) :
  In t (tasksToPlace tasks) -> In t tasks.
Proof.
  unfold tasksToPlace, deepTasks, lightTasks. rewrite in_app_iff.
  intros [H|H]; now apply filter_In in H.
Qed.

Lemma placeFixedToFamily_committed (fuel : nat) (now : Date)
    (fixedEvents : list FixedEvent) (tasks : list Task) (p : Plan) :
  placeFixedToFamily fuel now fixedEvents = Some p ->
  Committed (PlacedKind tasks) (map (fixedBlock (baseDateOf now)) fixedEvents)
    (blocks p).
Proof.
  unfold placeFixedToFamily. cbv zeta. intro H.
  destruct (replyLoop _ _ _ _ _) as [st1|] eqn:R; [|discriminate].
  injection H as <-. apply replyLoop_committed in R. cbn [blocks] in R.
  unfold addFamily. cbn [blocks].
  eapply Committed_trans; [|eapply Committed_trans].
  - eapply Committed_impl; [|exact R]. unfold PlacedKind. cbv beta. auto.
  - eapply Committed_impl; [|apply placeLunch_committed].
    unfold PlacedKind. cbv beta. auto.
  - eapply Committed_impl; [|apply placeDinner_committed].
    unfold PlacedKind. cbv beta. auto.
Qed.

Lemma run_committed (fuel : nat) (now : Date) (fixedEvents : list FixedEvent)
    (tasks : list Task) (final : Sweep + Stuck) :
  run fuel now fixedEvents tasks = Some final ->
  Committed (PlacedKind tasks) (map (fixedBlock (baseDateOf now)) fixedEvents)
    (blocks (finalPlan final)).
Proof.
  unfold run. intro H.
  destruct (placeFixedToFamily fuel now fixedEvents) as [p|] eqn:F; [|discriminate].
  apply placeFixedToFamily_committed with (tasks := tasks) in F.
  apply placeTasks_committed in H. cbn [plan] in H.
  eapply Committed_trans; [exact F|].
  eapply Committed_impl; [|exact H]. cbv beta.
  intros b (t & c & Hin & ->). unfold PlacedKind. right. right. right.
  exists t, c. split; [now apply tasksToPlace_In|reflexivity].
Qed.

Lemma run_stuck (fuel : nat) (now : Date) (fixedEvents : list FixedEvent)
    (tasks : list Task) (stuck : Stuck) :
  run fuel now fixedEvents tasks = Some (inr stuck) ->
  In (stuck_task stuck) tasks /\
  stuck_start stuck < parseTime (clock "20:00") (baseDateOf now) /\
  newDate (stuck_start stuck + task_minutes (stuck_task stuck) * 60000) = None.
Proof.
  unfold run. intro H.
  destruct (placeFixedToFamily fuel now fixedEvents) as [p|]; [|discriminate].
  apply placeTasks_stuck in H. destruct H as (Hin & H).
  split; [now apply tasksToPlace_In|exact H].
Qed.

(** C1. The handler pushes the fixed events to the working set as they are,
    so the working set is free of overlap only as far as the fixed events
    are: every block pushed after them (reply window, lunch, dinner, backlog
    task) overlaps none of the blocks that were in the working set before
    it; hence, when no two fixed events overlap, no two blocks of the working
    set overlap at any point of the run (the working set only grows at its
    end, so at every point it is a prefix of the final one).  These are the
    blocks whose ends are Dates; a run that got stuck has pushed one more
    block, the last one, for a backlog task, with an Invalid Date for its
    end, with which the overlap test of the code is false for every block. *)
Theorem working_set_free_of_overlap_after_fixed (fuel : nat) (now : Date)
    (fixedEvents : list FixedEvent) (tasks : list Task) (final : Sweep + Stuck) :
  run fuel now fixedEvents tasks = Some final ->
  let fixed := map (fixedBlock (baseDateOf now)) fixedEvents in
  Committed (PlacedKind tasks) fixed (blocks (finalPlan final)) /\
  (exists later,
     blocks (finalPlan final) = fixed ++ later /\
     forall pre b post,
       later = pre ++ b :: post -> checkConflict b (fixed ++ pre) = false) /\
  (conflictFree fixed = true ->
   forall n, conflictFree (firstn n (blocks (finalPlan final))) = true) /\
  (forall stuck, final = inr stuck ->
     In (stuck_task stuck) tasks /\
     newDate (stuck_start stuck + task_minutes (stuck_task stuck) * 60000) = None).
Proof.
  intro H. cbv zeta. pose proof (run_committed _ _ _ _ _ H) as HC.
  split; [exact HC|]. split; [|split].
  - destruct (Committed_later _ _ _ HC) as (later & E & _ & Hfree). eauto.
  - intros Hfixed n. apply (Committed_conflictFree _ _ _ HC) in Hfixed.
    rewrite <- (firstn_skipn n (blocks (finalPlan final))) in Hfixed.
    now apply conflictFree_prefix in Hfixed.
  - intros stuck ->. apply run_stuck in H. tauto.
Qed.

Lemma working_set_free_of_overlap_after_fixed_witness :
  exists st,
    run 100 32400000
      [{| ev_start := clock "12:00"; ev_end := clock "13:00"; ev_title := "visit" |}]
      [exampleTask "draft" 60 "high"] = Some (inl st) /\
    conflictFree (blocks (plan st)) = true.
Proof.
  eexists. split; [vm_compute; reflexivity|].
  match goal with
  | |- conflictFree (blocks (plan ?s)) = true =>
      assert (R : run 100 32400000
                    [{| ev_start := clock "12:00"; ev_end := clock "13:00";
                        ev_title := "visit" |}]
                    [exampleTask "draft" 60 "high"] = Some (inl s))
        by (vm_compute; reflexivity)
  end.
  pose proof (working_set_free_of_overlap_after_fixed _ _ _ _ _ R) as H.
  cbv zeta in H. destruct H as (_ & _ & H & _).
  specialize (H eq_refl 100%nat). exact H.
Defined.

(** C1, as stated, fails: two fixed events that overlap (12:00-13:00 and
    12:30-13:30) are both in the working set. *)
Lemma overlapping_fixed_events_are_committed :
  exists st b1 b2,
    run 100 32400000
      [{| ev_start := clock "12:00"; ev_end := clock "13:00"; ev_title := "visit" |};
       {| ev_start := clock "12:30"; ev_end := clock "13:30"; ev_title := "call" |}]
      [] = Some (inl st) /\
    nth_error (blocks (plan st)) 0 = Some b1 /\
    nth_error (blocks (plan st)) 1 = Some b2 /\
    hasOverlap (start b1) (end_ b1) (start b2) (end_ b2) = true /\
    conflictFree (blocks (plan st)) = false.
Proof.
  do 3 eexists.
  split; [vm_compute; reflexivity|].
  split; [reflexivity|]. split; [reflexivity|].
  split; vm_compute; reflexivity.
Qed.

(** ** The response *)

Lemma insertSlot_perm (localeCompare : string -> string -> Z) (x : TimeSlot)
    (l : list TimeSlot) :
  Permutation (insertSlot localeCompare x l) (x :: l).
Proof.
  induction l as [|y l IH]; cbn [insertSlot]; [reflexivity|].
  destruct (localeCompare (slot_start x) (slot_start y) <? 0); [reflexivity|].
  rewrite IH. apply perm_swap.
Qed.

Lemma sortSlots_perm (localeCompare : string -> string -> Z) (l : list TimeSlot) :
  Permutation (sortSlots localeCompare l) l.
Proof.
  unfold sortSlots.
  assert (G : forall acc,
    Permutation (fold_left (fun sorted x => insertSlot localeCompare x sorted) l acc)
      (acc ++ l)).
  { induction l as [|x l IH]; intro acc; cbn [fold_left].
    - now rewrite app_nil_r.
    - rewrite IH, insertSlot_perm. apply Permutation_middle. }
  apply (G []).
Qed.

Lemma familySlot_out (baseDate : Date) : familySlot baseDate = familySlotOut.
Proof.
  unfold familySlot, familySlotOut. cbv zeta. rewrite !formatTime_eq.
  rewrite !parseTime_fields. cbn [clockFields fst snd].
  assert (H20 : getHours (Day baseDate * msPerDay + 20 * msPerHour + 0 * msPerMinute) = 20).
  { unfold getHours, Day, msPerDay, msPerHour, msPerMinute.
    Z.div_mod_to_equations. lia. }
  assert (M20 : getMinutes (Day baseDate * msPerDay + 20 * msPerHour + 0 * msPerMinute) = 0).
  { unfold getMinutes, Day, msPerDay, msPerHour, msPerMinute.
    Z.div_mod_to_equations. lia. }
  assert (H24 : getHours (Day baseDate * msPerDay + 24 * msPerHour + 0 * msPerMinute) = 0).
  { unfold getHours, Day, msPerDay, msPerHour, msPerMinute.
    Z.div_mod_to_equations. lia. }
  assert (M24 : getMinutes (Day baseDate * msPerDay + 24 * msPerHour + 0 * msPerMinute) = 0).
  { unfold getMinutes, Day, msPerDay, msPerHour, msPerMinute.
    Z.div_mod_to_equations. lia. }
  rewrite H20, M20, H24, M24. reflexivity.
Qed.

Lemma placeTasks_result_grows (fuel : nat) (dayEnd : Date) :
  forall (tasks : list Task) (st : Sweep) (final : Sweep + Stuck),
  placeTasks fuel dayEnd st tasks = Some final ->
  exists more, result (finalPlan final) = result (plan st) ++ more.
Proof.
  induction tasks as [|task rest IH]; intros st final H; cbn [placeTasks] in H.
  - injection H as <-. exists []. cbn [finalPlan]. now rewrite app_nil_r.
  - destruct (placeTask fuel dayEnd st task) as [[[st1 placed]|stuck]|] eqn:P;
      [| |discriminate];
      apply placeTask_spec in P; destruct P as (k & _ & Hout); cbv zeta in Hout.
    + apply IH in H. destruct H as (more & ->).
      destruct Hout as [(Ho & _)|[(_ & _ & _ & _ & Ho)|(_ & _ & Ho)]];
        [| |discriminate]; injection Ho as -> _; cbn [plan result].
      * eauto.
      * rewrite <- app_assoc. eauto.
    + injection H as <-. cbn [finalPlan].
      destruct (skipTasks_plan rest stuck) as (_ & -> & _).
      destruct Hout as [(Ho & _)|[(_ & _ & _ & _ & Ho)|(_ & _ & Ho)]];
        [discriminate|discriminate|]. injection Ho as ->.
      cbn [stuck_plan result]. eauto.
Qed.

(** C8. The response of every run carries the family-time slot, with start
    clock 20:00 and end clock 00:00 (the way [formatTime] writes the 24:00
    that closes the day); the step that adds it leaves the working set and
    the warnings as they are, and every block of the working set of the run
    is a fixed event, a reply window, lunch, dinner or the block of a backlog
    task. *)
Theorem family_slot_always_in_response (localeCompare : string -> string -> Z)
    (fuel : nat) (now : Date) (fixedEvents : list FixedEvent) (tasks : list Task)
    (r : GenerationResult) :
  generate localeCompare fuel now fixedEvents tasks = Some r ->
  In familySlotOut (schedule r) /\
  (forall baseDate st,
     result (addFamily baseDate st) = result st ++ [familySlotOut] /\
     blocks (addFamily baseDate st) = blocks st /\
     warnings (addFamily baseDate st) = warnings st) /\
  (exists final later,
     run fuel now fixedEvents tasks = Some final /\
     blocks (finalPlan final)
     = map (fixedBlock (baseDateOf now)) fixedEvents ++ later /\
     Forall (PlacedKind tasks) later).
Proof.
  unfold generate. intro H.
  destruct (run fuel now fixedEvents tasks) as [final|] eqn:R; [|discriminate].
  injection H as <-. cbn [schedule].
  split; [|split].
  - apply (Permutation_in _ (Permutation_sym (sortSlots_perm _ _))).
    unfold run in R.
    destruct (placeFixedToFamily fuel now fixedEvents) as [p|] eqn:F; [|discriminate].
    apply placeTasks_result_grows in R. destruct R as (more & ->). cbn [plan].
    unfold placeFixedToFamily in F. cbv zeta in F.
    destruct (replyLoop _ _ _ _ _) as [st1|]; [|discriminate].
    injection F as <-. unfold addFamily. cbn [result].
    rewrite familySlot_out, !in_app_iff. left. right. now left.
  - intros baseDate st0. unfold addFamily. cbn [result blocks warnings].
    now rewrite familySlot_out.
  - apply run_committed in R.
    destruct (Committed_later _ _ _ R) as (later & E & HF & _).
    exists final, later. auto.
Qed.

Lemma family_slot_always_in_response_witness :
  exists r,
    generate characterOrder 100 32400000 [] [] = Some r /\
    In familySlotOut (schedule r).
Proof.
  eexists. split; [vm_compute; reflexivity|].
  match goal with
  | |- In _ (schedule ?x) =>
      assert (G : generate characterOrder 100 32400000 [] [] = Some x)
        by (vm_compute; reflexivity)
  end.
  exact (proj1 (family_slot_always_in_response _ _ _ _ _ _ G)).
Defined.

(** C8, as stated, fails: the family-time slot of the response does not end
    at the clock string 24:00; its end is written 00:00. *)
Lemma family_slot_end_is_written_0000 :
  exists r,
    generate characterOrder 100 32400000 [] [] = Some r /\
    forall s, In s (schedule r) -> slot_type s = "family" ->
      slot_start s = "20:00" /\ slot_end s = "00:00" /\ slot_end s <> "24:00".
Proof.
  eexists. split; [vm_compute; reflexivity|].
  intros s Hin Ht. cbn [schedule In] in Hin.
  repeat (destruct Hin as [<-|Hin]; [try discriminate Ht|]); [|contradiction].
  repeat split; discriminate.
Qed.

(** ** Termination *)

Lemma replyLoop_total (planStart endOfDay : Date) :
  forall (m : nat) (t : Date) (st : Plan),
  endOfDay - t <= Z.of_nat m * (replyInterval * 60000) ->
  exists st',
    forall fuel, (m < fuel)%nat ->
      replyLoop fuel planStart endOfDay t st = Some st'.
Proof.
  unfold replyInterval.
  induction m as [|m IH]; intros t st Hm.
  - exists st. intros fuel Hf. destruct fuel as [|fuel]; [lia|].
    cbn [replyLoop].
    replace (t <? endOfDay) with false by (symmetry; apply Z.ltb_ge; lia).
    reflexivity.
  - destruct (t <? endOfDay) eqn:E.
    + destruct (IH (t + 3 * 60 * 60000) (replyPass planStart endOfDay t st)
                  ltac:(lia)) as (st' & Hst').
      exists st'. intros fuel Hf. destruct fuel as [|fuel]; [lia|].
      cbn [replyLoop]. rewrite E. apply Hst'. lia.
    + exists st. intros fuel Hf. destruct fuel as [|fuel]; [lia|].
      cbn [replyLoop]. now rewrite E.
Qed.

Lemma whileLoop_total (task : Task) (dayEnd : Date) :
  forall (m : nat) (st : Sweep) (placed : bool),
  dayEnd - currentTime st <= Z.of_nat m * (15 * 60000) ->
  exists out,
    forall fuel, (S m < fuel)%nat ->
      whileLoop fuel task dayEnd st placed = Some out.
Proof.
  assert (Hexit : forall st placed,
    (currentTime st <? dayEnd) && negb placed = false ->
    forall fuel, (0 < fuel)%nat ->
      whileLoop fuel task dayEnd st placed = Some (inl (st, placed))).
  { intros st placed E fuel Hf. destruct fuel as [|fuel]; [lia|].
    cbn [whileLoop]. now rewrite E. }
  induction m as [|m IH]; intros st placed Hm.
  - exists (inl (st, placed)). intros fuel Hf. apply Hexit; [|lia].
    replace (currentTime st <? dayEnd) with false
      by (symmetry; apply Z.ltb_ge; lia).
    reflexivity.
  - destruct ((currentTime st <? dayEnd) && negb placed) eqn:E.
    + destruct (newDate (currentTime st + task_minutes task * 60000))
        as [taskEnd|] eqn:N.
      * destruct (dayEnd <? taskEnd) eqn:E1.
        -- exists (inl (st, placed)). intros fuel Hf.
           destruct fuel as [|fuel]; [lia|].
           cbn [whileLoop]. now rewrite E, N, E1.
        -- destruct (negb (checkConflict
                             {| start := currentTime st;
                                end_ := taskEnd;
                                title := task_title task;
                                type_ := task_category task;
                                minutes := task_minutes task |}
                             (blocks (plan st)))) eqn:E2.
           ++ eexists. intros fuel Hf. destruct fuel as [|fuel]; [lia|].
              cbn [whileLoop]. rewrite E, N, E1, E2.
              apply Hexit; [|lia]. apply andb_false_r.
           ++ destruct (IH {| plan := plan st;
                              currentTime := currentTime st + 15 * 60000 |}
                           placed ltac:(cbn [currentTime]; lia)) as (r & Hr).
              exists r. intros fuel Hf. destruct fuel as [|fuel]; [lia|].
              cbn [whileLoop]. rewrite E, N, E1, E2. apply Hr. lia.
      * eexists. intros fuel Hf. destruct fuel as [|fuel]; [lia|].
        cbn [whileLoop]. rewrite E, N. reflexivity.
    + exists (inl (st, placed)). intros fuel Hf. apply Hexit; [exact E|lia].
Qed.

Lemma placeTask_total (dayEnd : Date) (st : Sweep) (task : Task) :
  exists n out,
    forall fuel, (n <= fuel)%nat -> placeTask fuel dayEnd st task = Some out.
Proof.
  destruct (whileLoop_total task dayEnd (Z.to_nat (dayEnd - currentTime st))
              st false ltac:(lia)) as ([[st1 placed]|stuck] & Hr).
  - exists (S (S (Z.to_nat (dayEnd - currentTime st)))).
    destruct placed; eexists; intros fuel Hf; unfold placeTask;
      rewrite Hr by lia; reflexivity.
  - exists (S (S (Z.to_nat (dayEnd - currentTime st)))).
    eexists; intros fuel Hf; unfold placeTask; rewrite Hr by lia; reflexivity.
Qed.

Lemma placeTasks_total (dayEnd : Date) :
  forall (tasks : list Task) (st : Sweep),
  exists n final,
    forall fuel, (n <= fuel)%nat -> placeTasks fuel dayEnd st tasks = Some final.
Proof.
  induction tasks as [|task rest IH]; intro st.
  - exists 0%nat, (inl st). reflexivity.
  - destruct (placeTask_total dayEnd st task) as (n1 & [[st1 placed]|stuck] & H1).
    + destruct (IH st1) as (n2 & final & H2).
      exists (Nat.max n1 n2), final. intros fuel Hf. cbn [placeTasks].
      rewrite H1 by lia. apply H2. lia.
    + exists n1. eexists. intros fuel Hf. cbn [placeTasks].
      rewrite H1 by lia. reflexivity.
Qed.

Lemma placeFixedToFamily_total (now : Date) (fixedEvents : list FixedEvent) :
  exists n p,
    forall fuel, (n <= fuel)%nat ->
      placeFixedToFamily fuel now fixedEvents = Some p.
Proof.
  unfold placeFixedToFamily. cbv zeta.
  destruct (replyLoop_total (planStartOf now)
              (parseTime (clock "20:00") (baseDateOf now))
              (Z.to_nat (parseTime (clock "20:00") (baseDateOf now) - planStartOf now))
              (planStartOf now)
              {| blocks := map (fixedBlock (baseDateOf now)) fixedEvents;
                 result := map fixedSlot fixedEvents; warnings := [] |})
    as (st' & Hst').
  { unfold replyInterval. lia. }
  exists (S (Z.to_nat (parseTime (clock "20:00") (baseDateOf now) - planStartOf now))).
  eexists. intros fuel Hf. rewrite Hst' by lia. reflexivity.
Qed.

Lemma run_total (now : Date) (fixedEvents : list FixedEvent) (tasks : list Task) :
  exists n final,
    forall fuel, (n <= fuel)%nat -> run fuel now fixedEvents tasks = Some final.
Proof.
  destruct (placeFixedToFamily_total now fixedEvents) as (n1 & p & H1).
  destruct (placeTasks_total (parseTime (clock "20:00") (baseDateOf now))
              (tasksToPlace tasks)
              {| plan := p; currentTime := planStartOf now |}) as (n2 & final & H2).
  exists (Nat.max n1 n2), final. intros fuel Hf. unfold run.
  rewrite H1 by lia. apply H2. lia.
Qed.

(** ** The warnings and the slots of a run *)

Lemma placeTasks_outcomes (fuel : nat) (dayEnd : Date) :
  forall (tasks : list Task) (st : Sweep) (final : Sweep + Stuck),
  placeTasks fuel dayEnd st tasks = Some final ->
  exists outcomes : list (Task * option TimeSlot),
    map fst outcomes = tasks /\
    result (finalPlan final) = result (plan st) ++ outcomeSlots outcomes /\
    warnings (finalPlan final) = warnings (plan st) ++ outcomeWarnings outcomes /\
    Forall (fun o => forall s, snd o = Some s ->
                       slot_title s = taskLabel (fst o) /\
                       slot_type s = task_category (fst o)) outcomes.
Proof.
  induction tasks as [|task rest IH]; intros st final H; cbn [placeTasks] in H.
  - injection H as <-. exists []. cbn [finalPlan]. unfold outcomeSlots, outcomeWarnings.
    cbn [map flat_map]. rewrite !app_nil_r. repeat split. constructor.
  - destruct (placeTask fuel dayEnd st task) as [[[st1 placed]|stuck]|] eqn:P;
      [| |discriminate];
      apply placeTask_spec in P; destruct P as (k & _ & Hout); cbv zeta in Hout.
    + apply IH in H. destruct H as (outcomes & Hmap & Hr & Hw & HF).
      destruct Hout as [(Ho & _)|[(_ & _ & _ & _ & Ho)|(_ & _ & Ho)]];
        [| |discriminate]; injection Ho as -> _;
        cbn [plan result warnings] in Hr, Hw.
      * exists ((task, None) :: outcomes).
        unfold outcomeSlots, outcomeWarnings in *.
        cbn [map fst snd flat_map slotOf warningOf app].
        rewrite Hmap, Hr, Hw, <- app_assoc. repeat split.
        constructor; [discriminate|exact HF].
      * eexists ((task, Some _) :: outcomes).
        unfold outcomeSlots, outcomeWarnings in *.
        cbn [map fst snd flat_map slotOf warningOf app].
        rewrite Hmap, Hr, Hw, <- app_assoc. cbn [app].
        split; [reflexivity|]. split; [reflexivity|]. split; [reflexivity|].
        constructor; [|exact HF]. intros s [= <-]. split; reflexivity.
    + injection H as <-. cbn [finalPlan].
      destruct (skipTasks_plan rest stuck) as (_ & -> & -> & _).
      destruct Hout as [(Ho & _)|[(_ & _ & _ & _ & Ho)|(_ & _ & Ho)]];
        [discriminate|discriminate|]. injection Ho as ->.
      cbn [stuck_plan result warnings].
      eexists ((task, Some _) :: map (fun t => (t, None)) rest).
      unfold outcomeSlots, outcomeWarnings.
      cbn [map fst snd flat_map slotOf warningOf app].
      rewrite map_map. cbn [fst]. rewrite map_id.
      split; [reflexivity|].
      assert (E1 : forall l : list Task,
                flat_map (fun o : Task * option TimeSlot => slotOf (snd o))
                  (map (fun t => (t, None)) l) = []).
      { induction l as [|t l IHl]; cbn [map flat_map snd slotOf app]; auto. }
      assert (E2 : forall l : list Task,
                flat_map (fun o : Task * option TimeSlot =>
                            warningOf (snd o) (taskWarning (fst o)))
                  (map (fun t => (t, None)) l) = map taskWarning l).
      { induction l as [|t l IHl]; cbn [map flat_map snd fst warningOf app];
          [reflexivity|now rewrite IHl]. }
      rewrite E1, E2. split; [reflexivity|]. split; [reflexivity|].
      constructor.
      * intros s [= <-]. split; reflexivity.
      * apply Forall_forall. intros o Hin. apply in_map_iff in Hin.
        destruct Hin as (t & <- & _). discriminate.
Qed.

Lemma replyPass_slots (planStart endOfDay t : Date) (st : Plan) :
  exists replies,
    result (replyPass planStart endOfDay t st) = result st ++ replies /\
    warnings (replyPass planStart endOfDay t st) = warnings st /\
    Forall (fun s => slot_type s = "reply") replies /\
    (checkConflict (replyBlockAt t) (blocks st) = false ->
     replies = [replySlotAt t]).
Proof.
  unfold replyPass, replyBlockFor. cbv zeta.
  fold (replyBlockAt t).
  destruct (checkConflict (replyBlockAt t) (blocks st)) eqn:E.
  - match goal with
    | |- context [if negb ?b then _ else _] => destruct b
    end; cbn [negb result warnings].
    + exists []. rewrite app_nil_r. repeat split; [constructor|discriminate].
    + eexists [_]. split; [reflexivity|]. split; [reflexivity|].
      split; [now repeat constructor|discriminate].
  - rewrite E. cbn [negb result warnings].
    exists [replySlotAt t]. repeat split. now repeat constructor.
Qed.

Lemma replyLoop_slots (fuel : nat) (planStart endOfDay : Date) :
  forall (t : Date) (st st' : Plan),
  replyLoop fuel planStart endOfDay t st = Some st' ->
  exists replies,
    result st' = result st ++ replies /\
    warnings st' = warnings st /\
    Forall (fun s => slot_type s = "reply") replies /\
    (t < endOfDay -> checkConflict (replyBlockAt t) (blocks st) = false ->
     In (replySlotAt t) replies).
Proof.
  induction fuel as [|fuel IH]; intros t st st' H; [discriminate|].
  cbn [replyLoop] in H. destruct (t <? endOfDay) eqn:E.
  - apply IH in H. destruct H as (more & Hr & Hw & HF & _).
    destruct (replyPass_slots planStart endOfDay t st) as (first & Hr1 & Hw1 & HF1 & H1).
    exists (first ++ more). rewrite Hr, Hr1, Hw, Hw1, app_assoc.
    repeat split; [now apply Forall_app|].
    intros _ Hfree. rewrite (H1 Hfree). now left.
  - injection H as <-. exists []. rewrite app_nil_r.
    repeat split; [constructor|]. apply Z.ltb_ge in E. lia.
Qed.

Lemma placeFixedToFamily_slots (fuel : nat) (now : Date)
    (fixedEvents : list FixedEvent) (p : Plan) :
  placeFixedToFamily fuel now fixedEvents = Some p ->
  exists (replies : list TimeSlot) (lunch dinner : option TimeSlot),
    result p
    = map fixedSlot fixedEvents ++ replies ++ slotOf lunch ++ slotOf dinner
      ++ [familySlotOut] /\
    warnings p = warningOf lunch lunchWarning ++ warningOf dinner dinnerWarning /\
    Forall (fun s => slot_type s = "reply") replies /\
    (planStartOf now < parseTime (clock "20:00") (baseDateOf now) ->
     checkConflict (replyBlockAt (planStartOf now))
       (map (fixedBlock (baseDateOf now)) fixedEvents) = false ->
     In (replySlotAt (planStartOf now)) replies) /\
    (forall s, lunch = Some s -> slot_type s = "lunch") /\
    (forall s, dinner = Some s -> slot_type s = "dinner").
Proof.
  unfold placeFixedToFamily. cbv zeta. intro H.
  destruct (replyLoop _ _ _ _ _) as [st1|] eqn:R; [|discriminate].
  injection H as <-. apply replyLoop_slots in R. cbn [result warnings blocks] in R.
  destruct R as (replies & Hr & Hw & HF & Hfirst).
  unfold addFamily, placeDinner, placeLunch. cbv zeta. cbn [result warnings].
  rewrite familySlot_out.
  destruct (findAvailableSlot _ 60 (blocks st1) _ _) as [ls|];
    cbn [blocks result warnings];
    match goal with
    | |- context [findDinnerSlot ?d ?W] => destruct (findDinnerSlot d W) as [ds|]
    end; cbn [result warnings]; rewrite Hr, Hw; cbn [app].
  - eexists replies, (Some _), (Some _). cbn [slotOf warningOf app].
    rewrite <- !app_assoc. cbn [app].
    repeat split; trivial; intros s [= <-]; reflexivity.
  - eexists replies, (Some _), None. cbn [slotOf warningOf app].
    rewrite <- !app_assoc. cbn [app].
    repeat split; trivial; intros s [= <-]; reflexivity.
  - eexists replies, None, (Some _). cbn [slotOf warningOf app].
    rewrite <- !app_assoc. cbn [app].
    repeat split; trivial; intros s [= <-]; reflexivity.
  - exists replies, None, None. cbn [slotOf warningOf app].
    rewrite <- !app_assoc. cbn [app].
    repeat split; trivial; intros s [= <-]; reflexivity.
Qed.

(** C2. Every run ends: for every invocation time, list of fixed events and
    backlog there is an amount of fuel from which [generate] returns one and
    the same response.  The response is complete.  Its schedule is, up to
    the final sort, the slot of every fixed event, the slots of the reply
    windows that found a place, the lunch slot, the dinner slot, the
    family-time slot and the slots of the backlog tasks; its warnings are
    the lunch warning exactly when there is no lunch slot, the dinner warning
    exactly when there is no dinner slot, and for every backlog task without
    a slot the warning of that task.  A reply window gives no warning when
    it is dropped: the reply window at planStart is in the schedule whenever
    it is free of conflict with the fixed events, and nothing more is said
    of the others. *)
Theorem generate_always_returns (localeCompare : string -> string -> Z)
    (now : Date) (fixedEvents : list FixedEvent) (tasks : list Task) :
  exists n r,
    (forall fuel, (n <= fuel)%nat ->
       generate localeCompare fuel now fixedEvents tasks = Some r) /\
    metadata r = metadataOf now /\
    exists (replies : list TimeSlot) (lunch dinner : option TimeSlot)
           (outcomes : list (Task * option TimeSlot)),
      Permutation (schedule r)
        (map fixedSlot fixedEvents ++ replies ++ slotOf lunch ++ slotOf dinner
         ++ [familySlotOut] ++ outcomeSlots outcomes) /\
      res_warnings r
      = warningOf lunch lunchWarning ++ warningOf dinner dinnerWarning
        ++ outcomeWarnings outcomes /\
      Forall (fun s => slot_type s = "reply") replies /\
      (planStartOf now < parseTime (clock "20:00") (baseDateOf now) ->
       checkConflict (replyBlockAt (planStartOf now))
         (map (fixedBlock (baseDateOf now)) fixedEvents) = false ->
       In (replySlotAt (planStartOf now)) replies) /\
      (forall s, lunch = Some s -> slot_type s = "lunch") /\
      (forall s, dinner = Some s -> slot_type s = "dinner") /\
      map fst outcomes = tasksToPlace tasks /\
      Forall (fun o => forall s, snd o = Some s ->
                         slot_title s = taskLabel (fst o) /\
                         slot_type s = task_category (fst o)) outcomes.
Proof.
  destruct (run_total now fixedEvents tasks) as (n & final & Hrun).
  exists n. eexists. split; [|split].
  - intros fuel Hf. unfold generate. rewrite (Hrun fuel Hf). reflexivity.
  - reflexivity.
  - specialize (Hrun n (Nat.le_refl n)). unfold run in Hrun.
    destruct (placeFixedToFamily n now fixedEvents) as [p|] eqn:F; [|discriminate].
    destruct (placeTasks_outcomes _ _ _ _ _ Hrun) as (outcomes & Hmap & Hr & Hw & HF).
    destruct (placeFixedToFamily_slots _ _ _ _ F)
      as (replies & lunch & dinner & Hp & Hpw & Hreply & Hfirst & Hl & Hd).
    cbn [plan] in *.
    exists replies, lunch, dinner, outcomes. cbn [schedule res_warnings].
    split.
    { rewrite sortSlots_perm, Hr, Hp, <- !app_assoc. reflexivity. }
    split; [now rewrite Hw, Hpw, <- app_assoc|].
    repeat split; trivial.
Qed.

Lemma generate_always_returns_witness :
  exists n r,
    generate characterOrder n 32400000 [] [exampleTask "draft" 60 "high"] = Some r.
Proof.
  destruct (generate_always_returns characterOrder 32400000 []
              [exampleTask "draft" 60 "high"])
    as (n & r & H & _).
  exists n, r. apply H. apply Nat.le_refl.
Defined.

(** C2, as stated, fails: not every failure surfaces as a warning.  In a run
    started at 09:00 with a fixed event from 07:00 to 11:00 the reply window
    of 09:15 finds no place (the pass of the reply loop at 09:15 leaves the
    arrays as they are), and the response has no warning at all: its reply
    slots are those of 12:15, 15:15 and 18:15. *)
Lemma dropped_reply_window_gives_no_warning :
  exists r,
    generate characterOrder 100 32400000
      [{| ev_start := clock "07:00"; ev_end := clock "11:00";
          ev_title := "workshop" |}] [] = Some r /\
    planStartOf 32400000 = 33300000 /\
    replyPass 33300000 (parseTime (clock "20:00") (baseDateOf 32400000)) 33300000
      {| blocks :=
           map (fixedBlock (baseDateOf 32400000))
             [{| ev_start := clock "07:00"; ev_end := clock "11:00";
                 ev_title := "workshop" |}];
         result :=
           map fixedSlot
             [{| ev_start := clock "07:00"; ev_end := clock "11:00";
                 ev_title := "workshop" |}];
         warnings := [] |}
    = {| blocks :=
           map (fixedBlock (baseDateOf 32400000))
             [{| ev_start := clock "07:00"; ev_end := clock "11:00";
                 ev_title := "workshop" |}];
         result :=
           map fixedSlot
             [{| ev_start := clock "07:00"; ev_end := clock "11:00";
                 ev_title := "workshop" |}];
         warnings := [] |} /\
    map slot_start (filter (fun s => String.eqb (slot_type s) "reply") (schedule r))
    = ["12:15"; "15:15"; "18:15"] /\
    res_warnings r = [].
Proof.
  eexists. split; [vm_compute; reflexivity|].
  split; [reflexivity|]. split; [vm_compute; reflexivity|].
  split; reflexivity.
Qed.

(** * Further properties of the scheduler *)

(** ** Time utilities *)

(** X1. Two intervals that meet end to start do not overlap, the test is
    symmetric, and for two intervals that are not empty it holds exactly when
    they share an instant. *)
Theorem hasOverlap_shared_instant (s1 e1 s2 e2 : Date) :
  hasOverlap s1 e1 e1 e2 = false /\
  hasOverlap s1 e1 s2 e2 = hasOverlap s2 e2 s1 e1 /\
  (s1 < e1 -> s2 < e2 ->
   (hasOverlap s1 e1 s2 e2 = true <->
    exists x, (s1 <= x < e1) /\ (s2 <= x < e2))).
Proof.
  split; [|split].
  - unfold hasOverlap. rewrite Z.ltb_irrefl. apply andb_false_r.
  - unfold hasOverlap. apply andb_comm.
  - intros H1 H2. unfold hasOverlap.
    rewrite andb_true_iff, !Z.ltb_lt. split.
    + intros [Ha Hb]. exists (Z.max s1 s2). lia.
    + intros (x & Hx1 & Hx2). lia.
Qed.

Lemma hasOverlap_shared_instant_witness :
  hasOverlap 0 10 5 20 = true <-> exists x, (0 <= x < 10) /\ (5 <= x < 20).
Proof.
  apply (proj2 (proj2 (hasOverlap_shared_instant 0 10 5 20))); lia.
Defined.

(** X2. [ceil15] rounds up by less than a quarter of an hour to a time whose
    minute is a multiple of 15, applying it twice changes nothing, and on a
    time with no seconds and no milliseconds the result is the least
    quarter-hour boundary at or after the time. *)
Theorem ceil15_rounds_up (t : Date) :
  (t <= ceil15 t < t + 15 * 60000) /\
  getMinutes (ceil15 t) mod 15 = 0 /\
  ceil15 (ceil15 t) = ceil15 t /\
  (getSeconds t = 0 -> getMilliseconds t = 0 ->
   ceil15 t mod (15 * 60000) = 0 /\
   forall b, b mod (15 * 60000) = 0 -> t <= b -> ceil15 t <= b).
Proof.
  split; [apply ceil15_bounds|]. split; [apply ceil15_quarter_minute|].
  split; [apply ceil15_idempotent|].
  intros Hs Hms. apply ceil15_least_on_whole_minutes.
  unfold getSeconds, getMilliseconds, msPerSecond in *.
  Z.div_mod_to_equations. lia.
Qed.

Lemma ceil15_rounds_up_witness :
  ceil15 32460000 mod (15 * 60000) = 0 /\
  forall b, b mod (15 * 60000) = 0 -> 32460000 <= b -> ceil15 32460000 <= b.
Proof.
  apply (proj2 (proj2 (proj2 (ceil15_rounds_up 32460000)))); reflexivity.
Defined.

(** X3. The plan never starts less than 15 minutes after the invocation and
    always starts less than 30 minutes after it, at a minute that is a
    multiple of 15. *)
Theorem planStart_window (now : Date) :
  (now + 15 * 60000 <= planStartOf now < now + 30 * 60000) /\
  getMinutes (planStartOf now) mod 15 = 0.
Proof.
  unfold planStartOf. cbv zeta.
  pose proof (ceil15_bounds (now + 15 * 60000)).
  split; [lia|apply ceil15_quarter_minute].
Qed.

(** X4. [formatTime] drops the seconds and milliseconds: a clock string with
    the text of [formatTime t], parsed on a base date of the day of [t], is
    the start of the minute of [t]; and two times of the same minute are
    formatted alike. *)
Theorem parseTime_formatTime_start_of_minute (t baseDate : Date) (c : Clock) :
  Day baseDate = Day t -> clockText c = formatTime t ->
  parseTime c baseDate = t - t mod 60000 /\
  formatTime (t - t mod 60000) = formatTime t.
Proof.
  intros Hday Hc. split.
  - unfold parseTime.
    pose proof (clockReads c) as R. rewrite Hc, readClock_formatTime in R.
    injection R as R. rewrite <- R. unfold setHours. rewrite Hday.
    unfold MakeDate, MakeTime, Day, getHours, getMinutes, msPerDay, msPerHour,
      msPerMinute, msPerSecond.
    Z.div_mod_to_equations. lia.
  - rewrite !formatTime_eq.
    assert (Hh : getHours (t - t mod 60000) = getHours t).
    { unfold getHours, msPerHour. f_equal. Z.div_mod_to_equations. lia. }
    assert (Hm : getMinutes (t - t mod 60000) = getMinutes t).
    { unfold getMinutes, msPerMinute. f_equal. Z.div_mod_to_equations. lia. }
    now rewrite Hh, Hm.
Qed.

Lemma parseTime_formatTime_start_of_minute_witness :
  parseTime (clock "09:30") 30000000 = 34215500 - 34215500 mod 60000.
Proof.
  apply (proj1 (parseTime_formatTime_start_of_minute 34215500 30000000
                  (clock "09:30") eq_refl eq_refl)).
Defined.

(** ** The backlog order and the final sort *)

Lemma filter_partition_perm (A : Type) (f g : A -> bool) (l : list A) :
  (forall x, g x = negb (f x)) -> Permutation (filter f l ++ filter g l) l.
Proof.
  intro Hg. induction l as [|x l IH]; cbn [filter]; [constructor|].
  rewrite (Hg x). destruct (f x); cbn [negb app].
  - now constructor.
  - rewrite <- Permutation_middle. now constructor.
Qed.

(** X5. The backlog is only reordered, never shortened or lengthened: the
    list the sweep works through is a permutation of the tasks, with every
    task of 45 minutes or more before every shorter one. *)
Theorem tasksToPlace_partition (tasks : list Task) :
  Permutation (tasksToPlace tasks) tasks /\
  tasksToPlace tasks = deepTasks tasks ++ lightTasks tasks /\
  Forall (fun t => 45 <= task_minutes t) (deepTasks tasks) /\
  Forall (fun t => task_minutes t < 45) (lightTasks tasks).
Proof.
  split; [|split; [reflexivity|split]].
  - unfold tasksToPlace, deepTasks, lightTasks.
    apply filter_partition_perm. intro t. cbv beta.
    destruct (45 <=? task_minutes t) eqn:E; cbn [negb].
    + apply Z.leb_le in E. apply Z.ltb_ge. lia.
    + apply Z.leb_gt in E. now apply Z.ltb_lt.
  - apply Forall_forall. intros t Ht. apply filter_In in Ht.
    now apply Z.leb_le.
  - apply Forall_forall. intros t Ht. apply filter_In in Ht.
    now apply Z.ltb_lt.
Qed.

Section FinalSort.
Variable localeCompare : string -> string -> Z.
(** Swapping the arguments of the comparator swaps the sign of its result,
    as far as the sort needs it. *)
Hypothesis localeCompare_swap :
  forall a b, 0 <= localeCompare a b -> localeCompare b a <= 0.

Lemma insertSlot_sorted (x : TimeSlot) (l : list TimeSlot) :
  Sorted (startNotAfter localeCompare) l ->
  Sorted (startNotAfter localeCompare) (insertSlot localeCompare x l).
Proof.
  induction l as [|y l IH]; intro Hs; cbn [insertSlot].
  - repeat constructor.
  - destruct (localeCompare (slot_start x) (slot_start y) <? 0) eqn:E.
    + constructor; [exact Hs|]. constructor. unfold startNotAfter.
      apply Z.ltb_lt in E. lia.
    + apply Z.ltb_ge in E.
      inversion Hs as [|? ? Hs' Hhd]; subst.
      constructor; [now apply IH|].
      destruct l as [|z l]; cbn [insertSlot].
      * constructor. now apply localeCompare_swap.
      * destruct (localeCompare (slot_start x) (slot_start z) <? 0).
        -- constructor. now apply localeCompare_swap.
        -- inversion Hhd; subst. now constructor.
Qed.

(** X6. The final sort only reorders the slots, and leaves them in
    nondecreasing order of their start strings by the comparator of the
    host, for every comparator whose result changes its sign when its
    arguments are swapped. *)
Theorem sortSlots_sorted (slots : list TimeSlot) :
  Sorted (startNotAfter localeCompare) (sortSlots localeCompare slots) /\
  Permutation (sortSlots localeCompare slots) slots.
Proof.
  split; [|apply sortSlots_perm].
  unfold sortSlots.
  assert (G : forall acc, Sorted (startNotAfter localeCompare) acc ->
    Sorted (startNotAfter localeCompare)
      (fold_left (fun sorted x => insertSlot localeCompare x sorted) slots acc)).
  { induction slots as [|x l IH]; intros acc Hacc; cbn [fold_left]; [exact Hacc|].
    apply IH. now apply insertSlot_sorted. }
  apply G. constructor.
Qed.
End FinalSort.

Lemma sortSlots_sorted_witness :
  Sorted (startNotAfter characterOrder)
    (sortSlots characterOrder
       [{| slot_start := "12:15"; slot_end := "12:30"; slot_title := "reply";
           slot_type := "reply"; slot_color := "#3b82f6" |};
        {| slot_start := "09:15"; slot_end := "10:15"; slot_title := "draft";
           slot_type := "now"; slot_color := "#3b82f6" |}]).
Proof.
  refine (proj1 (sortSlots_sorted characterOrder _ _)).
  intros a b. unfold characterOrder. rewrite (String.compare_antisym b a).
  destruct (String.compare a b); cbn [CompOpp]; lia.
Defined.

(** ** Reply windows, lunch and dinner *)

Lemma replyPass_shape (planStart endOfDay t : Date) (st : Plan) :
  planStart <= t < endOfDay ->
  let st' := replyPass planStart endOfDay t st in
  warnings st' = warnings st /\
  ((blocks st' = blocks st /\ result st' = result st) \/
   exists b,
     blocks st' = blocks st ++ [b] /\
     List.length (result st') = S (List.length (result st)) /\
     ReplyShape planStart endOfDay b /\ checkConflict b (blocks st) = false).
Proof.
  intros Ht. cbv zeta. unfold replyPass. cbv zeta.
  destruct (checkConflict (replyBlockFor planStart endOfDay t (blocks st)) (blocks st))
    eqn:E; cbn [negb].
  - split; [reflexivity|]. now left.
  - cbn [blocks result warnings]. split; [reflexivity|]. right.
    eexists. split; [reflexivity|]. split.
    { rewrite length_app. cbn [List.length]. lia. }
    split; [|exact E].
    unfold ReplyShape. rewrite replyBlockFor_type.
    clear E. unfold replyBlockFor. cbv zeta.
    destruct (checkConflict _ (blocks st)); cbn [minutes end_ start].
    + destruct (findAvailableSlot t 15 (blocks st) (Some planStart) (Some endOfDay))
        as [s|] eqn:F; cbn [minutes end_ start].
      * rewrite findAvailableSlot_find in F. apply find_some in F.
        destruct F as [_ F]. apply trySlot_true_iff in F.
        destruct F as (Hlo & Hhi & _).
        specialize (Hlo _ eq_refl). specialize (Hhi _ eq_refl).
        repeat split; trivial; lia.
      * repeat split; trivial; lia.
    + repeat split; trivial; lia.
Qed.

Lemma replyLoop_shape (fuel : nat) (planStart endOfDay : Date) :
  forall (t : Date) (st st' : Plan),
  planStart <= t ->
  replyLoop fuel planStart endOfDay t st = Some st' ->
  exists replies,
    blocks st' = blocks st ++ replies /\
    Forall (ReplyShape planStart endOfDay) replies /\
    (forall pre b post,
       replies = pre ++ b :: post -> checkConflict b (blocks st ++ pre) = false) /\
    warnings st' = warnings st /\
    List.length (result st') = (List.length (result st) + List.length replies)%nat /\
    Z.of_nat (List.length replies) * (180 * 60000)
    < Z.max 0 (endOfDay - t) + 180 * 60000.
Proof.
  induction fuel as [|fuel IH]; intros t st st' Ht H; [discriminate|].
  cbn [replyLoop] in H.
  destruct (t <? endOfDay) eqn:E; [apply Z.ltb_lt in E|apply Z.ltb_ge in E].
  - apply IH in H; [|unfold replyInterval; lia].
    destruct H as (replies & Hb & HF & Hfree & Hw & Hr & Hn).
    destruct (replyPass_shape planStart endOfDay t st (conj Ht E))
      as (Hw1 & [(Hb1 & Hr1)|(b & Hb1 & Hr1 & Hshape & Hfree1)]).
    + exists replies. rewrite Hb1 in Hb, Hfree. rewrite Hw1 in Hw. rewrite Hr1 in Hr.
      repeat split; trivial. unfold replyInterval in Hn. lia.
    + exists (b :: replies). rewrite Hb1 in Hb, Hfree. rewrite Hw1 in Hw.
      rewrite Hr1 in Hr. rewrite <- app_assoc in Hb. cbn [app] in Hb.
      repeat split; trivial.
      * now constructor.
      * intros pre b0 post Epre. destruct pre as [|p pre]; cbn [app] in Epre.
        -- injection Epre as <- _. now rewrite app_nil_r.
        -- injection Epre as <- Epre.
           specialize (Hfree pre b0 post Epre).
           now rewrite <- app_assoc in Hfree.
      * cbn [List.length]. lia.
      * cbn [List.length]. unfold replyInterval in Hn. lia.
  - injection H as <-. exists []. rewrite app_nil_r. cbn [List.length].
    split; [reflexivity|]. split; [constructor|]. split.
    { intros pre b post Epre. destruct pre; discriminate. }
    split; [reflexivity|]. split; lia.
Qed.

(** X7. The reply loop pushes only reply windows of 15 minutes that start in
    [planStart, 20:00), each free of conflict with everything pushed before
    it, one slot for each; it adds no warning; and it pushes at most one
    window for each started 180 minutes between planStart and 20:00. *)
Theorem reply_windows_shape (fuel : nat) (planStart endOfDay : Date)
    (st st' : Plan) :
  replyLoop fuel planStart endOfDay planStart st = Some st' ->
  exists replies,
    blocks st' = blocks st ++ replies /\
    Forall (ReplyShape planStart endOfDay) replies /\
    (forall pre b post,
       replies = pre ++ b :: post -> checkConflict b (blocks st ++ pre) = false) /\
    warnings st' = warnings st /\
    List.length (result st') = (List.length (result st) + List.length replies)%nat /\
    Z.of_nat (List.length replies) * (180 * 60000)
    < Z.max 0 (endOfDay - planStart) + 180 * 60000.
Proof. apply replyLoop_shape. lia. Qed.

Lemma reply_windows_shape_witness :
  exists st',
    replyLoop 10 33300000 72000000 33300000
      {| blocks := []; result := []; warnings := [] |} = Some st' /\
    Forall (ReplyShape 33300000 72000000) (blocks st') /\
    List.length (result st') = List.length (blocks st').
Proof.
  eexists. split; [vm_compute; reflexivity|].
  match goal with
  | |- Forall _ (blocks ?s) /\ _ =>
      assert (R : replyLoop 10 33300000 72000000 33300000
                    {| blocks := []; result := []; warnings := [] |} = Some s)
        by (vm_compute; reflexivity)
  end.
  destruct (reply_windows_shape _ _ _ _ _ R) as (replies & Hb & HF & _).
  cbn [blocks app] in Hb. subst replies. split; [exact HF|reflexivity].
Defined.

Lemma slotCandidates_offsets (p s : Date) :
  In s (slotCandidates p) ->
  exists k, s = p + k * (15 * 60000) /\ -12 <= k <= 6.
Proof.
  unfold slotCandidates. cbn [In]. intro H.
  repeat (destruct H as [<-|H];
          [match goal with
           | |- exists k, ?p' + ?n * 60000 = _ /\ _ => exists (n / 15)
           | |- exists k, ?p' - ?n * 60000 = _ /\ _ => exists (- (n / 15))
           | |- exists k, ?p' = _ /\ _ => exists 0
           end; cbn; lia|]).
  contradiction.
Qed.

(** X8. Lunch is all or nothing: either one 60-minute lunch block is pushed,
    with its slot and no warning, free of conflict, inside [planStart, 20:00]
    and a whole number of quarter hours, between 12 earlier and 6 later, from
    the quarter hour that follows six hours after the invocation; or nothing
    is pushed but the lunch warning, and then no candidate passed. *)
Theorem lunch_block_or_warning (t0 planStart baseDate : Date) (st : Plan) :
  let lunchStart := ceil15 (t0 + 6 * 60 * 60000) in
  let dayEnd := parseTime (clock "20:00") baseDate in
  let st' := placeLunch t0 planStart baseDate st in
  (exists b k,
     blocks st' = blocks st ++ [b] /\
     List.length (result st') = S (List.length (result st)) /\
     warnings st' = warnings st /\
     type_ b = "lunch" /\ minutes b = 60 /\ end_ b = start b + 60 * 60000 /\
     start b = lunchStart + k * (15 * 60000) /\ -12 <= k <= 6 /\
     planStart <= start b /\ end_ b <= dayEnd /\
     checkConflict b (blocks st) = false)
  \/
  (blocks st' = blocks st /\ result st' = result st /\
   warnings st' = warnings st ++ [lunchWarning] /\
   Forall (fun s => trySlot 60 (blocks st) (Some planStart) (Some dayEnd) s = false)
     (slotCandidates lunchStart)).
Proof.
  cbv zeta. unfold placeLunch. cbv zeta.
  destruct (findAvailableSlot _ 60 (blocks st) _ _) as [s|] eqn:F;
    cbn [blocks result warnings].
  - left. rewrite findAvailableSlot_find in F. apply find_some in F.
    destruct F as [Hin F]. apply trySlot_true_iff in F.
    destruct F as (Hlo & Hhi & Hfree).
    specialize (Hlo _ eq_refl). specialize (Hhi _ eq_refl).
    destruct (slotCandidates_offsets _ _ Hin) as (k & Hk & Hrange).
    eexists. exists k. cbn [start end_ type_ minutes].
    split; [reflexivity|]. split; [rewrite length_app; cbn; lia|].
    repeat split; trivial; lia.
  - right. repeat split; trivial.
    rewrite findAvailableSlot_find in F.
    apply Forall_forall. intros s Hs.
    now apply (find_none _ _ F).
Qed.

(** X9. Dinner is all or nothing: either one 60-minute dinner block is
    pushed, with its slot and no warning, free of conflict, at one of the six
    dinner times and so inside 20:00-24:00 of the day; or nothing is pushed
    but the dinner warning, and then every one of the six times is in
    conflict.  Whenever 21:00-22:00 is free, dinner is at 21:00. *)
Theorem dinner_block_or_warning (baseDate : Date) (st : Plan) :
  let midnight := Day baseDate * msPerDay in
  let st' := placeDinner baseDate st in
  ((exists b,
      blocks st' = blocks st ++ [b] /\
      List.length (result st') = S (List.length (result st)) /\
      warnings st' = warnings st /\
      type_ b = "dinner" /\ minutes b = 60 /\ end_ b = start b + 60 * 60000 /\
      In (start b) (dinnerTimes baseDate) /\
      midnight + 20 * msPerHour <= start b /\ end_ b <= midnight + 24 * msPerHour /\
      checkConflict b (blocks st) = false)
   \/
   (blocks st' = blocks st /\ result st' = result st /\
    warnings st' = warnings st ++ [dinnerWarning] /\
    Forall (fun s => checkConflict (dinnerBlockAt s) (blocks st) = true)
      (dinnerTimes baseDate))) /\
  (checkConflict (dinnerBlockAt (midnight + 21 * msPerHour)) (blocks st) = false ->
   blocks st' = blocks st ++ [dinnerBlockAt' (midnight + 21 * msPerHour)]).
Proof.
  cbv zeta. unfold placeDinner. split.
  - destruct (findDinnerSlot baseDate (blocks st)) as [s|] eqn:F;
      cbn [blocks result warnings].
    + left. rewrite findDinnerSlot_free in F. apply find_some in F.
      destruct F as [Hin F]. apply negb_true_iff in F.
      eexists. cbn [start end_ type_ minutes].
      split; [reflexivity|]. split; [rewrite length_app; cbn; lia|].
      repeat split; trivial.
      * cbn [start]. unfold dinnerTimes, msPerHour, msPerMinute in *.
        cbn [In] in Hin.
        repeat (destruct Hin as [<-|Hin]; [lia|]). contradiction.
      * cbn [end_]. unfold dinnerTimes, msPerHour, msPerMinute in *.
        cbn [In] in Hin.
        repeat (destruct Hin as [<-|Hin]; [lia|]). contradiction.
    + right. repeat split; trivial.
      rewrite findDinnerSlot_free in F.
      apply Forall_forall. intros s Hs.
      apply (find_none _ _ F) in Hs. now apply negb_false_iff in Hs.
  - intro Hfree. rewrite findDinnerSlot_free. unfold dinnerTimes. cbn [find].
    rewrite Hfree. cbn [negb blocks]. reflexivity.
Qed.

Lemma dinner_block_or_warning_witness :
  blocks (placeDinner 32400000 {| blocks := []; result := []; warnings := [] |})
  = [dinnerBlockAt' 75600000].
Proof.
  apply (proj2 (dinner_block_or_warning 32400000
                  {| blocks := []; result := []; warnings := [] |})).
  reflexivity.
Defined.

(** ** The working set as a whole *)





(** ** The backlog sweep *)

(** X11. A task the sweep places sits at the first quarter-hour step from the
    cursor at which its block is free of conflict or has no Date for its
    end; every earlier step was inside the day, with a Date for the end of
    the block, and in conflict.  When the end of the block is a Date, it is
    at or before the end of the day, the block and its slot are pushed, no
    warning is added, and the cursor goes to the end of the block.  When it
    is not, the sweep is stuck: the slot is pushed with the end "Inval", and
    no warning is added. *)
Theorem placed_task_at_first_free_step (fuel : nat) (dayEnd : Date)
    (st : Sweep) (task : Task) (out : Sweep * bool + Stuck) :
  placeTask fuel dayEnd st task = Some out ->
  (forall st', out <> inl (st', false)) ->
  exists k : nat,
    let c := currentTime st + Z.of_nat k * (15 * 60000) in
    let b := taskBlockAt task c in
    Scanned task dayEnd (blocks (plan st)) (currentTime st) k /\
    c < dayEnd /\
    ((exists st',
        out = inl (st', true) /\
        newDate (end_ b) = Some (end_ b) /\
        checkConflict b (blocks (plan st)) = false /\
        end_ b <= dayEnd /\
        blocks (plan st') = blocks (plan st) ++ [b] /\
        result (plan st') = result (plan st) ++ [taskSlot task b] /\
        warnings (plan st') = warnings (plan st) /\
        currentTime st' = end_ b)
     \/
     (exists stuck,
        out = inr stuck /\
        newDate (end_ b) = None /\
        stuck_start stuck = c /\ stuck_task stuck = task /\
        blocks (stuck_plan stuck) = blocks (plan st) /\
        result (stuck_plan stuck) = result (plan st) ++ [endlessSlot task c] /\
        slot_end (endlessSlot task c) = "Inval" /\
        warnings (stuck_plan stuck) = warnings (plan st))).
Proof.
  intros H Hplaced. apply placeTask_spec in H. destruct H as (k & Hscan & Hout).
  exists k. cbv zeta in *.
  destruct Hout as [(-> & _)|[(Hc & He & Hn & Hfree & ->)|(Hc & Hn & ->)]].
  - exfalso. eapply Hplaced. reflexivity.
  - split; [exact Hscan|]. split; [exact Hc|]. left. eexists.
    split; [reflexivity|]. cbn [plan blocks result warnings currentTime].
    repeat split; trivial.
  - split; [exact Hscan|]. split; [exact Hc|]. right. eexists.
    split; [reflexivity|].
    cbn [stuck_plan stuck_start stuck_task blocks result warnings].
    repeat split; trivial.
Qed.

Lemma placed_task_at_first_free_step_witness :
  exists st',
    placeTask 10 72000000
      {| plan :=
           {| blocks := [{| start := 36000000; end_ := 37000000; title := "visit";
                            type_ := "fixed"; minutes := 16 |}];
              result := []; warnings := [] |};
         currentTime := 36000000 |}
      (exampleTask "report" 30 "high") = Some (inl (st', true)) /\
    currentTime st' = 39600000.
Proof.
  eexists. split; [vm_compute; reflexivity|].
  match goal with
  | |- currentTime ?s = _ =>
      assert (R : placeTask 10 72000000
                    {| plan :=
                         {| blocks := [{| start := 36000000; end_ := 37000000;
                                          title := "visit"; type_ := "fixed";
                                          minutes := 16 |}];
                            result := []; warnings := [] |};
                       currentTime := 36000000 |}
                    (exampleTask "report" 30 "high") = Some (inl (s, true)))
        by (vm_compute; reflexivity)
  end.
  destruct (placed_task_at_first_free_step _ _ _ _ _ R) as (k & _).
  - intros st' [=].
  - reflexivity.
Defined.

Lemma find_all_false (A : Type) (f : A -> bool) (l : list A) :
  (forall x, f x = false) -> find f l = None.
Proof.
  intro H. induction l as [|x l IH]; [reflexivity|].
  cbn [find]. now rewrite H.
Qed.

Lemma placeTasks_after_day_end (fuel : nat) (dayEnd : Date) :
  forall (tasks : list Task) (st : Sweep),
  (0 < fuel)%nat -> dayEnd <= currentTime st ->
  placeTasks fuel dayEnd st tasks
  = Some (inl {| plan :=
                   {| blocks := blocks (plan st); result := result (plan st);
                      warnings := warnings (plan st) ++ map taskWarning tasks |};
                 currentTime := currentTime st |}).
Proof.
  destruct fuel as [|fuel]; [lia|]. intros tasks st _.
  revert st. induction tasks as [|task rest IH]; intros st Hc.
  - cbn [placeTasks map]. rewrite app_nil_r. now destruct st as [[? ? ?] ?].
  - cbn [placeTasks]. unfold placeTask. cbn [whileLoop].
    replace (currentTime st <? dayEnd) with false
      by (symmetry; apply Z.ltb_ge; lia).
    cbn [andb negb]. rewrite IH by exact Hc.
    cbn [plan blocks result warnings currentTime map].
    now rewrite <- app_assoc.
Qed.

(** X12. A run whose plan would start at or after 20:00 places nothing before
    20:00: no reply window, no lunch and no task.  One unit of fuel is enough;
    the working set is the fixed events and at most a dinner block, the
    warnings are the lunch warning, the dinner warning if dinner found no
    place, and one warning for every task of the backlog, and the cursor
    stays at planStart. *)
Theorem late_run_places_nothing_by_day (fuel : nat) (now : Date)
    (fixedEvents : list FixedEvent) (tasks : list Task) :
  (0 < fuel)%nat ->
  parseTime (clock "20:00") (baseDateOf now) <= planStartOf now ->
  exists st dinner dinnerWarnings,
    run fuel now fixedEvents tasks = Some (inl st) /\
    blocks (plan st) = map (fixedBlock (baseDateOf now)) fixedEvents ++ dinner /\
    warnings (plan st)
    = [lunchWarning] ++ dinnerWarnings ++ map taskWarning (tasksToPlace tasks) /\
    currentTime st = planStartOf now /\
    ((exists b, dinner = [b] /\ type_ b = "dinner" /\ dinnerWarnings = []) \/
     (dinner = [] /\ dinnerWarnings = [dinnerWarning])).
Proof.
  intros Hfuel Hlate. unfold run, placeFixedToFamily. cbv zeta.
  destruct fuel as [|fuel]; [lia|]. cbn [replyLoop].
  replace (planStartOf now <? parseTime (clock "20:00") (baseDateOf now))
    with false by (symmetry; apply Z.ltb_ge; lia).
  set (fixed := map (fixedBlock (baseDateOf now)) fixedEvents).
  assert (Hlunch :
    placeLunch now (planStartOf now) (baseDateOf now)
      {| blocks := fixed; result := map fixedSlot fixedEvents; warnings := [] |}
    = {| blocks := fixed; result := map fixedSlot fixedEvents;
         warnings := [lunchWarning] |}).
  { unfold placeLunch. cbv zeta. cbn [blocks result warnings].
    rewrite findAvailableSlot_find, find_all_false; [reflexivity|].
    intro s. unfold trySlot.
    destruct (s <? planStartOf now) eqn:E; [reflexivity|].
    apply Z.ltb_ge in E. cbv zeta.
    replace (parseTime (clock "20:00") (baseDateOf now) <? s + 60 * 60000)
      with true by (symmetry; apply Z.ltb_lt; lia).
    reflexivity. }
  rewrite Hlunch. unfold placeDinner. cbn [blocks result warnings].
  destruct (findDinnerSlot (baseDateOf now) fixed) as [s|];
    unfold addFamily; cbn [blocks result warnings];
    rewrite placeTasks_after_day_end by (cbn [currentTime]; lia);
    cbn [plan blocks result warnings currentTime].
  - eexists. eexists. exists []. split; [reflexivity|].
    cbn [plan blocks warnings currentTime app].
    split; [reflexivity|]. split; [reflexivity|]. split; [reflexivity|].
    left. eexists. repeat split.
  - eexists. exists [], [dinnerWarning]. split; [reflexivity|].
    cbn [plan blocks warnings currentTime app].
    split; [now rewrite app_nil_r|]. split; [reflexivity|].
    split; [reflexivity|]. right. split; reflexivity.
Qed.

Lemma late_run_places_nothing_by_day_witness :
  exists st,
    run 1 71400000 [] [exampleTask "draft" 60 "high"] = Some (inl st) /\
    currentTime st = planStartOf 71400000.
Proof.
  destruct (late_run_places_nothing_by_day 1 71400000 []
              [exampleTask "draft" 60 "high"])
    as (st & dinner & dw & R & _ & _ & Hc & _).
  - lia.
  - vm_compute. discriminate.
  - exists st. split; [exact R|exact Hc].
Defined.

(** * Properties of the other handlers *)

(** ** HTML escaping *)

Lemma string_app_assoc (a b c : string) :
  String.append (String.append a b) c = String.append a (String.append b c).
Proof. induction a as [|x a IH]; cbn; [reflexivity|now rewrite IH]. Qed.

Lemma replaceAll_app (c : ascii) (by_ a b : string) :
  replaceAll c by_ (String.append a b)
  = String.append (replaceAll c by_ a) (replaceAll c by_ b).
Proof.
  induction a as [|x a IH]; cbn [replaceAll String.append]; [reflexivity|].
  rewrite IH. destruct (Ascii.eqb x c); cbn [String.append]; [|reflexivity].
  now rewrite string_app_assoc.
Qed.

Lemma escapeHtml_cons (c : ascii) (text : string) :
  escapeHtml (String c text) = String.append (escapeChar c) (escapeHtml text).
Proof.
  unfold escapeHtml, escapeChar. cbn [replaceAll].
  destruct (Ascii.eqb c "&") eqn:E1.
  { rewrite !replaceAll_app. reflexivity. }
  cbn [replaceAll]. destruct (Ascii.eqb c "<") eqn:E2.
  { rewrite !replaceAll_app. reflexivity. }
  cbn [replaceAll]. destruct (Ascii.eqb c ">") eqn:E3.
  { rewrite !replaceAll_app. reflexivity. }
  cbn [replaceAll]. destruct (Ascii.eqb c quoteChar) eqn:E4; reflexivity.
Qed.

(** X13. The four replacements in a row act as one pass over the text: each
    of the characters &, <, > and the double quote is written as its entity
    and every other character as itself; the & of an entity written by an
    earlier replacement is never escaped again. *)
Theorem escapeHtml_one_pass (text : string) : escapeHtml text = escapeEach text.
Proof.
  induction text as [|c text IH]; [reflexivity|].
  rewrite escapeHtml_cons, IH. reflexivity.
Qed.

Lemma chars_app (a b : string) :
  list_ascii_of_string (String.append a b)
  = list_ascii_of_string a ++ list_ascii_of_string b.
Proof. induction a as [|x a IH]; cbn; [reflexivity|now rewrite IH]. Qed.

Lemma escapeChar_safe (c x : ascii) :
  In x (list_ascii_of_string (escapeChar c)) ->
  x <> "<"%char /\ x <> ">"%char /\ x <> quoteChar.
Proof.
  unfold escapeChar.
  destruct (Ascii.eqb c "&") eqn:E1.
  { cbn. intros H. repeat (destruct H as [<-|H]; [repeat split; discriminate|]).
    contradiction. }
  destruct (Ascii.eqb c "<") eqn:E2.
  { cbn. intros H. repeat (destruct H as [<-|H]; [repeat split; discriminate|]).
    contradiction. }
  destruct (Ascii.eqb c ">") eqn:E3.
  { cbn. intros H. repeat (destruct H as [<-|H]; [repeat split; discriminate|]).
    contradiction. }
  destruct (Ascii.eqb c quoteChar) eqn:E4.
  { cbn. intros H. repeat (destruct H as [<-|H]; [repeat split; discriminate|]).
    contradiction. }
  cbn. intros [<-|[]].
  apply Ascii.eqb_neq in E2, E3, E4. auto.
Qed.

(** X14. The escaped text has no <, no > and no double quote, whatever the
    text was. *)
Theorem escapeHtml_no_markup (text : string) (x : ascii) :
  In x (list_ascii_of_string (escapeHtml text)) ->
  x <> "<"%char /\ x <> ">"%char /\ x <> quoteChar.
Proof.
  rewrite escapeHtml_one_pass.
  induction text as [|c text IH]; cbn [escapeEach list_ascii_of_string In];
    [contradiction|].
  rewrite chars_app, in_app_iff. intros [H|H]; [|now apply IH].
  now apply escapeChar_safe with (c := c).
Qed.

Lemma escapeHtml_no_markup_witness :
  escapeHtml "<b>" = "&lt;b&gt;" /\
  ("&"%char <> "<"%char /\ "&"%char <> ">"%char /\ "&"%char <> quoteChar).
Proof.
  split; [reflexivity|].
  apply (escapeHtml_no_markup "<b>" "&"%char). cbn. auto.
Defined.

(** ** The tasks table: toggle and soft delete *)

Lemma withStatus_same (t : Task) : withStatus t (task_status t) = t.
Proof. now destruct t. Qed.

Lemma withStatus_twice (t : Task) (s1 s2 : string) :
  withStatus (withStatus t s1) s2 = withStatus t s2.
Proof. reflexivity. Qed.

Lemma unique_row (db : TasksTable) (t r : Task) :
  NoDup (map task_id db) -> In t db -> In r db -> task_id r = task_id t -> r = t.
Proof.
  induction db as [|x db IH]; intros Hnd Ht Hr Hid; [contradiction|].
  cbn [map] in Hnd. inversion Hnd as [|? ? Hx Hnd']; subst.
  destruct Ht as [->|Ht], Hr as [->|Hr]; trivial.
  - exfalso. apply Hx. rewrite <- Hid. now apply in_map.
  - exfalso. apply Hx. rewrite Hid. now apply in_map.
  - now apply IH.
Qed.

Lemma selectById_unique (db : TasksTable) (t : Task) :
  NoDup (map task_id db) -> In t db -> selectById (task_id t) db = [t].
Proof.
  unfold selectById.
  induction db as [|x db IH]; intros Hnd Ht; [contradiction|].
  cbn [map] in Hnd. inversion Hnd as [|? ? Hx Hnd']; subst.
  cbn [filter]. destruct Ht as [->|Ht].
  - rewrite String.eqb_refl. f_equal.
    assert (G : forall l, ~ In (task_id t) (map task_id l) ->
                filter (fun r => String.eqb (task_id r) (task_id t)) l = []).
    { induction l as [|y l IHl]; intro Hn; [reflexivity|].
      cbn [filter]. cbn [map In] in Hn.
      destruct (String.eqb (task_id y) (task_id t)) eqn:E.
      - apply String.eqb_eq in E. tauto.
      - apply IHl. tauto. }
    now apply G.
  - destruct (String.eqb (task_id x) (task_id t)) eqn:E.
    + apply String.eqb_eq in E. exfalso. apply Hx. rewrite E. now apply in_map.
    + now apply IH.
Qed.

Lemma updateStatusById_ids (s id : string) (db : TasksTable) :
  map task_id (updateStatusById s id db) = map task_id db.
Proof.
  unfold updateStatusById. rewrite map_map. apply map_ext.
  intro t. now destruct (String.eqb (task_id t) id).
Qed.

Lemma updateStatusById_twice (s1 s2 id : string) (db : TasksTable) :
  updateStatusById s2 id (updateStatusById s1 id db) = updateStatusById s2 id db.
Proof.
  unfold updateStatusById. rewrite map_map. apply map_ext. intro t.
  destruct (String.eqb (task_id t) id) eqn:E; cbn [withStatus task_id];
    rewrite E; reflexivity.
Qed.

Lemma updateStatusById_restore (db : TasksTable) (t : Task) :
  NoDup (map task_id db) -> In t db ->
  updateStatusById (task_status t) (task_id t) db = db.
Proof.
  intros Hnd Ht. unfold updateStatusById.
  rewrite <- (map_id db) at 2. apply map_ext_in. intros r Hr.
  destruct (String.eqb (task_id r) (task_id t)) eqn:E; [|reflexivity].
  apply String.eqb_eq in E. rewrite (unique_row db t r Hnd Ht Hr E).
  apply withStatus_same.
Qed.

Lemma updateStatusById_In (s : string) (db : TasksTable) (t : Task) :
  In t db -> In (withStatus t s) (updateStatusById s (task_id t) db).
Proof.
  intro Ht. unfold updateStatusById. apply in_map_iff. exists t.
  now rewrite String.eqb_refl.
Qed.

(** X15. With unique ids, toggling a task that is todo or done twice gives
    back the table as it was: the first toggle answers the other of the two
    statuses and changes the rows of that id only, the second answers the
    first status. *)
Theorem toggle_twice_restores (db : TasksTable) (t : Task) :
  NoDup (map task_id db) -> In t db ->
  task_status t = "todo" \/ task_status t = "done" ->
  let other := if String.eqb (task_status t) "done" then "todo" else "done" in
  toggleTask (task_id t) db
  = (ToggleStatus other, updateStatusById other (task_id t) db) /\
  other <> task_status t /\
  (forall r, In r db -> task_id r <> task_id t ->
             In r (updateStatusById other (task_id t) db)) /\
  toggleTask (task_id t) (updateStatusById other (task_id t) db)
  = (ToggleStatus (task_status t), db).
Proof.
  intros Hnd Ht Hs. cbv zeta.
  set (other := if String.eqb (task_status t) "done" then "todo" else "done").
  assert (H1 : toggleTask (task_id t) db
               = (ToggleStatus other, updateStatusById other (task_id t) db)).
  { unfold toggleTask. cbv zeta. now rewrite selectById_unique. }
  split; [exact H1|]. split; [|split].
  - subst other. destruct Hs as [-> | ->]; cbn; discriminate.
  - intros r Hr Hid. unfold updateStatusById. apply in_map_iff. exists r.
    apply String.eqb_neq in Hid. now rewrite Hid.
  - unfold toggleTask. cbv zeta.
    pose proof (updateStatusById_In other db t Ht) as Hin.
    assert (Hnd' : NoDup (map task_id (updateStatusById other (task_id t) db)))
      by now rewrite updateStatusById_ids.
    pose proof (selectById_unique _ _ Hnd' Hin) as Hsel.
    cbn [withStatus task_id] in Hsel. rewrite Hsel.
    cbn [task_status withStatus].
    assert (Hback : (if String.eqb other "done" then "todo" else "done")
                    = task_status t).
    { subst other. destruct Hs as [-> | ->]; reflexivity. }
    rewrite Hback, updateStatusById_twice.
    now rewrite updateStatusById_restore.
Qed.

Lemma toggle_twice_restores_witness :
  toggleTask "a"
    (updateStatusById "done" "a"
       [exampleTask "a" 30 "high"; exampleTask "b" 60 "low"])
  = (ToggleStatus "todo", [exampleTask "a" 30 "high"; exampleTask "b" 60 "low"]).
Proof.
  refine (proj2 (proj2 (proj2
    (toggle_twice_restores [exampleTask "a" 30 "high"; exampleTask "b" 60 "low"]
       (exampleTask "a" 30 "high") _ _ _)))).
  - repeat constructor; cbn; intuition discriminate.
  - now left.
  - now left.
Defined.

(** X16. A soft delete does not hide a task from the toggle: with unique ids,
    toggling a deleted task answers done and leaves the task done, and
    GET /api/tasks/:id still answers the deleted row. *)
Theorem toggle_after_delete_revives (db : TasksTable) (t : Task) :
  NoDup (map task_id db) -> In t db ->
  getTask (task_id t) (deleteTask (task_id t) db) = Some (withStatus t "deleted") /\
  toggleTask (task_id t) (deleteTask (task_id t) db)
  = (ToggleStatus "done", updateStatusById "done" (task_id t) db) /\
  getTask (task_id t) (updateStatusById "done" (task_id t) db)
  = Some (withStatus t "done").
Proof.
  intros Hnd Ht. unfold deleteTask, getTask, toggleTask. cbv zeta.
  assert (Hsel : forall s,
    selectById (task_id t) (updateStatusById s (task_id t) db) = [withStatus t s]).
  { intro s.
    pose proof (updateStatusById_In s db t Ht) as Hin.
    assert (Hnd' : NoDup (map task_id (updateStatusById s (task_id t) db)))
      by now rewrite updateStatusById_ids.
    exact (selectById_unique _ _ Hnd' Hin). }
  rewrite !Hsel. cbn [task_status withStatus].
  repeat split. cbn. now rewrite updateStatusById_twice.
Qed.

Lemma toggle_after_delete_revives_witness :
  toggleTask "a" (deleteTask "a" [exampleTask "a" 30 "high"])
  = (ToggleStatus "done", updateStatusById "done" "a" [exampleTask "a" 30 "high"]).
Proof.
  refine (proj1 (proj2
    (toggle_after_delete_revives [exampleTask "a" 30 "high"]
       (exampleTask "a" 30 "high") _ _))).
  - repeat constructor. cbn. tauto.
  - now left.
Defined.

(** X17. For an id that no row has, the toggle answers 404 and GET answers
    404, and neither the toggle nor the soft delete changes the table. *)
Theorem unknown_id_changes_nothing (db : TasksTable) (id : string) :
  (forall r, In r db -> task_id r <> id) ->
  toggleTask id db = (ToggleNotFound, db) /\
  deleteTask id db = db /\
  getTask id db = None.
Proof.
  intro Hno.
  assert (Hsel : selectById id db = []).
  { unfold selectById. induction db as [|x db IH]; [reflexivity|].
    cbn [filter]. destruct (String.eqb (task_id x) id) eqn:E.
    - apply String.eqb_eq in E. exfalso. apply (Hno x); [now left|exact E].
    - apply IH. intros r Hr. apply Hno. now right. }
  unfold toggleTask, getTask, deleteTask. cbv zeta. rewrite Hsel.
  repeat split. unfold updateStatusById.
  rewrite <- (map_id db) at 2. apply map_ext_in. intros r Hr.
  specialize (Hno r Hr). apply String.eqb_neq in Hno. now rewrite Hno.
Qed.

Lemma unknown_id_changes_nothing_witness :
  toggleTask "z" [exampleTask "a" 30 "high"]
  = (ToggleNotFound, [exampleTask "a" 30 "high"]).
Proof.
  refine (proj1 (unknown_id_changes_nothing [exampleTask "a" 30 "high"] "z" _)).
  intros r [<-|[]]. discriminate.
Defined.

(** ** Task statistics *)

Lemma filter_length_le_implied (A : Type) (f g : A -> bool) (l : list A) :
  (forall x, f x = true -> g x = true) ->
  (List.length (filter f l) <= List.length (filter g l))%nat.
Proof.
  intro H. induction l as [|x l IH]; cbn [filter]; [lia|].
  destruct (f x) eqn:E.
  - rewrite (H x E). cbn [List.length]. lia.
  - destruct (g x); cbn [List.length]; lia.
Qed.

Lemma status_counts (l : list StatsRow) :
  (List.length (filter (fun t => String.eqb (row_status t) "todo") l)
   + List.length (filter (fun t => String.eqb (row_status t) "done") l)
   <= List.length l)%nat /\
  (Forall (fun t => row_status t = "todo" \/ row_status t = "done") l ->
   (List.length (filter (fun t => String.eqb (row_status t) "todo") l)
    + List.length (filter (fun t => String.eqb (row_status t) "done") l)
    = List.length l)%nat).
Proof.
  induction l as [|x l [IH1 IH2]]; [split; reflexivity|].
  cbn [filter].
  destruct (String.eqb (row_status x) "todo") eqn:E1;
    destruct (String.eqb (row_status x) "done") eqn:E2;
    cbn [List.length]; (split; [try lia|]).
  - apply String.eqb_eq in E1, E2. congruence.
  - apply String.eqb_eq in E1, E2. congruence.
  - intro H. inversion H; subst. specialize (IH2 ltac:(assumption)). lia.
  - intro H. inversion H; subst. specialize (IH2 ltac:(assumption)). lia.
  - intro H. inversion H as [|? ? [Hx|Hx] ?]; subst;
      apply String.eqb_neq in E1, E2; contradiction.
Qed.

Lemma category_counts (l : list StatsRow) :
  (List.length (filter (fun t => String.eqb (row_category t) "future") l)
   + List.length (filter (fun t => String.eqb (row_category t) "now") l)
   + List.length (filter (fun t => String.eqb (row_category t) "maintain") l)
   + List.length (filter (fun t => String.eqb (row_category t) "chore") l)
   <= List.length l)%nat /\
  (Forall (fun t => In (row_category t) ["future"; "now"; "maintain"; "chore"]) l ->
   (List.length (filter (fun t => String.eqb (row_category t) "future") l)
    + List.length (filter (fun t => String.eqb (row_category t) "now") l)
    + List.length (filter (fun t => String.eqb (row_category t) "maintain") l)
    + List.length (filter (fun t => String.eqb (row_category t) "chore") l)
    = List.length l)%nat).
Proof.
  induction l as [|x l [IH1 IH2]]; [split; reflexivity|].
  cbn [filter].
  destruct (String.eqb (row_category x) "future") eqn:E1;
    destruct (String.eqb (row_category x) "now") eqn:E2;
    destruct (String.eqb (row_category x) "maintain") eqn:E3;
    destruct (String.eqb (row_category x) "chore") eqn:E4;
    cbn [List.length];
    try (apply String.eqb_eq in E1, E2; congruence);
    try (apply String.eqb_eq in E1, E3; congruence);
    try (apply String.eqb_eq in E1, E4; congruence);
    try (apply String.eqb_eq in E2, E3; congruence);
    try (apply String.eqb_eq in E2, E4; congruence);
    try (apply String.eqb_eq in E3, E4; congruence);
    (split; [lia|]); intro H; inversion H as [|? ? Hx Hl]; subst;
    try (specialize (IH2 Hl); lia).
  apply String.eqb_neq in E1, E2, E3, E4. cbn [In] in Hx.
  exfalso. intuition congruence.
Qed.

(** X18. In the statistics the overdue tasks are among the todo tasks, todo
    and done together are at most the total, and so are the four category
    counts together; with no task the completion rate is 0.  When every row
    is todo or done, todo and done add up to the total, and when every row has
    one of the four categories, the category counts add up to the total. *)
Theorem taskStats_counts (roundPercent : nat -> nat -> Z) (today : string)
    (tasks : list StatsRow) :
  let r := taskStats roundPercent today tasks in
  let c := stats_byCategory r in
  (stats_overdue r <= stats_todo r)%nat /\
  (stats_todo r + stats_done r <= stats_total r)%nat /\
  (count_future c + count_now c + count_maintain c + count_chore c
   <= stats_total r)%nat /\
  (tasks = [] -> stats_completionRate r = 0) /\
  (Forall (fun t => row_status t = "todo" \/ row_status t = "done") tasks ->
   (stats_todo r + stats_done r = stats_total r)%nat) /\
  (Forall (fun t => In (row_category t) ["future"; "now"; "maintain"; "chore"])
     tasks ->
   (count_future c + count_now c + count_maintain c + count_chore c
    = stats_total r)%nat).
Proof.
  cbv zeta. unfold taskStats. cbv zeta.
  cbn [stats_overdue stats_todo stats_done stats_total stats_completionRate
       stats_byCategory count_future count_now count_maintain count_chore].
  destruct (status_counts tasks) as [S1 S2].
  destruct (category_counts tasks) as [C1 C2].
  split.
  { apply filter_length_le_implied. intros x H.
    now apply andb_true_iff in H. }
  split; [exact S1|]. split; [exact C1|].
  split; [now intros ->|]. split; [exact S2|exact C2].
Qed.

Lemma taskStats_counts_witness :
  (stats_todo
     (taskStats (fun _ _ => 50%Z) "2024-05-02"
        [{| row_category := "now"; row_status := "todo";
            row_due_date := Some "2024-05-01" |};
         {| row_category := "chore"; row_status := "done";
            row_due_date := None |}])
   + stats_done
       (taskStats (fun _ _ => 50%Z) "2024-05-02"
          [{| row_category := "now"; row_status := "todo";
              row_due_date := Some "2024-05-01" |};
           {| row_category := "chore"; row_status := "done";
              row_due_date := None |}])
   = 2)%nat.
Proof.
  refine (proj1 (proj2 (proj2 (proj2 (proj2
    (taskStats_counts (fun _ _ => 50%Z) "2024-05-02"
       [{| row_category := "now"; row_status := "todo";
           row_due_date := Some "2024-05-01" |};
        {| row_category := "chore"; row_status := "done";
           row_due_date := None |}]))))) _).
  constructor; [now left|]. constructor; [now right|]. constructor.
Defined.

(** ** Conversion of calendar events *)

Section ConvertAllFacts.
Variable isoDay : string -> option string.
Variable uuidAt : nat -> string.
Variable clockAt : nat -> string.

Lemma convertLoop_accounting :
  forall (events : list CalendarEvent) (db db' : TasksTable)
         (created skipped : nat) (reply : ConvertReply),
  convertLoop isoDay uuidAt clockAt events db created skipped = (db', reply) ->
  exists new,
    db' = db ++ new /\ Forall ConvertedRow new /\
    match reply with
    | Converted created' skipped' =>
        (created' + skipped' = created + skipped + List.length events)%nat /\
        (created + List.length new = created')%nat /\
        Forall (fun e => eventDueDate isoDay e <> None) events
    | ConvertFailed =>
        exists before event after,
          events = before ++ event :: after /\
          Forall (fun e => eventDueDate isoDay e <> None) before /\
          eventDueDate isoDay event = None /\
          (List.length new <= List.length before)%nat
    end.
Proof.
  induction events as [|event rest IH];
    intros db db' created skipped reply H; cbn [convertLoop] in H.
  - injection H as <- <-. exists []. rewrite app_nil_r.
    split; [reflexivity|]. split; [constructor|].
    cbn [List.length]. repeat split; [lia|lia|constructor].
  - cbv zeta in H.
    destruct (eventDueDate isoDay event) as [dueDate|] eqn:D.
    + assert (Hok : eventDueDate isoDay event <> None) by congruence.
      destruct (alreadyThere (eventSummary event) dueDate db).
      * apply IH in H. destruct H as (new & Hdb & HF & Hreply).
        exists new. split; [exact Hdb|]. split; [exact HF|].
        destruct reply as [created' skipped'|].
        -- destruct Hreply as (Hn & Hlen & Hall).
           cbn [List.length]. repeat split; [lia|lia|now constructor].
        -- destruct Hreply as (before & bad & after & -> & Hb & Hbad & Hlen).
           exists (event :: before), bad, after.
           cbn [List.length app]. repeat split; trivial; [now constructor|lia].
      * apply IH in H. destruct H as (new & Hdb & HF & Hreply).
        rewrite <- app_assoc in Hdb. cbn [app] in Hdb.
        eexists (_ :: new). split; [exact Hdb|].
        split; [constructor; [repeat split|exact HF]|].
        destruct reply as [created' skipped'|].
        -- destruct Hreply as (Hn & Hlen & Hall).
           cbn [List.length]. repeat split; [lia|lia|now constructor].
        -- destruct Hreply as (before & bad & after & -> & Hb & Hbad & Hlen).
           exists (event :: before), bad, after.
           cbn [List.length app]. repeat split; trivial; [now constructor|lia].
    + injection H as <- <-. exists []. rewrite app_nil_r.
      split; [reflexivity|]. split; [constructor|].
      exists [], event, rest. cbn [app List.length].
      split; [reflexivity|]. split; [constructor|]. split; [exact D|lia].
Qed.

(** X19. The conversion of a batch of calendar events accounts for every
    event it reaches.  The table keeps all its rows as they were and gains
    rows at its end, each of them a todo task of category now, 60 minutes and
    medium priority.  When the handler answers with its counts, every event
    had a start that is a date or no start, created and skipped add up to
    the number of events, and the table has gained exactly [created] rows.
    When an event has a start that is no date, the handler fails with status
    500: the rows inserted for the events before that one stay in the
    table. *)
Theorem convertAll_accounts_for_every_event (events : list CalendarEvent)
    (db db' : TasksTable) (reply : ConvertReply) :
  convertAll isoDay uuidAt clockAt events db = (db', reply) ->
  exists new,
    db' = db ++ new /\ Forall ConvertedRow new /\
    match reply with
    | Converted created skipped =>
        (created + skipped = List.length events)%nat /\
        List.length new = created /\
        Forall (fun e => eventDueDate isoDay e <> None) events
    | ConvertFailed =>
        exists before event after,
          events = before ++ event :: after /\
          Forall (fun e => eventDueDate isoDay e <> None) before /\
          eventDueDate isoDay event = None /\
          (List.length new <= List.length before)%nat
    end.
Proof.
  unfold convertAll. destruct events as [|event rest].
  - intros [= <- <-]. exists []. rewrite app_nil_r.
    repeat split; constructor.
  - intro H. apply convertLoop_accounting in H.
    destruct H as (new & Hdb & HF & Hreply).
    exists new. split; [exact Hdb|]. split; [exact HF|].
    destruct reply as [created skipped|]; [|exact Hreply].
    destruct Hreply as (Hn & Hlen & Hall). repeat split; trivial; lia.
Qed.

Lemma alreadyThere_app (summary : string) (dueDate : option string)
    (db more : TasksTable) :
  alreadyThere summary dueDate db = true ->
  alreadyThere summary dueDate (db ++ more) = true.
Proof.
  unfold alreadyThere. rewrite existsb_app. now intros ->.
Qed.

Hypothesis isoDay_not_empty : forall raw day, isoDay raw = Some day -> day <> "".

Lemma eventDueDate_truthy (event : CalendarEvent) (dueDate : option string) :
  eventDueDate isoDay event = Some dueDate ->
  dueDate = None \/ exists d, dueDate = Some d /\ truthy (Some d) = true.
Proof.
  unfold eventDueDate. cbv zeta.
  destruct (orElse (ce_dateTime event) (ce_date event)) as [raw|];
    [|intros [= <-]; now left].
  destruct (truthy (Some raw)); [|intros [= <-]; now left].
  destruct (isoDay raw) as [day|] eqn:I; [|discriminate].
  intros [= <-]. right. exists day. split; [reflexivity|]. cbn [truthy].
  apply negb_true_iff, String.eqb_neq. eapply isoDay_not_empty. exact I.
Qed.

Lemma alreadyThere_after_insert (n : nat) (event : CalendarEvent)
    (dueDate : option string) (db : TasksTable) :
  eventDueDate isoDay event = Some dueDate ->
  alreadyThere (eventSummary event) dueDate
    (db ++ [convertedTask uuidAt clockAt n (eventSummary event) dueDate]) = true.
Proof.
  intro D. unfold alreadyThere. rewrite existsb_app. apply orb_true_iff. right.
  cbn [existsb convertedTask task_title task_due_date task_status].
  rewrite String.eqb_refl, orb_false_r.
  destruct (eventDueDate_truthy _ _ D) as [->|(d & -> & Hd)].
  - reflexivity.
  - rewrite Hd, String.eqb_refl. reflexivity.
Qed.

Lemma foundIn_app (db more : TasksTable) (event : CalendarEvent) :
  foundIn isoDay db event -> foundIn isoDay (db ++ more) event.
Proof.
  intros (d & D & H). exists d. split; [exact D|now apply alreadyThere_app].
Qed.

Lemma convertLoop_leaves_all_there :
  forall (events : list CalendarEvent) (db db' : TasksTable)
         (created skipped : nat) (reply : ConvertReply),
  convertLoop isoDay uuidAt clockAt events db created skipped = (db', reply) ->
  (exists more, db' = db ++ more) /\
  match reply with
  | Converted _ _ => Forall (foundIn isoDay db') events
  | ConvertFailed =>
      exists before event after,
        events = before ++ event :: after /\
        Forall (foundIn isoDay db') before /\ eventDueDate isoDay event = None
  end.
Proof.
  induction events as [|event rest IH];
    intros db db' created skipped reply H; cbn [convertLoop] in H.
  - injection H as <- <-. split; [|constructor].
    exists []. now rewrite app_nil_r.
  - cbv zeta in H.
    destruct (eventDueDate isoDay event) as [dueDate|] eqn:D.
    + destruct (alreadyThere (eventSummary event) dueDate db) eqn:E;
        apply IH in H; destruct H as ((more & ->) & Hreply).
      * split; [eauto|].
        assert (Hev : foundIn isoDay (db ++ more) event).
        { apply foundIn_app. exists dueDate. auto. }
        destruct reply as [c s|].
        -- now constructor.
        -- destruct Hreply as (before & bad & after & -> & Hb & Hbad).
           exists (event :: before), bad, after.
           repeat split; trivial. now constructor.
      * split; [rewrite <- app_assoc; eauto|].
        assert (Hev : foundIn isoDay
                        ((db ++ [convertedTask uuidAt clockAt created
                                   (eventSummary event) dueDate]) ++ more) event).
        { apply foundIn_app. exists dueDate. split; [exact D|].
          now apply alreadyThere_after_insert. }
        destruct reply as [c s|].
        -- now constructor.
        -- destruct Hreply as (before & bad & after & -> & Hb & Hbad).
           exists (event :: before), bad, after.
           repeat split; trivial. now constructor.
    + injection H as <- <-. split; [exists []; now rewrite app_nil_r|].
      exists [], event, rest. split; [reflexivity|]. split; [constructor|exact D].
Qed.

Lemma convertLoop_all_there :
  forall (before rest : list CalendarEvent) (db : TasksTable)
         (created skipped : nat),
  Forall (foundIn isoDay db) before ->
  convertLoop isoDay uuidAt clockAt (before ++ rest) db created skipped
  = convertLoop isoDay uuidAt clockAt rest db created
      (skipped + List.length before)%nat.
Proof.
  induction before as [|event before IH]; intros rest db created skipped HF;
    cbn [app List.length].
  - now rewrite Nat.add_0_r.
  - inversion HF as [|? ? (d & D & He) Hrest]; subst.
    cbn [convertLoop]. cbv zeta. rewrite D, He.
    rewrite IH by exact Hrest. f_equal. lia.
Qed.

(** X20. The conversion is idempotent: a second conversion of the same batch
    on the table the first one left leaves the table as it is.  When the
    first one answered with its counts, the second creates nothing and skips
    every event; when the first one failed on an event whose start is no
    date, the second skips the events before that one and fails on it again
    (for a date conversion that never gives the empty string, as the ISO
    form of a date never is). *)
Theorem convertAll_twice_creates_nothing (events : list CalendarEvent)
    (db db' : TasksTable) (reply : ConvertReply) :
  convertAll isoDay uuidAt clockAt events db = (db', reply) ->
  convertAll isoDay uuidAt clockAt events db'
  = (db',
     match reply with
     | Converted _ _ => Converted 0 (List.length events)
     | ConvertFailed => ConvertFailed
     end).
Proof.
  unfold convertAll. destruct events as [|event rest].
  - intros [= <- <-]. reflexivity.
  - intro H. apply convertLoop_leaves_all_there in H. destruct H as [_ Hreply].
    destruct reply as [c s|].
    + rewrite <- (app_nil_r (event :: rest)) at 1.
      rewrite convertLoop_all_there by exact Hreply. reflexivity.
    + destruct Hreply as (before & bad & after & E & Hb & Hbad).
      rewrite E, convertLoop_all_there by exact Hb.
      cbn [convertLoop]. cbv zeta. now rewrite Hbad.
Qed.
End ConvertAllFacts.

Lemma convertAll_accounts_for_every_event_witness :
  exists new,
    [convertedTask (fun _ => "id-1") (fun _ => "now") 0 "review" (Some "2024-05-01")]
    = [] ++ new /\ List.length new = 1%nat.
Proof.
  destruct (convertAll_accounts_for_every_event
              (fun _ => Some "2024-05-01") (fun _ => "id-1") (fun _ => "now")
              [{| ce_summary := Some "review";
                  ce_dateTime := Some "2024-05-01T10:00:00Z"; ce_date := None |};
               {| ce_summary := Some "review";
                  ce_dateTime := Some "2024-05-01T10:00:00Z"; ce_date := None |}]
              []
              [convertedTask (fun _ => "id-1") (fun _ => "now") 0 "review"
                 (Some "2024-05-01")]
              (Converted 1 1) eq_refl) as (new & Hdb & _ & _ & Hlen & _).
  exists new. split; [exact Hdb|exact Hlen].
Defined.

Lemma convertAll_twice_creates_nothing_witness :
  convertAll (fun raw => if String.eqb raw "soon" then None else Some "2024-05-01")
    (fun _ => "id-1") (fun _ => "now")
    [{| ce_summary := Some "review"; ce_dateTime := Some "2024-05-01T10:00:00Z";
        ce_date := None |};
     {| ce_summary := Some "visit"; ce_dateTime := Some "soon"; ce_date := None |}]
    [convertedTask (fun _ => "id-1") (fun _ => "now") 0 "review" (Some "2024-05-01")]
  = ([convertedTask (fun _ => "id-1") (fun _ => "now") 0 "review" (Some "2024-05-01")],
     ConvertFailed).
Proof.
  refine (convertAll_twice_creates_nothing
            (fun raw => if String.eqb raw "soon" then None else Some "2024-05-01")
            (fun _ => "id-1") (fun _ => "now") _
            [{| ce_summary := Some "review";
                ce_dateTime := Some "2024-05-01T10:00:00Z"; ce_date := None |};
             {| ce_summary := Some "visit"; ce_dateTime := Some "soon";
                ce_date := None |}]
            [] _ ConvertFailed eq_refl).
  intros raw day. destruct (String.eqb raw "soon"); [discriminate|].
  intros [= <-]. discriminate.
Defined.

(** ** The stored OAuth token *)

Lemma refresh_outcome (env : OAuthEnv) (nowMs : Z) (nowIso : string)
    (response : option TokenData) (db db' : OAuthTable) (r : option string) :
  refreshGoogleAccessToken env nowMs nowIso response db = (r, db') ->
  (r = None /\ db' = db) \/
  exists token data access expires_in,
    getStoredOAuthToken db = Some token /\
    truthy (tok_refresh_token token) = true /\
    response = Some data /\
    td_access_token data = Some access /\ td_expires_in data = Some expires_in /\
    expires_in <> 0 /\ r = Some access /\
    getStoredOAuthToken db'
    = Some {| tok_access_token := access;
              tok_refresh_token := tok_refresh_token token;
              tok_expiry_at := nowMs + expires_in * 1000;
              tok_scope := orNull (orElse (td_scope data) (tok_scope token));
              tok_token_type := Some (orDefault (td_token_type data) "Bearer") |}.
Proof.
  unfold refreshGoogleAccessToken.
  destruct (getStoredOAuthToken db) as [token|] eqn:G;
    [|intros [= <- <-]; now left].
  destruct (truthy (tok_refresh_token token)) eqn:T; cbn [negb orb];
    [|intros [= <- <-]; now left].
  destruct (negb (truthy (GOOGLE_OAUTH_CLIENT_ID env))
            || negb (truthy (GOOGLE_OAUTH_CLIENT_SECRET env)));
    [intros [= <- <-]; now left|].
  destruct response as [data|]; [|intros [= <- <-]; now left].
  destruct (td_access_token data) as [access|] eqn:A;
    [|intros [= <- <-]; now left].
  destruct (td_expires_in data) as [expires_in|] eqn:E;
    [|intros [= <- <-]; now left].
  destruct (negb (truthy (Some access)) || negb (truthyNumber (Some expires_in)))
    eqn:C; [intros [= <- <-]; now left|].
  intros [= <- <-]. right.
  apply orb_false_iff in C. destruct C as [_ C].
  apply negb_false_iff in C. cbn [truthyNumber] in C.
  apply negb_true_iff, Z.eqb_neq in C.
  exists token, data, access, expires_in.
  repeat split; trivial.
  unfold saveOAuthToken, getStoredOAuthToken. cbn [option_map row_token].
  cbn [tok_access_token tok_refresh_token tok_expiry_at tok_scope tok_token_type].
  do 2 f_equal.
  - unfold orNull. now rewrite T.
  - f_equal. unfold orDefault, orElse. cbn [truthy].
    destruct (String.eqb (match (if truthy (td_token_type data)
                                 then td_token_type data else Some "Bearer")
                          with Some text => text | None => "Bearer" end) "") eqn:B;
      cbn [negb]; [|reflexivity].
    apply String.eqb_eq in B.
    destruct (truthy (td_token_type data)) eqn:TT; [|discriminate].
    destruct (td_token_type data) as [tt|]; [|discriminate].
    cbn [truthy] in TT. subst tt. discriminate.
Qed.

(** X21. An access token that [getGoogleAccessToken] returns is either the
    stored one, with more than 60 seconds left before its expiry and the
    table untouched, or one the token endpoint has just given, and then the
    table holds it with an expiry of the refresh time plus [expires_in]
    seconds and with the refresh token it had. *)
Theorem access_token_is_fresh_or_refreshed (env : OAuthEnv) (nowMs refreshMs : Z)
    (nowIso : string) (response : option TokenData) (db db' : OAuthTable)
    (access : string) :
  getGoogleAccessToken env nowMs refreshMs nowIso response db
  = (Some access, db') ->
  exists token,
    getStoredOAuthToken db = Some token /\
    ((tok_access_token token = access /\
      nowMs < tok_expiry_at token - 60 * 1000 /\ db' = db)
     \/
     (tok_expiry_at token - 60 * 1000 <= nowMs /\
      exists data expires_in token',
        response = Some data /\ td_access_token data = Some access /\
        td_expires_in data = Some expires_in /\ expires_in <> 0 /\
        getStoredOAuthToken db' = Some token' /\
        tok_access_token token' = access /\
        tok_expiry_at token' = refreshMs + expires_in * 1000 /\
        tok_refresh_token token' = tok_refresh_token token)).
Proof.
  unfold getGoogleAccessToken. cbv zeta.
  destruct (getStoredOAuthToken db) as [token|] eqn:G; [|discriminate].
  destruct (nowMs <? tok_expiry_at token - 60 * 1000) eqn:F;
    [apply Z.ltb_lt in F|apply Z.ltb_ge in F].
  - intros [= <- <-]. exists token. split; [reflexivity|]. left. auto.
  - intro H. apply refresh_outcome in H.
    destruct H as [[H _]|(token0 & data & a & e & G0 & T & R & A & E & Ne & Hr & S)];
      [discriminate|].
    rewrite G in G0. injection G0 as <-. injection Hr as <-.
    exists token. split; [reflexivity|]. right. split; [exact F|].
    eexists data, e, _. split; [exact R|]. split; [exact A|].
    split; [exact E|]. split; [exact Ne|]. split; [exact S|].
    repeat split.
Qed.

Lemma access_token_is_fresh_or_refreshed_witness :
  exists token,
    getStoredOAuthToken
      (Some {| row_token :=
                 {| tok_access_token := "a1"; tok_refresh_token := Some "r1";
                    tok_expiry_at := 5000000; tok_scope := None;
                    tok_token_type := Some "Bearer" |};
               row_updated_at := "t0" |}) = Some token /\
    tok_access_token token = "a1".
Proof.
  destruct (access_token_is_fresh_or_refreshed
              {| GOOGLE_OAUTH_CLIENT_ID := Some "id";
                 GOOGLE_OAUTH_CLIENT_SECRET := Some "secret";
                 GOOGLE_CALENDAR_ID := Some "cal";
                 GOOGLE_CALENDAR_API_KEY := None |}
              1000000 1000001 "t1" None
              (Some {| row_token :=
                         {| tok_access_token := "a1"; tok_refresh_token := Some "r1";
                            tok_expiry_at := 5000000; tok_scope := None;
                            tok_token_type := Some "Bearer" |};
                       row_updated_at := "t0" |})
              _ "a1" eq_refl) as (token & G & _).
  exists token. split; [exact G|]. now injection G as <-.
Defined.

(** X22. [getGoogleAccessToken] never loses what is stored: when it returns
    null the table is as it was, and a table that held a token with a refresh
    token still holds a token with that refresh token afterwards. *)
Theorem stored_refresh_token_is_kept (env : OAuthEnv) (nowMs refreshMs : Z)
    (nowIso : string) (response : option TokenData) (db db' : OAuthTable)
    (r : option string) (token : OAuthToken) :
  getGoogleAccessToken env nowMs refreshMs nowIso response db = (r, db') ->
  getStoredOAuthToken db = Some token ->
  (r = None -> db' = db) /\
  (truthy (tok_refresh_token token) = true ->
   exists token',
     getStoredOAuthToken db' = Some token' /\
     tok_refresh_token token' = tok_refresh_token token).
Proof.
  unfold getGoogleAccessToken. cbv zeta. intros H G. rewrite G in H.
  destruct (nowMs <? tok_expiry_at token - 60 * 1000).
  - injection H as <- <-. split; [discriminate|]. intros _. eauto.
  - apply refresh_outcome in H.
    destruct H as [[-> ->]|(token0 & data & a & e & G0 & T & R & A & E & Ne & -> & S)].
    + split; [reflexivity|]. intros _. eauto.
    + rewrite G in G0. injection G0 as <-.
      split; [discriminate|]. intros _. eexists. split; [exact S|reflexivity].
Qed.

Lemma stored_refresh_token_is_kept_witness :
  exists token',
    getStoredOAuthToken
      (snd (getGoogleAccessToken
              {| GOOGLE_OAUTH_CLIENT_ID := Some "id";
                 GOOGLE_OAUTH_CLIENT_SECRET := Some "secret";
                 GOOGLE_CALENDAR_ID := Some "cal";
                 GOOGLE_CALENDAR_API_KEY := None |}
              9000000 9000001 "t1"
              (Some {| td_access_token := Some "a2"; td_refresh_token := None;
                       td_expires_in := Some 3600; td_scope := None;
                       td_token_type := None |})
              (Some {| row_token :=
                         {| tok_access_token := "a1"; tok_refresh_token := Some "r1";
                            tok_expiry_at := 5000000; tok_scope := None;
                            tok_token_type := Some "Bearer" |};
                       row_updated_at := "t0" |}))) = Some token' /\
    tok_refresh_token token' = Some "r1".
Proof.
  refine (proj2 (stored_refresh_token_is_kept
            {| GOOGLE_OAUTH_CLIENT_ID := Some "id";
               GOOGLE_OAUTH_CLIENT_SECRET := Some "secret";
               GOOGLE_CALENDAR_ID := Some "cal";
               GOOGLE_CALENDAR_API_KEY := None |}
            9000000 9000001 "t1"
            (Some {| td_access_token := Some "a2"; td_refresh_token := None;
                     td_expires_in := Some 3600; td_scope := None;
                     td_token_type := None |})
            (Some {| row_token :=
                       {| tok_access_token := "a1"; tok_refresh_token := Some "r1";
                          tok_expiry_at := 5000000; tok_scope := None;
                          tok_token_type := Some "Bearer" |};
                     row_updated_at := "t0" |})
            _ _ _ (surjective_pairing _) eq_refl) eq_refl).
Defined.

(** X23. The access token [getGoogleAccessToken] returns is the one the
    table holds afterwards, and every later call made more than 60 seconds
    before the stored expiry returns that same token and leaves the table as
    it is, whatever the environment and whatever the token endpoint would
    answer. *)
Theorem returned_token_is_served_again (env : OAuthEnv) (nowMs refreshMs : Z)
    (nowIso : string) (response : option TokenData) (db db' : OAuthTable)
    (access : string) :
  getGoogleAccessToken env nowMs refreshMs nowIso response db
  = (Some access, db') ->
  exists token',
    getStoredOAuthToken db' = Some token' /\
    tok_access_token token' = access /\
    forall (env2 : OAuthEnv) (laterMs refreshMs2 : Z) (nowIso2 : string)
           (response2 : option TokenData),
      laterMs < tok_expiry_at token' - 60 * 1000 ->
      getGoogleAccessToken env2 laterMs refreshMs2 nowIso2 response2 db'
      = (Some access, db').
Proof.
  intro H.
  assert (S : exists token',
             getStoredOAuthToken db' = Some token' /\
             tok_access_token token' = access).
  { revert H. unfold getGoogleAccessToken. cbv zeta.
    destruct (getStoredOAuthToken db) as [token|] eqn:G; [|discriminate].
    destruct (nowMs <? tok_expiry_at token - 60 * 1000).
    - intros [= <- <-]. eauto.
    - intro H. apply refresh_outcome in H.
      destruct H as [[H _]|(token0 & data & a & e & _ & _ & _ & _ & _ & _ & Hr & S)];
        [discriminate|].
      injection Hr as <-. eexists. split; [exact S|reflexivity]. }
  destruct S as (token' & S & A). exists token'.
  split; [exact S|]. split; [exact A|].
  intros env2 laterMs refreshMs2 nowIso2 response2 L.
  unfold getGoogleAccessToken. cbv zeta. rewrite S.
  apply Z.ltb_lt in L. rewrite L. now rewrite A.
Qed.

Lemma returned_token_is_served_again_witness :
  exists token',
    getStoredOAuthToken
      (snd (getGoogleAccessToken
              {| GOOGLE_OAUTH_CLIENT_ID := Some "id";
                 GOOGLE_OAUTH_CLIENT_SECRET := Some "secret";
                 GOOGLE_CALENDAR_ID := Some "cal";
                 GOOGLE_CALENDAR_API_KEY := None |}
              9000000 9000001 "t1"
              (Some {| td_access_token := Some "a2"; td_refresh_token := None;
                       td_expires_in := Some 3600; td_scope := None;
                       td_token_type := None |})
              (Some {| row_token :=
                         {| tok_access_token := "a1"; tok_refresh_token := Some "r1";
                            tok_expiry_at := 5000000; tok_scope := None;
                            tok_token_type := Some "Bearer" |};
                       row_updated_at := "t0" |}))) = Some token' /\
    tok_access_token token' = "a2".
Proof.
  destruct (returned_token_is_served_again
              {| GOOGLE_OAUTH_CLIENT_ID := Some "id";
                 GOOGLE_OAUTH_CLIENT_SECRET := Some "secret";
                 GOOGLE_CALENDAR_ID := Some "cal";
                 GOOGLE_CALENDAR_API_KEY := None |}
              9000000 9000001 "t1"
              (Some {| td_access_token := Some "a2"; td_refresh_token := None;
                       td_expires_in := Some 3600; td_scope := None;
                       td_token_type := None |})
              (Some {| row_token :=
                         {| tok_access_token := "a1"; tok_refresh_token := Some "r1";
                            tok_expiry_at := 5000000; tok_scope := None;
                            tok_token_type := Some "Bearer" |};
                       row_updated_at := "t0" |})
              _ "a2" eq_refl) as (token' & S & A & _).
  exists token'. split; [exact S|exact A].
Defined.

(** ** The filter of the task listing *)

Lemma includes_In (xs : list string) (x : string) :
  includes xs x = true -> In x xs.
Proof.
  unfold includes. intro H. apply existsb_exists in H.
  destruct H as (y & I & E). apply String.eqb_eq in E. now subst y.
Qed.

Lemma includes_all_In (xs ys : list string) :
  forallb (includes xs) ys = true -> Forall (fun y => In y xs) ys.
Proof.
  intro H. apply Forall_forall. intros y I.
  apply includes_In. rewrite forallb_forall in H. now apply H.
Qed.

(** X24. The WHERE clause of the task listing has exactly as many [?]
    placeholders as values are bound to it, for every query; its first
    condition is [status != ?] bound to [deleted], and every condition is one
    of the ten fixed texts, so that no text of the request is ever part of
    the SQL. *)
Theorem taskFilter_placeholders_match_values (today : string) (query : TaskQuery) :
  placeholders (joinAnd (fst (taskFilter today query)))
  = List.length (snd (taskFilter today query)) /\
  hd_error (fst (taskFilter today query)) = Some "status != ?" /\
  hd_error (snd (taskFilter today query)) = Some "deleted" /\
  Forall (fun clause => In clause knownClauses) (fst (taskFilter today query)).
Proof.
  remember (taskFilter today query) as filter eqn:R. revert R.
  unfold taskFilter. cbv zeta.
  repeat match goal with
         | |- context [if ?b then _ else _] => destruct b
         end;
    intros ->; cbn [fst snd app hd_error List.length];
    (split; [vm_compute; reflexivity|]);
    (split; [reflexivity|]); (split; [reflexivity|]);
    apply includes_all_In; vm_compute; reflexivity.
Qed.

Lemma status_word_known (x : string) :
  x = "todo" \/ x = "done" -> In x filterWords.
Proof. intros [->| ->]; unfold filterWords; cbn [In]; tauto. Qed.

Lemma category_word_known (x : string) :
  In x ["future"; "now"; "maintain"; "chore"] -> In x filterWords.
Proof.
  cbn [In]. intros [<-|[<-|[<-|[<-|[]]]]]; unfold filterWords; cbn [In]; tauto.
Qed.

Lemma priority_word_known (x : string) :
  In x ["high"; "medium"; "low"] -> In x filterWords.
Proof.
  cbn [In]. intros [<-|[<-|[<-|[]]]]; unfold filterWords; cbn [In]; tauto.
Qed.

(** X25. Every value bound to the task listing's query is [deleted], the
    LIKE pattern made of the search text between two [%], the day of today,
    or one of the nine words the handler knows for status, category and
    priority: a status, category or priority of the request that is none of
    these words is bound nowhere. *)
Theorem taskFilter_values_are_known (today : string) (query : TaskQuery) :
  Forall (fun value =>
            value = String.append "%" (String.append (tq_q query) "%") \/
            value = today \/ In value filterWords)
         (snd (taskFilter today query)).
Proof.
  unfold taskFilter. cbv zeta.
  destruct (negb (String.eqb (tq_q query) ""));
    (destruct (String.eqb (orDefault (tq_status query) "all") "todo"
               || String.eqb (orDefault (tq_status query) "all") "done") eqn:S;
     [apply orb_true_iff in S; rewrite !String.eqb_eq in S|]);
    (destruct (includes ["future"; "now"; "maintain"; "chore"]
                 (orDefault (tq_category query) "all")) eqn:C;
     [apply includes_In in C|]);
    (destruct (includes ["high"; "medium"; "low"]
                 (orDefault (tq_priority query) "all")) eqn:P;
     [apply includes_In in P|]);
    repeat match goal with
           | |- context [if ?b then _ else _] => destruct b
           end;
    cbn [fst snd app];
    repeat (constructor;
            [first [ now left | now (right; left)
                   | right; right;
                     first [ now left
                           | apply status_word_known; assumption
                           | apply category_word_known; assumption
                           | apply priority_word_known; assumption ] ]|]);
    constructor.
Qed.

(** ** The OAuth callback and the disconnection *)

Lemma orDefault_truthy (a : option string) (default : string) :
  default <> EmptyString -> truthy (Some (orDefault a default)) = true.
Proof.
  intro D. unfold orDefault, orElse.
  destruct (truthy a) eqn:T.
  - destruct a as [text|]; [exact T|discriminate].
  - cbn [truthy]. apply negb_true_iff, String.eqb_neq. exact D.
Qed.

Lemma saveOAuthToken_refreshable (nowIso : string) (token : OAuthToken)
    (db : OAuthTable) :
  truthy (tok_refresh_token token) = true ->
  refreshable (saveOAuthToken nowIso token db).
Proof.
  intros T token' G. unfold saveOAuthToken, getStoredOAuthToken in G.
  cbn [option_map row_token] in G. injection G as <-.
  cbn [tok_refresh_token tok_token_type]. split.
  - unfold orNull. now rewrite T.
  - apply orDefault_truthy. discriminate.
Qed.

Lemma oauthCallback_refreshable (env : OAuthEnv) (code oauthError : option string)
    (nowMs : Z) (nowIso : string) (response : string + TokenData)
    (db : OAuthTable) :
  refreshable db ->
  refreshable (snd (oauthCallback env code oauthError nowMs nowIso response db)).
Proof.
  intro R. unfold oauthCallback. cbv zeta.
  destruct (if truthy oauthError then oauthError else None); [exact R|].
  destruct (negb (truthy code) || negb (truthy (GOOGLE_OAUTH_CLIENT_ID env))
            || negb (truthy (GOOGLE_OAUTH_CLIENT_SECRET env))); [exact R|].
  destruct response as [errorData|data]; [exact R|].
  destruct (td_access_token data) as [access|]; [|exact R].
  destruct (td_expires_in data) as [expires_in|]; [|exact R].
  match goal with
  | |- context [if ?b then _ else _] => destruct b eqn:C
  end; [exact R|].
  cbn [snd]. apply saveOAuthToken_refreshable. cbn [tok_refresh_token].
  apply orb_false_iff in C. destruct C as [C _].
  apply orb_false_iff in C. destruct C as [_ C].
  now apply negb_false_iff in C.
Qed.

Lemma getGoogleAccessToken_refreshable (env : OAuthEnv) (nowMs refreshMs : Z)
    (nowIso : string) (response : option TokenData) (db : OAuthTable) :
  refreshable db ->
  refreshable (snd (getGoogleAccessToken env nowMs refreshMs nowIso response db)).
Proof.
  intro R.
  destruct (getGoogleAccessToken env nowMs refreshMs nowIso response db)
    as [r db'] eqn:H.
  cbn [snd]. revert H. unfold getGoogleAccessToken. cbv zeta.
  destruct (getStoredOAuthToken db) as [token|] eqn:G;
    [|now intros [= <- <-]].
  destruct (nowMs <? tok_expiry_at token - 60 * 1000); [now intros [= <- <-]|].
  intro H. apply refresh_outcome in H.
  destruct H as [[_ ->]|(token0 & data & a & e & G0 & T & _ & _ & _ & _ & _ & S)];
    [exact R|].
  intros token' G'. rewrite S in G'. injection G' as <-.
  cbn [tok_refresh_token tok_token_type]. split; [exact T|].
  apply orDefault_truthy. discriminate.
Qed.

Lemma oauthStep_refreshable (db : OAuthTable) (call : OAuthCall) :
  refreshable db -> refreshable (oauthStep db call).
Proof.
  intro R. destruct call; cbn [oauthStep].
  - now apply oauthCallback_refreshable.
  - now apply getGoogleAccessToken_refreshable.
  - intros token G. discriminate.
Qed.

(** X26. Whatever callbacks, token requests and disconnections have been
    made since the table [oauth_tokens] was empty, and whatever the token
    endpoint answered to them, a token the table holds has a refresh token
    and a token type, neither of them empty. *)
Theorem stored_token_can_always_be_refreshed (calls : list OAuthCall) :
  refreshable (oauthHistory calls).
Proof.
  unfold oauthHistory.
  assert (R : refreshable None) by (intros token G; discriminate).
  revert R. generalize (@None OAuthRow).
  induction calls as [|call calls IH]; intros db R; cbn [fold_left].
  - exact R.
  - apply IH. now apply oauthStep_refreshable.
Qed.

(** X27. The callback writes all or nothing: when it answers with the
    redirection of success the table holds the access token of the answer,
    expiring [expires_in] seconds after the callback, with the refresh token
    of the answer or, when the answer has none, the one the table held; with
    every other answer the table is as it was. *)
Theorem oauthCallback_all_or_nothing (env : OAuthEnv)
    (code oauthError : option string) (nowMs : Z) (nowIso : string)
    (response : string + TokenData) (db db' : OAuthTable) (reply : CallbackReply) :
  oauthCallback env code oauthError nowMs nowIso response db = (reply, db') ->
  (reply <> OAuthSuccess /\ db' = db) \/
  (reply = OAuthSuccess /\
   exists data access expires_in token',
     response = inr data /\
     td_access_token data = Some access /\
     td_expires_in data = Some expires_in /\
     getStoredOAuthToken db' = Some token' /\
     tok_access_token token' = access /\
     tok_expiry_at token' = nowMs + expires_in * 1000 /\
     (truthy (td_refresh_token data) = true ->
      tok_refresh_token token' = td_refresh_token data) /\
     (truthy (td_refresh_token data) = false ->
      exists token, getStoredOAuthToken db = Some token /\
                    tok_refresh_token token' = tok_refresh_token token)).
Proof.
  unfold oauthCallback. cbv zeta.
  destruct (if truthy oauthError then oauthError else None);
    [intros [= <- <-]; left; split; [discriminate|reflexivity]|].
  destruct (negb (truthy code) || negb (truthy (GOOGLE_OAUTH_CLIENT_ID env))
            || negb (truthy (GOOGLE_OAUTH_CLIENT_SECRET env)));
    [intros [= <- <-]; left; split; [discriminate|reflexivity]|].
  destruct response as [errorData|data];
    [intros [= <- <-]; left; split; [discriminate|reflexivity]|].
  destruct (td_access_token data) as [access|] eqn:A;
    [|intros [= <- <-]; left; split; [discriminate|reflexivity]].
  destruct (td_expires_in data) as [expires_in|] eqn:E;
    [|intros [= <- <-]; left; split; [discriminate|reflexivity]].
  match goal with
  | |- context [if ?b then _ else _] => destruct b eqn:C
  end; [intros [= <- <-]; left; split; [discriminate|reflexivity]|].
  intros [= <- <-]. right. split; [reflexivity|].
  apply orb_false_iff in C. destruct C as [C _].
  apply orb_false_iff in C. destruct C as [_ C].
  apply negb_false_iff in C.
  eexists data, access, expires_in, _.
  split; [reflexivity|]. split; [exact A|]. split; [exact E|].
  split; [reflexivity|].
  cbn [tok_access_token tok_expiry_at tok_refresh_token].
  split; [reflexivity|]. split; [reflexivity|].
  unfold orNull. rewrite C. unfold orElse in *.
  split; intro T; rewrite T in *; [reflexivity|].
  destruct (getStoredOAuthToken db) as [token|]; [|discriminate].
  exists token. split; reflexivity.
Qed.

Lemma oauthCallback_all_or_nothing_witness :
  exists token',
    getStoredOAuthToken
      (snd (oauthCallback
              {| GOOGLE_OAUTH_CLIENT_ID := Some "id";
                 GOOGLE_OAUTH_CLIENT_SECRET := Some "secret";
                 GOOGLE_CALENDAR_ID := Some "cal";
                 GOOGLE_CALENDAR_API_KEY := None |}
              (Some "code") None 1000000000 "t1"
              (inr {| td_access_token := Some "a1"; td_refresh_token := Some "r1";
                      td_expires_in := Some 3600; td_scope := None;
                      td_token_type := None |})
              None)) = Some token' /\
    tok_access_token token' = "a1" /\ tok_expiry_at token' = 1003600000.
Proof.
  destruct (oauthCallback_all_or_nothing
              {| GOOGLE_OAUTH_CLIENT_ID := Some "id";
                 GOOGLE_OAUTH_CLIENT_SECRET := Some "secret";
                 GOOGLE_CALENDAR_ID := Some "cal";
                 GOOGLE_CALENDAR_API_KEY := None |}
              (Some "code") None 1000000000 "t1"
              (inr {| td_access_token := Some "a1"; td_refresh_token := Some "r1";
                      td_expires_in := Some 3600; td_scope := None;
                      td_token_type := None |})
              None _ _ (surjective_pairing _))
    as [[N _]|(_ & data & access & expires_in & token' & R & A & E & G & TA & TE & _)].
  - exfalso. apply N. reflexivity.
  - injection R as <-. injection A as <-. injection E as <-.
    exists token'. split; [exact G|]. split; [exact TA|exact TE].
Defined.
